(** * qq-channel: a shallow embedding of the gateway connector

    The development follows the TypeScript sources:
    - [Js]        : the fragment of JavaScript strings, UTF-8 encoding and
                    completion records the sources rely on;
    - [Signature] : [src/webhook/signature.ts];
    - [Server]    : [src/webhook/server.ts];
    - [Client]    : [src/api/client.ts] (class [QQApiClient]);
    - [Runtime]   : the socket transport with quota and fatal-code handling
                    ([QQChannelRuntime], the newer of the two versions);
    - [Legacy]    : the older socket transport ([src/runtime.ts]);
    - [Process]   : several accounts in one process ([src/channel.ts]). *)

From Stdlib Require Import ZArith Lia.
From stdpp Require Import base option list strings pretty gmap.

(** ** JavaScript values used by the sources *)

Module Js.

(** A JavaScript string is a sequence of UTF-16 code units. *)
Definition js_string := list Z.

(** A [Uint8Array]. *)
Definition bytes := list Z.

(** Code units of an ASCII literal. *)
Definition lit (s : string) : js_string :=
  map (λ a, Z.of_N (Ascii.N_of_ascii a)) (String.list_ascii_of_string s).

Definition is_high_surrogate (c : Z) : bool :=
  ((0xD800 <=? c) && (c <=? 0xDBFF))%Z.

Definition is_low_surrogate (c : Z) : bool :=
  ((0xDC00 <=? c) && (c <=? 0xDFFF))%Z.

(** The scalar value of a surrogate pair. *)
Definition pair_code_point (hi lo : Z) : Z :=
  (0x10000 + Z.shiftl (hi - 0xD800) 10 + (lo - 0xDC00))%Z.

(** UTF-8 bytes of one scalar value. *)
Definition utf8_code_point (cp : Z) : bytes :=
  if (cp <? 0x80)%Z then [cp]
  else if (cp <? 0x800)%Z then
    [Z.lor 0xC0 (Z.shiftr cp 6); Z.lor 0x80 (Z.land cp 0x3F)]
  else if (cp <? 0x10000)%Z then
    [Z.lor 0xE0 (Z.shiftr cp 12);
     Z.lor 0x80 (Z.land (Z.shiftr cp 6) 0x3F);
     Z.lor 0x80 (Z.land cp 0x3F)]
  else
    [Z.lor 0xF0 (Z.shiftr cp 18);
     Z.lor 0x80 (Z.land (Z.shiftr cp 12) 0x3F);
     Z.lor 0x80 (Z.land (Z.shiftr cp 6) 0x3F);
     Z.lor 0x80 (Z.land cp 0x3F)].

(** U+FFFD, which [TextEncoder] emits for an unpaired surrogate. *)
Definition replacement : bytes := [0xEF; 0xBF; 0xBD]%Z.

(** [new TextEncoder().encode(s)]. *)
Fixpoint utf8_encode (s : js_string) : bytes :=
  match s with
  | [] => []
  | c :: rest =>
    if is_high_surrogate c then
      match rest with
      | d :: rest' =>
        if is_low_surrogate d
        then utf8_code_point (pair_code_point c d) ++ utf8_encode rest'
        else replacement ++ utf8_encode rest
      | [] => replacement
      end
    else if is_low_surrogate c then replacement ++ utf8_encode rest
    else utf8_code_point c ++ utf8_encode rest
  end.

(** An ASCII string: every code unit is below 128. *)
Definition ascii_only (s : js_string) : Prop :=
  Forall (λ c, (0 ≤ c < 0x80)%Z) s.

(** Exceptions the modelled code can raise. *)
Inductive js_error : Type :=
  | TypeError (msg : string)
  | Error (msg : string).

(** The completion of a call: it returns, throws, or is still running when
    the step budget of the model is used up. *)
Inductive completion (A : Type) : Type :=
  | Return (a : A)
  | Throw (e : js_error)
  | Running.
Arguments Return {A} a.
Arguments Throw {A} e.
Arguments Running {A}.

Definition bind {A B} (m : completion A) (k : A → completion B) : completion B :=
  match m with
  | Return a => k a
  | Throw e => Throw e
  | Running => Running
  end.

(** [try { m } catch (e) { h e }]: a handler runs for a thrown value only. *)
Definition try_catch {A} (m : completion A) (h : js_error → completion A)
  : completion A :=
  match m with
  | Throw e => h e
  | _ => m
  end.

(** The result of a call that always comes back: a value or an exception
    (for an [async] function, a fulfilled or a rejected promise). *)
Inductive result (A : Type) : Type :=
  | Returned (a : A)
  | Thrown (e : js_error).
Arguments Returned {A} a.
Arguments Thrown {A} e.

Definition lift {A} (r : result A) : completion A :=
  match r with
  | Returned a => Return a
  | Thrown e => Throw e
  end.

#[global] Instance completion_ret : MRet completion := @Return.
#[global] Instance completion_bind : MBind completion :=
  λ A B k m, bind m k.

End Js.

Import Js.

(** ** [src/webhook/signature.ts] *)

Module Signature.

(** The [while (seed.length < 32) seed = seed + seed] loop of [deriveSeed];
    [fuel] bounds the number of iterations. *)
Fixpoint deriveSeed_loop (fuel : nat) (seed : js_string) : completion js_string :=
  if bool_decide (length seed < 32) then
    match fuel with
    | O => Running
    | S fuel' => deriveSeed_loop fuel' (seed ++ seed)
    end
  else Return seed.

(** [deriveSeed]: [new TextEncoder().encode(seed.slice(0, 32))]. *)
Definition deriveSeed (fuel : nat) (botSecret : js_string) : completion bytes :=
  seed ← deriveSeed_loop fuel botSecret;
  mret (utf8_encode (take 32 seed)).

(** The derivation in the words of the specification: the doubling loop and
    the truncation both measure the UTF-8 encoding. *)
Fixpoint spec_seed_loop (fuel : nat) (seed : js_string) : completion js_string :=
  if bool_decide (length (utf8_encode seed) < 32) then
    match fuel with
    | O => Running
    | S fuel' => spec_seed_loop fuel' (seed ++ seed)
    end
  else Return seed.

Definition spec_deriveSeed (fuel : nat) (secret : js_string) : completion bytes :=
  seed ← spec_seed_loop fuel secret;
  mret (take 32 (utf8_encode seed)).

(** *** The Ed25519 library

    [@noble/ed25519] is a dependency of the repository; its three entry points
    are taken as an interface.  A call either returns or throws. *)
Class Ed25519 : Type := {
  (** [ed.getPublicKey(privateKey)] *)
  ed_getPublicKey : bytes → result bytes;
  (** [ed.sign(message, privateKey)] *)
  ed_sign : bytes → bytes → result bytes;
  (** [ed.verify(signature, message, publicKey)] *)
  ed_verify : bytes → bytes → bytes → result bool;
}.

Section WithEd25519.
Context `{Ed25519}.

Definition getPrivateKey (fuel : nat) (botSecret : js_string) : completion bytes :=
  deriveSeed fuel botSecret.

Definition getPublicKey (fuel : nat) (botSecret : js_string) : completion bytes :=
  privateKey ← getPrivateKey fuel botSecret;
  lift (ed_getPublicKey privateKey).

(** *** [parseInt(text, 16)] *)

(** [WhiteSpace] and [LineTerminator] code units, skipped by [parseInt]. *)
Definition is_white_space (c : Z) : bool :=
  bool_decide (c ∈ [0x9; 0xA; 0xB; 0xC; 0xD; 0x20; 0xA0; 0x1680; 0x2028;
                    0x2029; 0x202F; 0x205F; 0x3000; 0xFEFF]%Z)
  || ((0x2000 <=? c) && (c <=? 0x200A))%Z.

Fixpoint trim_start (s : js_string) : js_string :=
  match s with
  | c :: rest => if is_white_space c then trim_start rest else s
  | [] => []
  end.

Definition hex_digit (c : Z) : option Z :=
  if ((48 <=? c) && (c <=? 57))%Z then Some (c - 48)%Z
  else if ((97 <=? c) && (c <=? 102))%Z then Some (c - 87)%Z
  else if ((65 <=? c) && (c <=? 70))%Z then Some (c - 55)%Z
  else None.

(** Value of the longest prefix of hexadecimal digits; [None] when there
    is no digit at all. *)
Fixpoint hex_prefix (acc : option Z) (s : js_string) : option Z :=
  match s with
  | c :: rest =>
    match hex_digit c with
    | Some d => hex_prefix (Some (16 * default 0 acc + d)%Z) rest
    | None => acc
    end
  | [] => acc
  end.

(** [parseInt(text, 16)]; [None] is NaN. *)
Definition parseInt16 (text : js_string) : option Z :=
  let s := trim_start text in
  let '(sign, s) :=
    match s with
    | c :: rest =>
      if (c =? 45)%Z then ((-1)%Z, rest)
      else if (c =? 43)%Z then (1%Z, rest)
      else (1%Z, s)
    | [] => (1%Z, [])
    end in
  let s :=
    match s with
    | z :: x :: rest =>
      if ((z =? 48) && ((x =? 120) || (x =? 88)))%Z then rest else s
    | _ => s
    end in
  (λ v, sign * v)%Z <$> hex_prefix None s.

(** Storing a number into a [Uint8Array] element: NaN becomes 0, an
    integer is reduced modulo 256. *)
Definition to_uint8 (v : option Z) : Z :=
  match v with
  | Some n => (n mod 256)%Z
  | None => 0%Z
  end.

(** [text.substring(from, to)] for [from <= to]. *)
Definition substring (from to : nat) (text : js_string) : js_string :=
  take (to - from) (drop from text).

(** [hexToBytes]: [new Uint8Array(hex.length / 2)] drops the fraction of
    its argument, so the last character of a string of odd length is not
    read; no element of the loop throws. *)
Definition hexToBytes (hex : js_string) : bytes :=
  map (λ i, to_uint8 (parseInt16 (substring (i * 2) (i * 2 + 2) hex)))
      (seq 0 (length hex / 2)).

(** One hexadecimal digit, lower case. *)
Definition hex_char (d : Z) : Z :=
  if (d <? 10)%Z then (48 + d)%Z else (87 + d)%Z.

(** [b.toString(16)] for an element of a [Uint8Array]. *)
Definition toString16 (b : Z) : js_string :=
  if (b <? 16)%Z then [hex_char b]
  else [hex_char (b / 16); hex_char (b mod 16)].

(** [text.padStart(2, '0')] *)
Definition padStart2 (text : js_string) : js_string :=
  if bool_decide (length text < 2) then
    replicate (2 - length text) 48%Z ++ text
  else text.

Definition bytesToHex (b : bytes) : js_string :=
  concat (map (λ x, padStart2 (toString16 x)) b).

Definition verifySignature
    (fuel : nat) (signature timestamp body botSecret : js_string)
  : completion bool :=
  try_catch
    (let message := timestamp ++ body in
     let messageBytes := utf8_encode message in
     let signatureBytes := hexToBytes signature in
     publicKey ← getPublicKey fuel botSecret;
     lift (ed_verify signatureBytes messageBytes publicKey))
    (λ _, Return false).

Definition signCallbackResponse
    (fuel : nat) (eventTs plainToken botSecret : js_string)
  : completion js_string :=
  let message := eventTs ++ plainToken in
  let messageBytes := utf8_encode message in
  privateKey ← getPrivateKey fuel botSecret;
  signature ← lift (ed_sign messageBytes privateKey);
  mret (bytesToHex signature).

End WithEd25519.

End Signature.

(** ** [src/webhook/server.ts] *)

Module Server.
Import Signature.

#[local] Set Warnings "-register-all".

(** Values produced by [JSON.parse], and [undefined] for an absent
    property.  An object lists its own properties, each name once; the
    numbers the server looks at are integers. *)
Inductive value : Type :=
  | VUndefined
  | VNull
  | VBool (b : bool)
  | VNum (n : Z)
  | VStr (s : js_string)
  | VArr (items : list value)
  | VObj (fields : list (string * value)).

Fixpoint assoc (k : string) (fields : list (string * value)) : option value :=
  match fields with
  | (k', v) :: rest => if String.eqb k k' then Some v else assoc k rest
  | [] => None
  end.

(** Property read [v.k] for the names the server reads ([op], [t], [id],
    [d], [plain_token], [event_ts]): a [TypeError] on [undefined] and
    [null], the own property of an object, [undefined] otherwise. *)
Definition get (v : value) (k : string) : completion value :=
  match v with
  | VUndefined | VNull =>
    Throw (TypeError ("Cannot read properties of undefined (reading '" +:+ k +:+ "')"))
  | VObj fields => Return (default VUndefined (assoc k fields))
  | _ => Return VUndefined
  end.

(** [ToBoolean] *)
Definition truthy (v : value) : bool :=
  match v with
  | VUndefined | VNull => false
  | VBool b => b
  | VNum n => negb (n =? 0)%Z
  | VStr s => negb (bool_decide (s = []))
  | VArr _ | VObj _ => true
  end.

(** [v === 13] and [v === 0] *)
Definition strict_eq_num (v : value) (n : Z) : bool :=
  match v with
  | VNum m => (m =? n)%Z
  | _ => false
  end.

(** A request header of type [string | undefined]. *)
Definition header := option js_string.

Definition header_truthy (h : header) : bool :=
  match h with
  | Some s => negb (bool_decide (s = []))
  | None => false
  end.

Inductive response_body : Type :=
  | ErrorBody (error : string)
  | MessageBody (message : string)
  | ValidationBody (plain_token : value) (signature : js_string).

(** [res.writeHead(status, ...); res.end(JSON.stringify(body))] *)
Record response : Type := {
  status : Z;
  body : response_body;
}.

(** The response, and the event handed to [setImmediate] if any. *)
Record handled : Type := {
  sent : response;
  deferred : option (value * value);
}.

Definition reply (status : Z) (b : response_body) : handled :=
  {| sent := {| status := status; body := b |}; deferred := None |}.

(** The runtime services the server uses besides Ed25519. *)
Class Host : Type := {
  (** [JSON.parse(body)]; [None] when it throws *)
  json_parse : js_string → option value;
  (** [new TextEncoder().encode(a + b)] when [a] and [b] are not both
      strings *)
  encode_sum : value → value → bytes;
}.

Section WithHost.
Context `{Ed25519} `{Host}.

Variable appSecret : js_string.

(** [signCallbackResponse] applied to the two fields of the payload; the
    declared type of both is [string]. *)
Definition signFields (fuel : nat) (event_ts plain_token : value)
  : completion js_string :=
  match event_ts, plain_token with
  | VStr eventTs, VStr plainToken =>
    signCallbackResponse fuel eventTs plainToken appSecret
  | _, _ =>
    privateKey ← getPrivateKey fuel appSecret;
    signature ← lift (ed_sign (encode_sum event_ts plain_token) privateKey);
    mret (bytesToHex signature)
  end.

Definition handleURLValidation (fuel : nat) (payload : value)
  : completion handled :=
  data ← get payload "d";
  plain_token ← get data "plain_token";
  if negb (truthy plain_token) then
    mret (reply 400 (ErrorBody "Missing plain_token or event_ts"))
  else
    event_ts ← get data "event_ts";
    if negb (truthy event_ts) then
      mret (reply 400 (ErrorBody "Missing plain_token or event_ts"))
    else
      signature ← signFields fuel event_ts plain_token;
      mret (reply 200 (ValidationBody plain_token signature)).

Definition handleDispatch (payload : value) : completion handled :=
  eventType ← get payload "t";
  if negb (truthy eventType) then
    mret (reply 200 (MessageBody "ok"))
  else
    eventData ← get payload "d";
    mret {| sent := {| status := 200; body := MessageBody "ok" |};
            deferred := Some (eventType, eventData) |}.

Definition processRequest
    (fuel : nat) (signature timestamp : header) (body : js_string)
  : completion handled :=
  try_catch
    (match json_parse body with
     | None => mret (reply 400 (ErrorBody "Invalid JSON"))
     | Some payload =>
       op ← get payload "op";
       _ ← get payload "t";
       _ ← get payload "id";
       if strict_eq_num op 13 then handleURLValidation fuel payload
       else
         verified ←
           match signature, timestamp with
           | Some sig, Some ts =>
             if header_truthy signature && header_truthy timestamp
             then verifySignature fuel sig ts body appSecret
             else mret true
           | _, _ => mret true
           end;
         if negb verified then
           mret (reply 401 (ErrorBody "Invalid signature"))
         else if strict_eq_num op 0 then handleDispatch payload
         else mret (reply 200 (MessageBody "ok"))
     end)
    (λ _, mret (reply 500 (ErrorBody "Internal server error"))).

(** [handleRequest].  [pathname] is [url.pathname] of
    [new URL(req.url || '/', `http://${req.headers.host}`)], and [None] when
    the constructor throws, as it does for a [Host] header that is no host
    name; the call stands outside any [try], so the exception leaves the
    handler before anything is written.  Anything but a POST to the
    configured path is a 404. *)
Definition handleRequest
    (fuel : nat) (method : string) (pathname : option string)
    (expectedPath : string)
    (signature timestamp : header) (body : js_string)
  : completion handled :=
  match pathname with
  | None => Throw (TypeError "Invalid URL")
  | Some pathname =>
    if negb (String.eqb method "POST")
       || negb (String.eqb pathname expectedPath)
    then mret (reply 404 (ErrorBody "Not found"))
    else processRequest fuel signature timestamp body
  end.

End WithHost.

End Server.

(** ** [src/api/client.ts] *)

Module Client.

(** What [await fetch(...)] followed by reading the body comes to. *)
Inductive fetch_result (A : Type) : Type :=
  | FetchRejected (e : js_error)          (* the network call fails *)
  | HttpNotOk (status : Z) (text : string) (* [!response.ok] *)
  | HttpBodyRejected (e : js_error)       (* [response.json()] fails *)
  | HttpOk (data : A).
Arguments FetchRejected {A} e.
Arguments HttpNotOk {A} status text.
Arguments HttpBodyRejected {A} e.
Arguments HttpOk {A} data.

Record TokenResponse : Type := {
  access_token : string;
  expires_in : Z;
}.

Record SessionStartLimit : Type := {
  total : Z;
  remaining : Z;
  reset_after : Z;
  max_concurrency : Z;
}.

Record GatewayResponse : Type := {
  url : string;
  shards : Z;
  session_start_limit : option SessionStartLimit;
}.

(** [SendMessageResponse], at the fields the callers read. *)
Record SendMessageResponse : Type := {
  sent_id : string;
  sent_timestamp : string;
}.

(** The JSON body posted to [TOKEN_ENDPOINT]. *)
Record TokenRequest : Type := {
  req_appId : string;
  req_clientSecret : string;
}.

(** The fields of a [QQApiClient]. *)
Record QQApiClient : Type := {
  appId : string;
  appSecret : string;
  baseUrl : string;
  accessToken : option string;
  tokenExpiresAt : Z;
}.

Definition PRODUCTION_API_BASE : string := "https://api.sgroup.qq.com".
Definition SANDBOX_API_BASE : string := "https://sandbox.api.sgroup.qq.com".

(** [new QQApiClient(config)] *)
Definition new_client (id secret : string) (sandbox : bool) : QQApiClient :=
  {| appId := id; appSecret := secret;
     baseUrl := if sandbox then SANDBOX_API_BASE else PRODUCTION_API_BASE;
     accessToken := None; tokenExpiresAt := 0 |}.

(** Truthiness of [this.accessToken : string | null]. *)
Definition token_truthy (t : option string) : bool :=
  match t with
  | Some s => negb (String.eqb s "")
  | None => false
  end.

(** The body posted by a client: its own [appId] and secret. *)
Definition token_request_of (c : QQApiClient) : TokenRequest :=
  {| req_appId := appId c; req_clientSecret := appSecret c |}.

(** The cache test at the head of [getAccessToken]. *)
Definition cache_valid (c : QQApiClient) (forceRefresh : bool) (now : Z) : bool :=
  negb forceRefresh && token_truthy (accessToken c)
  && (now + 60 * 1000 <? tokenExpiresAt c)%Z.

(** [getAccessToken] up to its first [await]: either the cached token is
    returned, or a request is sent to the issuance endpoint. *)
Inductive token_step : Type :=
  | Cached (token : string)
  | Awaiting (request : TokenRequest).

Definition getAccessToken_begin (c : QQApiClient) (forceRefresh : bool) (now : Z)
  : token_step :=
  if cache_valid c forceRefresh now then Cached (default "" (accessToken c))
  else Awaiting (token_request_of c).

(** [getAccessToken] from the arrival of the response on; [now] is the
    clock value read when the call began. *)
Definition getAccessToken_resume
    (c : QQApiClient) (now : Z) (r : fetch_result TokenResponse)
  : QQApiClient * result string :=
  match r with
  | FetchRejected e => (c, Thrown e)
  | HttpNotOk status text =>
    (c, Thrown (Error ("Failed to get access token: " +:+ pretty status
                        +:+ " " +:+ text)))
  | HttpBodyRejected e => (c, Thrown e)
  | HttpOk data =>
    ({| appId := appId c; appSecret := appSecret c; baseUrl := baseUrl c;
        accessToken := Some (access_token data);
        tokenExpiresAt := (now + expires_in data * 1000)%Z |},
     Returned (access_token data))
  end.

(** The outcome of a complete call: the client afterwards, the result, and
    the requests sent to the issuance endpoint. *)
Record token_call : Type := {
  client_after : QQApiClient;
  outcome : result string;
  requests : list TokenRequest;
}.

(** A whole call of [getAccessToken(forceRefresh)] with nothing else
    running in between; [net] is the answer of the issuance endpoint. *)
Definition getAccessToken
    (c : QQApiClient) (forceRefresh : bool) (now : Z)
    (net : fetch_result TokenResponse) : token_call :=
  match getAccessToken_begin c forceRefresh now with
  | Cached token =>
    {| client_after := c; outcome := Returned token; requests := [] |}
  | Awaiting request =>
    let '(c', r) := getAccessToken_resume c now net in
    {| client_after := c'; outcome := r; requests := [request] |}
  end.

(** [request<T>(method, path, body)]: the token is taken from
    [getAccessToken()], then the API is called. *)
Definition request {T : Type}
    (c : QQApiClient) (now : Z) (token_net : fetch_result TokenResponse)
    (api_net : fetch_result T)
  : QQApiClient * result T * list TokenRequest :=
  let call := getAccessToken c false now token_net in
  match outcome call with
  | Returned _ =>
    (client_after call,
     match api_net with
     | FetchRejected e => Thrown e
     | HttpNotOk status text =>
       Thrown (Error ("API request failed: " +:+ pretty status +:+ " " +:+ text))
     | HttpBodyRejected e => Thrown e
     | HttpOk data => Returned data
     end,
     requests call)
  | Thrown e => (client_after call, Thrown e, requests call)
  end.

(** [getGateway()] *)
Definition getGateway
    (c : QQApiClient) (now : Z) (token_net : fetch_result TokenResponse)
    (api_net : fetch_result GatewayResponse) :=
  request c now token_net api_net.

(** *** Calls in flight

    Several calls of [getAccessToken] on one client can be suspended at
    their [await] at the same time.  [pending] holds, for every suspended
    call, the clock value it read; [sent] logs the requests made to the
    issuance endpoint and [finished] what each completed call returned. *)
Record flight : Type := {
  client : QQApiClient;
  pending : gmap nat Z;
  sent : list (nat * TokenRequest);
  finished : gmap nat (result string);
}.

Inductive flight_event : Type :=
  | Call (id : nat) (forceRefresh : bool) (now : Z)
  | Response (id : nat) (r : fetch_result TokenResponse).

Definition flight_step (f : flight) (ev : flight_event) : flight :=
  match ev with
  | Call id forceRefresh now =>
    match getAccessToken_begin (client f) forceRefresh now with
    | Cached token =>
      {| client := client f; pending := pending f; sent := sent f;
         finished := <[id := Returned token]> (finished f) |}
    | Awaiting request =>
      {| client := client f; pending := <[id := now]> (pending f);
         sent := sent f ++ [(id, request)]; finished := finished f |}
    end
  | Response id r =>
    match pending f !! id with
    | Some now =>
      let '(c', res) := getAccessToken_resume (client f) now r in
      {| client := c'; pending := delete id (pending f); sent := sent f;
         finished := <[id := res]> (finished f) |}
    | None => f
    end
  end.

Definition flight_run (f : flight) (evs : list flight_event) : flight :=
  foldl flight_step f evs.

Definition idle (c : QQApiClient) : flight :=
  {| client := c; pending := ∅; sent := []; finished := ∅ |}.

End Client.

(** ** The socket transport ([QQChannelRuntime])

    Frames and events are taken at the shapes declared in [types.ts]. *)

Module Wire.

Record BotUser : Type := {
  user_id : string;
  username : string;
}.

Record MessagePayload : Type := {
  msg_id : string;
  channel_id : string;
  guild_id : string;
  content : string;
  author : BotUser;
}.

(** A dispatch, by its [t] field. *)
Inductive dispatch : Type :=
  | READY (session_id : string) (user : BotUser)
  | AT_MESSAGE_CREATE (m : MessagePayload)
  | DIRECT_MESSAGE_CREATE (m : MessagePayload)
  | RESUMED
  | OtherEvent (t : string).

(** An inbound frame, by its [op] field. *)
Inductive frame : Type :=
  | Hello (heartbeat_interval : Z)          (* op 10 *)
  | Dispatch (ev : dispatch)                (* op 0 *)
  | HeartbeatAck                            (* op 11 *)
  | Reconnect                               (* op 7 *)
  | InvalidSession                          (* op 9 *)
  | UnknownOp (op : Z).

(** [WSPayload]: [s] is [None] when the field is [undefined] or [null]. *)
Record WSPayload : Type := {
  body : frame;
  s : option Z;
}.

(** Frames the transport sends. *)
Inductive sent_frame : Type :=
  | Identify (token : string) (intents : Z) (shard : Z * Z)  (* op 2 *)
  | Heartbeat (d : option Z).                                (* op 1 *)

(** The [Intents] flags used by [sendIdentify]. *)
Definition GUILDS : Z := Z.shiftl 1 0.
Definition GUILD_MEMBERS : Z := Z.shiftl 1 1.
Definition GUILD_MESSAGES : Z := Z.shiftl 1 9.
Definition DIRECT_MESSAGE : Z := Z.shiftl 1 12.

Inductive ReadyState : Type := CONNECTING | OPEN | CLOSING | CLOSED.

(** The socket object held in [this.ws]. *)
Record WebSocket : Type := {
  ws_url : string;
  readyState : ReadyState;
}.

(** The two delayed callbacks the transport registers with [setTimeout]. *)
Inductive timer : Type :=
  | ReconnectTimer        (* set by [scheduleReconnect] *)
  | InvalidSessionTimer.  (* set on an InvalidSession frame *)

(** What a handler does to the outside. *)
Inductive effect : Type :=
  | OnError (e : js_error)
  | OnReady (sessionId : string) (user : BotUser)
  | OnMessage (m : MessagePayload) (isDirect : bool)
  | SetTimeout (cb : timer) (delay : Z)
  | SetInterval (interval : Z)
  | ClearInterval
  | NewWebSocket (url : string)
  | WsClose
  | WsSend (f : sent_frame)
  | TokenRequested (r : Client.TokenRequest).

(** *** Handlers as state transformers that log their effects

    A handler is a function from the state to the state after it and the
    effects it had, in their order.  In [Runtime] a handler that awaits the
    network is given the answers with its input, which is the run of the
    handler during which nothing else happens; in [Loop] the same handlers
    are cut at their [await]s and other events come in between. *)

Definition action (S : Type) : Type := S → S * list effect.

Definition skip {S} : action S := λ w, (w, []).

Definition emit {S} (e : effect) : action S := λ w, (w, [e]).

Definition emit_all {S} (es : list effect) : action S := λ w, (w, es).

Definition andThen {S} (a b : action S) : action S :=
  λ w, let '(w1, e1) := a w in
       let '(w2, e2) := b w1 in
       (w2, e1 ++ e2).

(** An action that first reads the state. *)
Definition reading {S A} (f : S → A) (k : A → action S) : action S :=
  λ w, k (f w) w.

Declare Scope action_scope.
Delimit Scope action_scope with action.
Bind Scope action_scope with action.
Notation "a ;; b" := (andThen a b)
  (at level 100, b at level 200, right associativity) : action_scope.
Notation "'when' c 'then' a" := (if c then a else skip)
  (at level 99, c at level 98, a at level 99) : action_scope.

End Wire.

Module Runtime.
Import Client Wire.

(** Fatal error codes that should stop reconnection attempts. *)
Definition FATAL_CLOSE_CODES : list Z :=
  [4004; 4010; 4011; 4012; 4013; 4014; 4903]%Z.

Definition maxReconnectAttempts : nat := 5.
Definition baseReconnectDelay : Z := 5000.

(** The mutable fields of a [QQChannelRuntime]. *)
Record QQChannelRuntime : Type := {
  ws : option WebSocket;
  heartbeatInterval : option Z;
  lastSequence : option Z;
  sessionId : option string;
  reconnectAttempts : nat;
  isClosing : bool;
  isFatalError : bool;
  lastCloseCode : option Z;
}.

(** [new QQChannelRuntime(config)] *)
Definition new_runtime : QQChannelRuntime :=
  {| ws := None; heartbeatInterval := None; lastSequence := None;
     sessionId := None; reconnectAttempts := 0; isClosing := false;
     isFatalError := false; lastCloseCode := None |}.

(** What the methods of one transport read and write: the module-level
    variable [cachedAccessToken], the client [config.apiClient] and the
    transport's own fields. *)
Record world : Type := {
  cachedAccessToken : option string;
  apiClient : QQApiClient;
  self : QQChannelRuntime;
}.

Definition set_ws (v : option WebSocket) (r : QQChannelRuntime) :=
  {| ws := v; heartbeatInterval := heartbeatInterval r;
     lastSequence := lastSequence r; sessionId := sessionId r;
     reconnectAttempts := reconnectAttempts r; isClosing := isClosing r;
     isFatalError := isFatalError r; lastCloseCode := lastCloseCode r |}.
Definition set_heartbeatInterval (v : option Z) (r : QQChannelRuntime) :=
  {| ws := ws r; heartbeatInterval := v;
     lastSequence := lastSequence r; sessionId := sessionId r;
     reconnectAttempts := reconnectAttempts r; isClosing := isClosing r;
     isFatalError := isFatalError r; lastCloseCode := lastCloseCode r |}.
Definition set_lastSequence (v : option Z) (r : QQChannelRuntime) :=
  {| ws := ws r; heartbeatInterval := heartbeatInterval r;
     lastSequence := v; sessionId := sessionId r;
     reconnectAttempts := reconnectAttempts r; isClosing := isClosing r;
     isFatalError := isFatalError r; lastCloseCode := lastCloseCode r |}.
Definition set_sessionId (v : option string) (r : QQChannelRuntime) :=
  {| ws := ws r; heartbeatInterval := heartbeatInterval r;
     lastSequence := lastSequence r; sessionId := v;
     reconnectAttempts := reconnectAttempts r; isClosing := isClosing r;
     isFatalError := isFatalError r; lastCloseCode := lastCloseCode r |}.
Definition set_reconnectAttempts (v : nat) (r : QQChannelRuntime) :=
  {| ws := ws r; heartbeatInterval := heartbeatInterval r;
     lastSequence := lastSequence r; sessionId := sessionId r;
     reconnectAttempts := v; isClosing := isClosing r;
     isFatalError := isFatalError r; lastCloseCode := lastCloseCode r |}.
Definition set_isClosing (v : bool) (r : QQChannelRuntime) :=
  {| ws := ws r; heartbeatInterval := heartbeatInterval r;
     lastSequence := lastSequence r; sessionId := sessionId r;
     reconnectAttempts := reconnectAttempts r; isClosing := v;
     isFatalError := isFatalError r; lastCloseCode := lastCloseCode r |}.
Definition set_isFatalError (v : bool) (r : QQChannelRuntime) :=
  {| ws := ws r; heartbeatInterval := heartbeatInterval r;
     lastSequence := lastSequence r; sessionId := sessionId r;
     reconnectAttempts := reconnectAttempts r; isClosing := isClosing r;
     isFatalError := v; lastCloseCode := lastCloseCode r |}.
Definition set_lastCloseCode (v : option Z) (r : QQChannelRuntime) :=
  {| ws := ws r; heartbeatInterval := heartbeatInterval r;
     lastSequence := lastSequence r; sessionId := sessionId r;
     reconnectAttempts := reconnectAttempts r; isClosing := isClosing r;
     isFatalError := isFatalError r; lastCloseCode := v |}.

Definition action : Type := Wire.action world.

Definition update (f : QQChannelRuntime → QQChannelRuntime) : action :=
  λ w, ({| cachedAccessToken := cachedAccessToken w;
           apiClient := apiClient w; self := f (self w) |}, []).

Definition set_cached (t : option string) : action :=
  λ w, ({| cachedAccessToken := t; apiClient := apiClient w;
           self := self w |}, []).

Definition set_client (c : QQApiClient) : action :=
  λ w, ({| cachedAccessToken := cachedAccessToken w; apiClient := c;
           self := self w |}, []).

Local Open Scope action_scope.

Definition stopHeartbeat : action :=
  reading (λ w, heartbeatInterval (self w)) (λ h,
    match h with
    | Some _ => emit ClearInterval ;; update (set_heartbeatInterval None)
    | None => skip
    end).

Definition startHeartbeat (interval : Z) : action :=
  stopHeartbeat ;;
  emit (SetInterval interval) ;;
  update (set_heartbeatInterval (Some interval)).

(** [send]: only on an open socket. *)
Definition send (f : sent_frame) : action :=
  reading (λ w, ws (self w)) (λ sock,
    match sock with
    | Some sock =>
      match readyState sock with
      | OPEN => emit (WsSend f)
      | _ => skip
      end
    | None => skip
    end).

(** The template literal [`QQBot ${cachedAccessToken}`]. *)
Definition identify_token (cached : option string) : string :=
  "QQBot " +:+ default "null" cached.

Definition sendIdentify : action :=
  let intents :=
    Z.lor (Z.lor (Z.lor GUILDS GUILD_MEMBERS) GUILD_MESSAGES) DIRECT_MESSAGE in
  reading cachedAccessToken (λ cached,
    send (Identify (identify_token cached) intents (0, 1)%Z)).

Definition handleHello (heartbeat_interval : Z) : action :=
  startHeartbeat heartbeat_interval ;;
  sendIdentify.

Definition handleReady (session_id : string) (user : BotUser) : action :=
  update (set_sessionId (Some session_id)) ;;
  update (set_reconnectAttempts 0) ;;
  emit (OnReady session_id user).

Definition handleDispatch (ev : dispatch) : action :=
  match ev with
  | READY session_id user => handleReady session_id user
  | AT_MESSAGE_CREATE m => emit (OnMessage m false)
  | DIRECT_MESSAGE_CREATE m => emit (OnMessage m true)
  | RESUMED => skip
  | OtherEvent _ => skip
  end.

(** Schedule reconnection with exponential backoff. *)
Definition scheduleReconnect : action :=
  reading self (λ r,
    if isClosing r || isFatalError r then skip
    else if bool_decide (maxReconnectAttempts ≤ reconnectAttempts r) then
      emit (OnError (Error "Max reconnect attempts reached"))
    else
      let attempts := S (reconnectAttempts r) in
      let delay := (baseReconnectDelay * 2 ^ Z.of_nat (attempts - 1))%Z in
      let cappedDelay := Z.min delay 300000 in
      update (set_reconnectAttempts attempts) ;;
      emit (SetTimeout ReconnectTimer cappedDelay)).

(** What one run of [start] gets from the outside: the clock values it
    reads, the answers of the network, and whether [new WebSocket] throws.
    [start] below is the run from the call to the end with no other
    handler running while it waits at its [await]s; [Loop.start] and the
    continuations of [Loop] are the same code cut at the [await]s. *)
Record StartEnv : Type := {
  token_now : Z;
  token_net : fetch_result TokenResponse;
  gateway_now : Z;
  gateway_token_net : fetch_result TokenResponse;
  gateway_net : fetch_result GatewayResponse;
  quota_now : Z;
  toLocaleString : Z → string;
  socket_throws : option js_error;
}.

(** The [catch] block of [start]. *)
Definition start_failed (e : js_error) : action :=
  emit (OnError e) ;;
  scheduleReconnect.

(** [setupWebSocketHandlers] registers the handlers of the socket; they
    are [on_close], [on_error] and [handlePayload] below, run by [handle]. *)
Definition setupWebSocketHandlers : action := skip.

Definition open_socket (env : StartEnv) (wsUrl : string) : action :=
  match socket_throws env with
  | Some e => start_failed e
  | None =>
    emit (NewWebSocket wsUrl) ;;
    update (set_ws (Some {| ws_url := wsUrl; readyState := CONNECTING |})) ;;
    setupWebSocketHandlers
  end.

Definition start (env : StartEnv) : action :=
  reading (λ w, reconnectAttempts (self w)) (λ n,
    when bool_decide (n = 0) then update (set_isFatalError false)) ;;
  reading apiClient (λ c,
    let call := getAccessToken c false (token_now env) (token_net env) in
    emit_all (TokenRequested <$> requests call) ;;
    set_client (client_after call) ;;
    match outcome call with
    | Thrown e => start_failed e
    | Returned token =>
      set_cached (Some token) ;;
      let '(c', gateway, reqs) :=
        getGateway (client_after call) (gateway_now env)
                   (gateway_token_net env) (gateway_net env) in
      emit_all (TokenRequested <$> reqs) ;;
      set_client c' ;;
      match gateway with
      | Thrown e => start_failed e
      | Returned gateway =>
        let wsUrl := url gateway in
        match session_start_limit gateway with
        | Some limit =>
          if (remaining limit =? 0)%Z then
            let resetTime :=
              toLocaleString env (quota_now env + reset_after limit)%Z in
            update (set_isFatalError true) ;;
            emit (OnError (Error ("Session quota exhausted, resets at "
                                  +:+ resetTime)))
          else open_socket env wsUrl
        | None => open_socket env wsUrl
        end
      end
    end).

Definition stop : action :=
  update (set_isClosing true) ;;
  stopHeartbeat ;;
  reading (λ w, ws (self w)) (λ sock,
    match sock with
    | Some _ => emit WsClose ;; update (set_ws None)
    | None => skip
    end) ;;
  update (set_sessionId None) ;;
  update (set_lastSequence None) ;;
  update (set_reconnectAttempts 0).

(** What one run of [reconnect] gets from the outside.  As for [start],
    [reconnect] below is the run with nothing in between; what a handler
    does that runs while [reconnect] waits for the token is in [Loop]. *)
Record ReconnectEnv : Type := {
  refresh_now : Z;
  refresh_net : fetch_result TokenResponse;
  restart : StartEnv;
}.

Definition reconnect (env : ReconnectEnv) : action :=
  stopHeartbeat ;;
  reading (λ w, ws (self w)) (λ sock,
    match sock with
    | Some _ => emit WsClose ;; update (set_ws None)
    | None => skip
    end) ;;
  reading apiClient (λ c,
    let call := getAccessToken c true (refresh_now env) (refresh_net env) in
    emit_all (TokenRequested <$> requests call) ;;
    set_client (client_after call) ;;
    match outcome call with
    | Returned token => set_cached (Some token)
    | Thrown _ => skip
    end) ;;
  start (restart env).

(** The body of the [setTimeout] callback of [scheduleReconnect]. *)
Definition reconnect_timer_fired (env : ReconnectEnv) : action :=
  reading self (λ r,
    when negb (isClosing r) && negb (isFatalError r) then reconnect env).

(** The body of the [setTimeout] callback set on InvalidSession. *)
Definition invalid_session_timer_fired : action :=
  reading self (λ r,
    when negb (isClosing r) && negb (isFatalError r) then scheduleReconnect).

(** The body of the [setInterval] callback of [startHeartbeat]. *)
Definition heartbeat_tick : action :=
  reading (λ w, lastSequence (self w)) (λ seq, send (Heartbeat seq)).

Definition handlePayload (env : ReconnectEnv) (payload : WSPayload) : action :=
  match s payload with
  | Some n => update (set_lastSequence (Some n))
  | None => skip
  end ;;
  match body payload with
  | Hello heartbeat_interval => handleHello heartbeat_interval
  | Dispatch ev => handleDispatch ev
  | HeartbeatAck => skip
  | Reconnect => reconnect env
  | InvalidSession =>
    update (set_sessionId None) ;;
    emit (SetTimeout InvalidSessionTimer 1000)
  | UnknownOp _ => skip
  end.

(** The ['close'] handler set up by [setupWebSocketHandlers]. *)
Definition on_close (code : Z) (reason : string) : action :=
  stopHeartbeat ;;
  update (set_lastCloseCode (Some code)) ;;
  if bool_decide (code ∈ FATAL_CLOSE_CODES) then
    update (set_isFatalError true) ;;
    emit (OnError (Error ("Fatal WebSocket error: " +:+ pretty code
                          +:+ " " +:+ reason)))
  else
    reading self (λ r,
      when negb (isClosing r) && negb (isFatalError r) then scheduleReconnect).

(** The ['error'] handler. *)
Definition on_error (e : js_error) : action := emit (OnError e).

(** The socket library moves [readyState] before it raises an event.
    Here the event is one of the socket in [this.ws]; the events of a
    socket the transport has let go are in [Loop]. *)
Definition socket_state (st : ReadyState) : action :=
  reading (λ w, ws (self w)) (λ sock,
    match sock with
    | Some sock =>
      update (set_ws (Some {| ws_url := ws_url sock; readyState := st |}))
    | None => skip
    end).

(** Everything that can make the transport run, as long as the socket
    events are those of the socket in [this.ws] and every call of [start]
    and [reconnect] has its answers before the next event. *)
Inductive event : Type :=
  | Start (env : StartEnv)
  | Stop
  | SocketOpen
  | SocketMessage (payload : WSPayload) (env : ReconnectEnv)
  | SocketClose (code : Z) (reason : string)
  | SocketError (e : js_error)
  | ReconnectTimerFired (env : ReconnectEnv)
  | InvalidSessionTimerFired
  | HeartbeatTick.

Definition handle (ev : event) : action :=
  match ev with
  | Start env => start env
  | Stop => stop
  | SocketOpen => socket_state OPEN
  | SocketMessage payload env => handlePayload env payload
  | SocketClose code reason => socket_state CLOSED ;; on_close code reason
  | SocketError e => on_error e
  | ReconnectTimerFired env => reconnect_timer_fired env
  | InvalidSessionTimerFired => invalid_session_timer_fired
  | HeartbeatTick => heartbeat_tick
  end.

Fixpoint run (evs : list event) : action :=
  match evs with
  | [] => skip
  | ev :: rest => handle ev ;; run rest
  end.

End Runtime.

(** ** The older socket transport ([src/runtime.ts])

    It has no fatal-code set and no quota check; where it differs from
    [Runtime] in reconnect handling it is modelled here. *)

Module Legacy.
Import Client Wire.

Definition maxReconnectAttempts : nat := 5.
Definition reconnectDelay : Z := 5000.

Record QQChannelRuntime : Type := {
  ws : option WebSocket;
  heartbeatInterval : option Z;
  lastSequence : option Z;
  sessionId : option string;
  reconnectAttempts : nat;
  isClosing : bool;
}.

Record world : Type := {
  cachedAccessToken : option string;
  apiClient : QQApiClient;
  self : QQChannelRuntime;
}.

Definition action : Type := Wire.action world.

Definition update (f : QQChannelRuntime → QQChannelRuntime) : action :=
  λ w, ({| cachedAccessToken := cachedAccessToken w;
           apiClient := apiClient w; self := f (self w) |}, []).

Definition set_cached (t : option string) : action :=
  λ w, ({| cachedAccessToken := t; apiClient := apiClient w;
           self := self w |}, []).

Definition set_client (c : QQApiClient) : action :=
  λ w, ({| cachedAccessToken := cachedAccessToken w; apiClient := c;
           self := self w |}, []).

Definition set_ws (v : option WebSocket) (r : QQChannelRuntime) :=
  {| ws := v; heartbeatInterval := heartbeatInterval r;
     lastSequence := lastSequence r; sessionId := sessionId r;
     reconnectAttempts := reconnectAttempts r; isClosing := isClosing r |}.
Definition set_heartbeatInterval (v : option Z) (r : QQChannelRuntime) :=
  {| ws := ws r; heartbeatInterval := v;
     lastSequence := lastSequence r; sessionId := sessionId r;
     reconnectAttempts := reconnectAttempts r; isClosing := isClosing r |}.
Definition set_reconnectAttempts (v : nat) (r : QQChannelRuntime) :=
  {| ws := ws r; heartbeatInterval := heartbeatInterval r;
     lastSequence := lastSequence r; sessionId := sessionId r;
     reconnectAttempts := v; isClosing := isClosing r |}.

Local Open Scope action_scope.

Definition stopHeartbeat : action :=
  reading (λ w, heartbeatInterval (self w)) (λ h,
    match h with
    | Some _ => emit ClearInterval ;; update (set_heartbeatInterval None)
    | None => skip
    end).

Definition scheduleReconnect : action :=
  reading self (λ r,
    if isClosing r then skip
    else if bool_decide (maxReconnectAttempts ≤ reconnectAttempts r) then
      emit (OnError (Error "Max reconnect attempts reached"))
    else
      let attempts := S (reconnectAttempts r) in
      let delay := (reconnectDelay * Z.of_nat attempts)%Z in
      update (set_reconnectAttempts attempts) ;;
      emit (SetTimeout ReconnectTimer delay)).

(** What one run of the older [start] gets from the outside. *)
Record StartEnv : Type := {
  token_now : Z;
  token_net : fetch_result TokenResponse;
  gateway_now : Z;
  gateway_token_net : fetch_result TokenResponse;
  gateway_net : fetch_result GatewayResponse;
  socket_throws : option js_error;
}.

Definition start_failed (e : js_error) : action :=
  emit (OnError e) ;;
  scheduleReconnect.

Definition start (env : StartEnv) : action :=
  reading apiClient (λ c,
    let call := getAccessToken c false (token_now env) (token_net env) in
    emit_all (TokenRequested <$> requests call) ;;
    set_client (client_after call) ;;
    match outcome call with
    | Thrown e => start_failed e
    | Returned token =>
      set_cached (Some token) ;;
      let '(c', gateway, reqs) :=
        getGateway (client_after call) (gateway_now env)
                   (gateway_token_net env) (gateway_net env) in
      emit_all (TokenRequested <$> reqs) ;;
      set_client c' ;;
      match gateway with
      | Thrown e => start_failed e
      | Returned gateway =>
        match socket_throws env with
        | Some e => start_failed e
        | None =>
          emit (NewWebSocket (url gateway)) ;;
          update (set_ws (Some {| ws_url := url gateway;
                                  readyState := CONNECTING |}))
        end
      end
    end).

(** The ['close'] handler. *)
Definition on_close (code : Z) (reason : string) : action :=
  stopHeartbeat ;;
  reading self (λ r, when negb (isClosing r) then scheduleReconnect).

End Legacy.

(** ** Several accounts in one process ([src/channel.ts]) *)

Module Process.
Import Client Wire.

(** [QQChannelAccount] *)
Record QQChannelAccount : Type := {
  acc_appId : string;
  acc_appSecret : string;
  acc_botToken : string;
  acc_sandbox : bool;
}.

(** The module-level variables: [cachedAccessToken] of the transport
    module, and the two maps of [channel.ts].  A transport and the entry
    of [apiClients] for its account are one and the same client object.
    A transport that its stop handler has taken out of [activeRuntimes] is
    not followed any further. *)
Record process : Type := {
  cachedAccessToken : option string;
  apiClients : gmap string QQApiClient;
  activeRuntimes : gmap string Runtime.QQChannelRuntime;
}.

Definition boot : process :=
  {| cachedAccessToken := None; apiClients := ∅; activeRuntimes := ∅ |}.

(** An effect, with the account whose transport caused it. *)
Definition trace : Type := list (string * effect).

(** Run a handler of the transport of account [id]. *)
Definition on_account (id : string) (a : Runtime.action)
  : process → process * trace :=
  λ p,
    match activeRuntimes p !! id, apiClients p !! id with
    | Some r, Some c =>
      let '(w, es) :=
        a {| Runtime.cachedAccessToken := cachedAccessToken p;
             Runtime.apiClient := c; Runtime.self := r |} in
      ({| cachedAccessToken := Runtime.cachedAccessToken w;
          apiClients := <[id := Runtime.apiClient w]> (apiClients p);
          activeRuntimes := <[id := Runtime.self w]> (activeRuntimes p) |},
       (λ e, (id, e)) <$> es)
    | _, _ => (p, [])
    end.

(** [getOrCreateApiClient] *)
Definition getOrCreateApiClient (id : string) (config : QQChannelAccount)
    (clients : gmap string QQApiClient)
  : QQApiClient * gmap string QQApiClient :=
  match clients !! id with
  | Some c => (c, clients)
  | None =>
    let c := new_client (acc_appId config) (acc_appSecret config)
                        (acc_sandbox config) in
    (c, <[id := c]> clients)
  end.

(** [gateway.startAccount]; [account] is what [resolveQQAccount] found.
    The result tells whether a stop handler was returned. *)
Definition startAccount (id : string) (account : option QQChannelAccount)
    (env : Runtime.StartEnv) : process → process * trace * result bool :=
  λ p,
    match activeRuntimes p !! id with
    | Some _ => (p, [], Returned false)
    | None =>
      match account with
      | None =>
        (p, [], Thrown (Error ("Account " +:+ id +:+ " not configured")))
      | Some account =>
        let '(_, clients) := getOrCreateApiClient id account (apiClients p) in
        let p1 := {| cachedAccessToken := cachedAccessToken p;
                     apiClients := clients;
                     activeRuntimes :=
                       <[id := Runtime.new_runtime]> (activeRuntimes p) |} in
        let '(p2, tr) := on_account id (Runtime.start env) p1 in
        (p2, tr, Returned true)
      end
    end.

(** The stop handler returned by [startAccount]. *)
Definition stopAccount (id : string) : process → process * trace :=
  λ p,
    match activeRuntimes p !! id with
    | Some _ =>
      let '(p1, tr) := on_account id Runtime.stop p in
      ({| cachedAccessToken := cachedAccessToken p1;
          apiClients := delete id (apiClients p1);
          activeRuntimes := delete id (activeRuntimes p1) |}, tr)
    | None => (p, [])
    end.

(** [outbound.sendText] and [outbound.sendMedia]: the client of the
    account is looked up, or made and put into [apiClients], and the message
    is posted with it; [account] is what [resolveQQAccount] found.  The
    trace holds the requests made to the issuance endpoint on the way. *)
Definition sendText (id : string) (account : option QQChannelAccount)
    (now : Z) (token_net : fetch_result TokenResponse)
    (api_net : fetch_result SendMessageResponse)
  : process → process * trace * result SendMessageResponse :=
  λ p,
    match account with
    | None =>
      (p, [], Thrown (Error ("Account " +:+ id +:+ " not configured")))
    | Some account =>
      let '(c, clients) := getOrCreateApiClient id account (apiClients p) in
      let '(c', response, reqs) := request c now token_net api_net in
      ({| cachedAccessToken := cachedAccessToken p;
          apiClients := <[id := c']> clients;
          activeRuntimes := activeRuntimes p |},
       (λ r, (id, TokenRequested r)) <$> reqs, response)
    end.

Inductive event : Type :=
  | StartAccount (id : string) (account : option QQChannelAccount)
                 (env : Runtime.StartEnv)
  | StopAccount (id : string)
  | Transport (id : string) (ev : Runtime.event)
  | Outbound (id : string) (account : option QQChannelAccount)
             (now : Z) (token_net : fetch_result TokenResponse)
             (api_net : fetch_result SendMessageResponse).

Definition handle (ev : event) : process → process * trace :=
  match ev with
  | StartAccount id account env => λ p, (startAccount id account env p).1
  | StopAccount id => stopAccount id
  | Transport id ev => on_account id (Runtime.handle ev)
  | Outbound id account now token_net api_net =>
    λ p, (sendText id account now token_net api_net p).1
  end.

Fixpoint run (evs : list event) (p : process) : process * trace :=
  match evs with
  | [] => (p, [])
  | ev :: rest =>
    let '(p1, t1) := handle ev p in
    let '(p2, t2) := run rest p1 in
    (p2, t1 ++ t2)
  end.

(** The tokens of the Identify frames sent by the transport of [id]. *)
Definition identify_tokens (id : string) (tr : trace) : list string :=
  omap (λ '(who, e),
          match e with
          | WsSend (Identify token _ _) =>
            if String.eqb who id then Some token else None
          | _ => None
          end) tr.

End Process.

(** ** What is observed of a run of the transport *)

Module Observe.
Import Wire Runtime.

Definition is_on_error (e : effect) : bool :=
  match e with
  | OnError _ => true
  | _ => false
  end.

(** The two ways of trying again: a timer is set, or a socket is dialled. *)
Definition is_retry (e : effect) : bool :=
  match e with
  | SetTimeout _ _ | NewWebSocket _ => true
  | _ => false
  end.

Definition quiet (es : list effect) : Prop :=
  Forall (λ e, is_retry e = false) es.

(** The order on [lastSequence]: [null] is below every number. *)
Definition seq_le (a b : option Z) : Prop :=
  match a, b with
  | None, _ => True
  | Some _, None => False
  | Some x, Some y => (x ≤ y)%Z
  end.

(** The sequence number of the last frame that carries one, or [init]. *)
Definition last_seq (init : option Z) (frames : list WSPayload) : option Z :=
  foldl (λ acc payload,
           match s payload with
           | Some n => Some n
           | None => acc
           end) init frames.

(** The delay the specification gives for the [n]-th reconnect. *)
Definition backoff (n : nat) : Z :=
  Z.min (5000 * 2 ^ (Z.of_nat n - 1)) 300000.

(** An action that leaves the part [f] of the transport's fields as it
    was. *)
Definition keeps {A} (f : QQChannelRuntime → A) (a : action) : Prop :=
  ∀ w, f (self (a w).1) = f (self w).

(** The state with the attempt counter set to [n]. *)
Definition with_attempts (n : nat) (w : world) : world :=
  (update (set_reconnectAttempts n) w).1.

End Observe.

(** ** Concrete inputs used to exercise the model *)

Module Samples.
Import Signature Server Client Wire.

(** The issuance endpoint answers with token [t], valid for two hours. *)
Definition issued (t : string) : fetch_result TokenResponse :=
  HttpOk {| access_token := t; expires_in := 7200 |}.

(** The discovery endpoint answers with [left] session starts left. *)
Definition gateway (left : Z) : fetch_result GatewayResponse :=
  HttpOk {| url := "wss://api.sgroup.qq.com/websocket"; shards := 1;
            session_start_limit :=
              Some {| total := 1000; remaining := left;
                      reset_after := 60000; max_concurrency := 1 |} |}.

(** A run of [start] that is issued token [t] and sees [left] starts
    left. *)
Definition start_env (t : string) (left : Z) : Runtime.StartEnv :=
  {| Runtime.token_now := 1000; Runtime.token_net := issued t;
     Runtime.gateway_now := 1001; Runtime.gateway_token_net := issued t;
     Runtime.gateway_net := gateway left; Runtime.quota_now := 1002;
     Runtime.toLocaleString := pretty; Runtime.socket_throws := None |}.

Definition reconnect_env (t : string) : Runtime.ReconnectEnv :=
  {| Runtime.refresh_now := 2000; Runtime.refresh_net := issued t;
     Runtime.restart := start_env t 100 |}.

(** A client that has not fetched any token yet. *)
Definition cold_client : QQApiClient := new_client "102824573" "secret" false.

(** A client whose token is valid for another hour. *)
Definition fresh_client : QQApiClient :=
  {| appId := "102824573"; appSecret := "secret";
     baseUrl := PRODUCTION_API_BASE;
     accessToken := Some "token-1"; tokenExpiresAt := 3600000 |}.

(** A transport that has just been constructed. *)
Definition cold_world : Runtime.world :=
  {| Runtime.cachedAccessToken := None; Runtime.apiClient := cold_client;
     Runtime.self := Runtime.new_runtime |}.

(** A frame with sequence number [n] and nothing to do. *)
Definition ack (n : Z) : WSPayload := {| body := HeartbeatAck; s := Some n |}.

(** Two accounts of one process. *)
Definition account (id : string) : option Process.QQChannelAccount :=
  Some {| Process.acc_appId := id; Process.acc_appSecret := "secret";
          Process.acc_botToken := "bot"; Process.acc_sandbox := false |}.

(** Account A starts and its socket opens; account B starts and is issued
    [tokenB]; then the Hello frame of A arrives. *)
Definition two_accounts (tokenB : string) : list Process.event :=
  [Process.StartAccount "A" (account "1") (start_env "tokenA" 100);
   Process.Transport "A" Runtime.SocketOpen;
   Process.StartAccount "B" (account "2") (start_env tokenB 100);
   Process.Transport "A"
     (Runtime.SocketMessage {| body := Hello 41250; s := None |}
                            (reconnect_env "tokenA"))].

(** An Ed25519 library whose every call throws. *)
Definition rejecting_ed25519 : Ed25519 :=
  {| ed_getPublicKey := λ _, Thrown (Error "rejected");
     ed_sign := λ _ _, Thrown (Error "rejected");
     ed_verify := λ _ _ _, Thrown (Error "rejected") |}.

(** The code units of the body [{op:13}] written as JSON. *)
Definition bare_validation_body : js_string :=
  [123; 34; 111; 112; 34; 58; 49; 51; 125]%Z.

(** A parser that knows this one body. *)
Definition bare_validation_host : Host :=
  {| json_parse := λ b,
       if decide (b = bare_validation_body)
       then Some (VObj [("op", VNum 13)]) else None;
     encode_sum := λ _ _, [] |}.

End Samples.

(** ** Timers and frames seen in a run of the transport *)

Module Watch.
Import Client Wire Runtime.

(** What an effect does to the number of heartbeat intervals that are
    running: [setInterval] starts one, [clearInterval] stops the one it is
    given. *)
Definition interval_step (n : nat) (e : effect) : nat :=
  match e with
  | SetInterval _ => S n
  | ClearInterval => pred n
  | _ => n
  end.

(** The number of intervals running after the effects [es], when [n] were
    running before. *)
Definition live_intervals (n : nat) (es : list effect) : nat :=
  foldl interval_step n es.

(** The largest number of intervals running at any moment of [es]. *)
Fixpoint peak_intervals (n : nat) (es : list effect) : nat :=
  match es with
  | [] => n
  | e :: rest => Nat.max n (peak_intervals (interval_step n e) rest)
  end.

(** The number of intervals the transport holds a handle of. *)
Definition held_intervals (w : world) : nat :=
  match heartbeatInterval (self w) with
  | Some _ => 1
  | None => 0
  end.

Definition is_reconnect_timer (e : effect) : bool :=
  match e with
  | SetTimeout ReconnectTimer _ => true
  | _ => false
  end.

Definition is_send (e : effect) : bool :=
  match e with
  | WsSend _ => true
  | _ => false
  end.

Definition is_dial (e : effect) : bool :=
  match e with
  | NewWebSocket _ => true
  | _ => false
  end.

Definition is_close (e : effect) : bool :=
  match e with
  | WsClose => true
  | _ => false
  end.

(** The requests made to the issuance endpoint. *)
Definition token_requests (es : list effect) : list TokenRequest :=
  omap (λ e, match e with
             | TokenRequested r => Some r
             | _ => None
             end) es.

(** The ['open'] event of the socket. *)
Definition is_open_event (ev : event) : bool :=
  match ev with
  | SocketOpen => true
  | _ => false
  end.

(** The socket in [this.ws] is open. *)
Definition socket_open (w : world) : bool :=
  match ws (self w) with
  | Some sock =>
    match readyState sock with
    | OPEN => true
    | _ => false
    end
  | None => false
  end.

(** An action that keeps the property [I] of the state once it holds, and
    then has only effects with [Q]. *)
Definition steady (I : world → Prop) (Q : effect → Prop) (a : action) : Prop :=
  ∀ w, I w → I (a w).1 ∧ Forall Q (a w).2.

(** An action that accounts for the intervals it starts and stops, and
    never has two running. *)
Definition tracks (a : action) : Prop :=
  ∀ w, live_intervals (held_intervals w) (a w).2 = held_intervals (a w).1
       ∧ peak_intervals (held_intervals w) (a w).2 ≤ 1.

(** The token variable and the client are [t] and [c]. *)
Definition holds_token (t : option string) (c : QQApiClient) (w : world) : Prop :=
  cachedAccessToken w = t ∧ apiClient w = c.

Definition is_token_request (e : effect) : bool :=
  match e with
  | TokenRequested _ => true
  | _ => false
  end.

(** The transport is stopping. *)
Definition closing (w : world) : Prop := isClosing (self w) = true.

(** The socket in [this.ws] is not open. *)
Definition not_open (w : world) : Prop := socket_open w = false.

End Watch.

(** ** The transport between its awaits

    [start] and [reconnect] are [async]: each runs up to an [await], gives
    the thread back, and goes on when the awaited call has its answer.  In
    between, the handlers of any socket, the timers and calls of [start]
    and [stop] can run.  [Runtime.start] and [Runtime.reconnect] are the
    runs in which nothing does; here every [await] is a place where the
    call is suspended and any other event can be handled.  Two awaits in a
    row on one network call ([fetch], then the body of the response) are
    one, no statement of the transport standing between them.

    The transport numbers the sockets it makes; [this.ws], when it holds a
    socket, holds the last one made.  The handlers that
    [setupWebSocketHandlers] sets on a socket stay on it after the
    transport has let it go: they act on the fields of the transport
    whichever socket raises the event, and only the ready state is the
    socket's own. *)

Module Loop.
Import Client Wire Runtime Observe.
Local Open Scope action_scope.

(** Where a suspended call goes on. *)
Inductive continuation : Type :=
  (** [reconnect], at [await this.config.apiClient.getAccessToken(true)];
      [now] is the clock the call of [getAccessToken] read *)
  | AfterRefresh (now : Z)
  (** [start], at [await this.config.apiClient.getAccessToken()] *)
  | AfterToken (step : token_step) (now : Z)
  (** [request] called by [getGateway], at [await this.getAccessToken()] *)
  | AfterGatewayToken (step : token_step) (now : Z)
  (** [request] called by [getGateway], at [await fetch(...)] *)
  | AfterGateway.

Record world : Type := {
  transport : Runtime.world;
  (** the number of sockets made so far *)
  sockets : nat;
  (** the calls of [start] and [reconnect] that wait at an [await] *)
  suspended : list continuation;
}.

Definition action : Type := Wire.action world.

(** A piece of the transport's code that runs without giving the thread
    back; the sockets it makes are counted. *)
Definition run_transport (a : Runtime.action) : action :=
  λ w, let '(t, es) := a (transport w) in
       ({| transport := t;
           sockets := sockets w + length (filter Watch.is_dial es);
           suspended := suspended w |}, es).

Definition suspend (k : continuation) : action :=
  λ w, ({| transport := transport w; sockets := sockets w;
           suspended := suspended w ++ [k] |}, []).

Definition take_up (i : nat) : action :=
  λ w, ({| transport := transport w; sockets := sockets w;
           suspended := delete i (suspended w) |}, []).

(** A call of [getAccessToken(forceRefresh)] up to its [await], or to
    its [return] from the cache; the caller waits for it in either case.
    After a return from the cache the caller goes on before any timer or
    socket event is handled; here other events may come first, so the runs
    of [Loop] are those of the code and some more, and what holds of all of
    them holds of the code. *)
Definition call_getAccessToken (forceRefresh : bool) (now : Z)
    (k : token_step → continuation) : action :=
  reading (λ w, apiClient (transport w)) (λ c,
    let step := getAccessToken_begin c forceRefresh now in
    match step with
    | Awaiting request => emit (TokenRequested request)
    | Cached _ => skip
    end ;;
    suspend (k step)).

(** What the call of [getAccessToken] comes to when the caller goes on:
    the token it took from the cache, or the rest of the call on the
    client as it is by then. *)
Definition token_result (step : token_step) (now : Z)
    (r : fetch_result TokenResponse) (c : QQApiClient)
  : QQApiClient * result string :=
  match step with
  | Cached token => (c, Returned token)
  | Awaiting _ => getAccessToken_resume c now r
  end.

(** The result of [request] once the token is there. *)
Definition api_result {T : Type} (r : fetch_result T) : result T :=
  match r with
  | FetchRejected e => Thrown e
  | HttpNotOk status text =>
    Thrown (Error ("API request failed: " +:+ pretty status +:+ " " +:+ text))
  | HttpBodyRejected e => Thrown e
  | HttpOk data => Returned data
  end.

(** The head of [start]. *)
Definition enter_start : Runtime.action :=
  reading (λ w, reconnectAttempts (self w)) (λ n,
    when bool_decide (n = 0) then update (set_isFatalError false)).

(** [start] up to its first [await]. *)
Definition start (now : Z) : action :=
  run_transport enter_start ;;
  call_getAccessToken false now (λ step, AfterToken step now).

(** [start] from the token to the [await] inside [getGateway]. *)
Definition after_token (step : token_step) (now : Z)
    (r : fetch_result TokenResponse) (now' : Z) : action :=
  reading (λ w, apiClient (transport w)) (λ c,
    let '(c', token) := token_result step now r c in
    run_transport (set_client c') ;;
    match token with
    | Thrown e => run_transport (start_failed e)
    | Returned token =>
      run_transport (set_cached (Some token)) ;;
      call_getAccessToken false now' (λ step, AfterGatewayToken step now')
    end).

(** [request] from its token to its [fetch]. *)
Definition after_gateway_token (step : token_step) (now : Z)
    (r : fetch_result TokenResponse) : action :=
  reading (λ w, apiClient (transport w)) (λ c,
    let '(c', token) := token_result step now r c in
    run_transport (set_client c') ;;
    match token with
    | Thrown e => run_transport (start_failed e)
    | Returned _ => suspend AfterGateway
    end).

Definition open_socket (socket_throws : option js_error) (wsUrl : string)
  : Runtime.action :=
  match socket_throws with
  | Some e => start_failed e
  | None =>
    emit (NewWebSocket wsUrl) ;;
    update (set_ws (Some {| ws_url := wsUrl; readyState := CONNECTING |})) ;;
    setupWebSocketHandlers
  end.

(** [start] from the answer of the gateway to its end; [now] is the clock
    read for the reset time, and [socket_throws] tells whether
    [new WebSocket] throws. *)
Definition after_gateway (r : fetch_result GatewayResponse) (now : Z)
    (toLocaleString : Z → string) (socket_throws : option js_error) : action :=
  match api_result r with
  | Thrown e => run_transport (start_failed e)
  | Returned gateway =>
    let wsUrl := url gateway in
    match session_start_limit gateway with
    | Some limit =>
      if (remaining limit =? 0)%Z then
        let resetTime := toLocaleString (now + reset_after limit)%Z in
        run_transport
          (update (set_isFatalError true) ;;
           emit (OnError (Error ("Session quota exhausted, resets at "
                                 +:+ resetTime))))
      else run_transport (open_socket socket_throws wsUrl)
    | None => run_transport (open_socket socket_throws wsUrl)
    end
  end.

(** [if (this.ws) { this.ws.close(); this.ws = null; }] *)
Definition close_socket : Runtime.action :=
  reading (λ w, ws (self w)) (λ sock,
    match sock with
    | Some _ => emit WsClose ;; update (set_ws None)
    | None => skip
    end).

(** [reconnect] up to its [await]. *)
Definition reconnect (now : Z) : action :=
  run_transport stopHeartbeat ;;
  run_transport close_socket ;;
  call_getAccessToken true now (λ _, AfterRefresh now).

(** [reconnect] from the answer on: the token is kept if there is one,
    the error is logged if not, and [start] is called. *)
Definition after_refresh (now : Z) (r : fetch_result TokenResponse)
    (now' : Z) : action :=
  reading (λ w, apiClient (transport w)) (λ c,
    let '(c', token) := getAccessToken_resume c now r in
    run_transport (set_client c') ;;
    match token with
    | Returned token => run_transport (set_cached (Some token))
    | Thrown _ => skip
    end) ;;
  start now'.

Definition handlePayload (now : Z) (payload : WSPayload) : action :=
  run_transport
    match s payload with
    | Some n => update (set_lastSequence (Some n))
    | None => skip
    end ;;
  match body payload with
  | Hello heartbeat_interval => run_transport (handleHello heartbeat_interval)
  | Dispatch ev => run_transport (handleDispatch ev)
  | HeartbeatAck => skip
  | Reconnect => reconnect now
  | InvalidSession =>
    run_transport (update (set_sessionId None) ;;
                   emit (SetTimeout InvalidSessionTimer 1000))
  | UnknownOp _ => skip
  end.

(** The socket library moves the ready state of the socket that raises
    an event; the transport reads it only of the socket in [this.ws]. *)
Definition socket_event (sock : nat) (st : ReadyState) : action :=
  reading sockets (λ last,
    when bool_decide (sock = last) then run_transport (socket_state st)).

(** What comes back for a suspended call. *)
Inductive answer : Type :=
  | TokenAnswer (r : fetch_result TokenResponse)
  | GatewayAnswer (r : fetch_result GatewayResponse)
                  (toLocaleString : Z → string)
                  (socket_throws : option js_error).

(** The suspended call [i] goes on with the answer [a]; an answer that is
    not the kind the call waits for does not come. *)
Definition go_on (i : nat) (a : answer) (now : Z) : action :=
  reading (λ w, suspended w !! i) (λ k,
    match k, a with
    | Some (AfterRefresh begun), TokenAnswer r =>
      take_up i ;; after_refresh begun r now
    | Some (AfterToken step begun), TokenAnswer r =>
      take_up i ;; after_token step begun r now
    | Some (AfterGatewayToken step begun), TokenAnswer r =>
      take_up i ;; after_gateway_token step begun r
    | Some AfterGateway, GatewayAnswer r toLocaleString socket_throws =>
      take_up i ;; after_gateway r now toLocaleString socket_throws
    | _, _ => skip
    end).

(** Everything that can make the transport run; [now] is the clock a
    handler reads, [sock] the number of the socket that raises an event. *)
Inductive event : Type :=
  | Start (now : Z)
  | Stop
  | SocketOpen (sock : nat)
  | SocketMessage (sock : nat) (payload : WSPayload) (now : Z)
  | SocketClose (sock : nat) (code : Z) (reason : string)
  | SocketError (sock : nat) (e : js_error)
  | ReconnectTimerFired (now : Z)
  | InvalidSessionTimerFired
  | HeartbeatTick
  | Answered (i : nat) (a : answer) (now : Z).

Definition handle (ev : event) : action :=
  match ev with
  | Start now => start now
  | Stop => run_transport stop
  | SocketOpen sock => socket_event sock OPEN
  | SocketMessage sock payload now => handlePayload now payload
  | SocketClose sock code reason =>
    socket_event sock CLOSED ;; run_transport (on_close code reason)
  | SocketError sock e => run_transport (on_error e)
  | ReconnectTimerFired now =>
    reading (λ w, self (transport w)) (λ r,
      when negb (isClosing r) && negb (isFatalError r) then reconnect now)
  | InvalidSessionTimerFired => run_transport invalid_session_timer_fired
  | HeartbeatTick => run_transport heartbeat_tick
  | Answered i a now => go_on i a now
  end.

Fixpoint run (evs : list event) : action :=
  match evs with
  | [] => skip
  | ev :: rest => handle ev ;; run rest
  end.

(** [new QQChannelRuntime(config)] with the client [c]. *)
Definition fresh (c : QQApiClient) : world :=
  {| transport := {| cachedAccessToken := None; apiClient := c;
                     self := new_runtime |};
     sockets := 0; suspended := [] |}.

(** Events that come by themselves: timers that were set, answers to
    suspended calls, and the open, close and error events of any socket.
    What is left out is what asks for a connection: a call of [start], a
    call of [stop], and a frame. *)
Definition unattended (ev : event) : bool :=
  match ev with
  | Start _ | Stop | SocketMessage _ _ _ => false
  | _ => true
  end.

(** The turns of one call of [start] with nothing in between, on the
    clock values and answers of [env]. *)
Definition uninterrupted_start (env : StartEnv) : list event :=
  [Start (token_now env);
   Answered 0 (TokenAnswer (token_net env)) (gateway_now env);
   Answered 0 (TokenAnswer (gateway_token_net env)) (gateway_now env);
   Answered 0 (GatewayAnswer (gateway_net env) (toLocaleString env)
                             (socket_throws env)) (quota_now env)].

(** The turns of one call of [reconnect] with nothing in between. *)
Definition uninterrupted_reconnect (env : ReconnectEnv) : list event :=
  [ReconnectTimerFired (refresh_now env);
   Answered 0 (TokenAnswer (refresh_net env)) (token_now (restart env));
   Answered 0 (TokenAnswer (token_net (restart env)))
              (gateway_now (restart env));
   Answered 0 (TokenAnswer (gateway_token_net (restart env)))
              (gateway_now (restart env));
   Answered 0 (GatewayAnswer (gateway_net (restart env))
                             (toLocaleString (restart env))
                             (socket_throws (restart env)))
              (quota_now (restart env))].

(** One connection made with nothing in between: [start], its token, the
    token of [getGateway], the gateway. *)
Definition connect (now : Z) (t : string) : list event :=
  [Start now;
   Answered 0 (TokenAnswer (Samples.issued t)) now;
   Answered 0 (TokenAnswer (Samples.issued t)) now;
   Answered 0 (GatewayAnswer (Samples.gateway 100) pretty None) now].

(** A reconnect made with nothing in between, when its timer fires. *)
Definition reconnect_now (now : Z) (t : string) : list event :=
  [ReconnectTimerFired now;
   Answered 0 (TokenAnswer (Samples.issued t)) now;
   Answered 0 (TokenAnswer (Samples.issued t)) now;
   Answered 0 (TokenAnswer (Samples.issued t)) now;
   Answered 0 (GatewayAnswer (Samples.gateway 100) pretty None) now].

(** Five connections in a row that close abnormally before Ready. *)
Definition five_failures : list event :=
  connect 1000 "t"
  ++ concat (imap (λ i now, SocketClose (S i) 1006 "" :: reconnect_now now "t")
                  [2000; 3000; 4000; 5000; 6000]%Z).

(** A connection is open; the server asks for a reconnect; while the
    refresh of the token is awaited, the close of the socket arrives with
    the code 4004. *)
Definition reconnect_then_fatal_close : list event :=
  connect 1000 "t"
  ++ [SocketOpen 1;
      SocketMessage 1 {| body := Reconnect; s := None |} 2000;
      SocketClose 1 4004 "auth"].

(** The refresh is answered, and then the calls [start] waits for. *)
Definition answers_of_restart : list event :=
  [Answered 0 (TokenAnswer (Samples.issued "t2")) 2001;
   Answered 0 (TokenAnswer (Samples.issued "t2")) 2002;
   Answered 0 (TokenAnswer (Samples.issued "t2")) 2003;
   Answered 0 (GatewayAnswer (Samples.gateway 100) pretty None) 2004].

End Loop.

(** ** Stopping the older transport ([src/runtime.ts]) *)

Module LegacyStop.
Import Client Wire Legacy.
Local Open Scope action_scope.

Definition set_isClosing (v : bool) (r : QQChannelRuntime) :=
  {| ws := ws r; heartbeatInterval := heartbeatInterval r;
     lastSequence := lastSequence r; sessionId := sessionId r;
     reconnectAttempts := reconnectAttempts r; isClosing := v |}.
Definition set_sessionId (v : option string) (r : QQChannelRuntime) :=
  {| ws := ws r; heartbeatInterval := heartbeatInterval r;
     lastSequence := lastSequence r; sessionId := v;
     reconnectAttempts := reconnectAttempts r; isClosing := isClosing r |}.
Definition set_lastSequence (v : option Z) (r : QQChannelRuntime) :=
  {| ws := ws r; heartbeatInterval := heartbeatInterval r;
     lastSequence := v; sessionId := sessionId r;
     reconnectAttempts := reconnectAttempts r; isClosing := isClosing r |}.

(** [if (this.ws) { this.ws.close(); this.ws = null; }] *)
Definition close_socket : action :=
  reading (λ w, ws (self w)) (λ sock,
    match sock with
    | Some _ => emit WsClose ;; update (set_ws None)
    | None => skip
    end).

Definition stop : action :=
  update (set_isClosing true) ;;
  stopHeartbeat ;;
  close_socket ;;
  update (set_sessionId None) ;;
  update (set_lastSequence None) ;;
  update (set_reconnectAttempts 0).

Definition reconnect (env : StartEnv) : action :=
  stopHeartbeat ;;
  close_socket ;;
  start env.

(** The body of the [setTimeout] callback of [scheduleReconnect]: it
    does not look at [isClosing]. *)
Definition reconnect_timer_fired (env : StartEnv) : action := reconnect env.

End LegacyStop.

(** ** Accounts of one process *)

Module Accounts.
Import Client Wire Process.

(** The account an event of the process is about. *)
Definition account_of (ev : event) : string :=
  match ev with
  | StartAccount id _ _ => id
  | StopAccount id => id
  | Transport id _ => id
  | Outbound id _ _ _ _ => id
  end.

(** A call of the stop handler of account [id]. *)
Definition is_stop_of (id : string) (ev : event) : bool :=
  match ev with
  | StopAccount id' => String.eqb id id'
  | _ => false
  end.

(** Every transport that runs has its client in [apiClients]. *)
Definition registered (p : process) : Prop :=
  ∀ id, is_Some (activeRuntimes p !! id) → is_Some (apiClients p !! id).

(** The effects of a trace, without the accounts. *)
Definition effects_of (tr : trace) : list effect := snd <$> tr.

End Accounts.

(** ** Replies to a message ([deliver] in [src/channel.ts]) *)

Module Channel.
Import Js Client Wire.

Definition REPLY_DEDUP_WINDOW_MS : Z := 5000.
Definition MAX_MESSAGE_LENGTH : nat := 2000.

(** The code units of the notice appended to a reply that was cut: two
    line feeds, three dots and the bracketed text. *)
Definition truncateMsg : js_string :=
  [10; 10; 46; 46; 46; 40; 0x6D88; 0x606F; 0x8FC7; 0x957F; 0xFF0C; 0x5DF2;
   0x622A; 0x65AD; 41]%Z.

(** The pattern [p] matches at the head of [s]. *)
Fixpoint starts_with (p s : js_string) : bool :=
  match p, s with
  | [], _ => true
  | a :: p', b :: s' => (a =? b)%Z && starts_with p' s'
  | _ :: _, [] => false
  end.

(** [text.replace(/.../g, rep)] for a pattern that matches no empty
    string: [matcher] gives the length of the match at the head of a
    string, if there is one.  Matches are looked for from left to right,
    each search starting where the last match ended; [skip] counts the code
    units of the last match that are still to be passed over. *)
Fixpoint replace_all (matcher : js_string → option nat) (rep : js_string)
    (skip : nat) (s : js_string) : js_string :=
  match s with
  | [] => []
  | c :: rest =>
    match skip with
    | S k => replace_all matcher rep k rest
    | 0 =>
      match matcher s with
      | Some n => rep ++ replace_all matcher rep (n - 1) rest
      | None => c :: replace_all matcher rep 0 rest
      end
    end
  end.

(** A pattern without operators, such as [/clawdhub\.com/]. *)
Definition match_literal (pat : js_string) (s : js_string) : option nat :=
  if starts_with pat s then Some (length pat) else None.

(** The class [[^\s)]]. *)
Definition url_char (c : Z) : bool :=
  negb (Signature.is_white_space c) && negb (c =? 41)%Z.

(** The length of the longest prefix of [s] made of code units with [p]. *)
Fixpoint span_length (p : Z → bool) (s : js_string) : nat :=
  match s with
  | c :: rest => if p c then S (span_length p rest) else 0
  | [] => 0
  end.

(** [/https?:\/\/[^\s)]+/] at the head of [s]: the scheme with or without
    its [s], and then as many code units of the class as there are, at
    least one. *)
Definition match_url (s : js_string) : option nat :=
  let scheme :=
    if starts_with (lit "https://") s then Some 8
    else if starts_with (lit "http://") s then Some 7
    else None in
  match scheme with
  | Some n =>
    match span_length url_char (drop n s) with
    | 0 => None
    | S k => Some (n + S k)
    end
  | None => None
  end.

(** The two replacements made on a reply before it is sent. *)
Definition filter_reply (text : js_string) : js_string :=
  replace_all match_url (lit "[link]") 0
    (replace_all (match_literal (lit "clawdhub.com")) (lit "clawdhub") 0 text).

(** The cut to [MAX_MESSAGE_LENGTH] code units. *)
Definition truncate_reply (replyText : js_string) : js_string :=
  if bool_decide (MAX_MESSAGE_LENGTH < length replyText) then
    take (MAX_MESSAGE_LENGTH - length truncateMsg) replyText ++ truncateMsg
  else replyText.

(** An entry of [recentReplies]. *)
Record recent_reply : Type := {
  reply_text : js_string;
  reply_timestamp : Z;
}.

(** A call of [client.sendDirectMessage] ([direct]) or
    [client.sendChannelMessage] with its target and the two fields of the
    message. *)
Record send_call : Type := {
  direct : bool;
  target : string;
  call_content : js_string;
  call_msg_id : string;
}.

(** The map [recentReplies] of the module and the client of the account. *)
Record channel_state : Type := {
  recentReplies : gmap string recent_reply;
  client : QQApiClient;
}.

(** What one run of [deliver] gets from the outside. *)
Record deliver_env : Type := {
  date_now : Z;
  request_now : Z;
  token_net : fetch_result TokenResponse;
  api_net : fetch_result SendMessageResponse;
}.

Record delivered : Type := {
  state_after : channel_state;
  calls : list send_call;
  token_requests : list TokenRequest;
  completion_of : result unit;
}.

(** The entry of [recentReplies] suppresses the reply [replyText] at
    [now]. *)
Definition is_duplicate (lastReply : option recent_reply)
    (replyText : js_string) (now : Z) : bool :=
  match lastReply with
  | Some lastReply =>
    bool_decide (reply_text lastReply = replyText)
    && (now - reply_timestamp lastReply <? REPLY_DEDUP_WINDOW_MS)%Z
  | None => false
  end.

(** The [deliver] callback made for [message]; [text] is [payload.text].
    One call from its beginning to its end: no other call of [deliver]
    runs while this one waits for the API. *)
Definition deliver (message : MessagePayload) (isDirect : bool)
    (text : option js_string) (env : deliver_env) (st : channel_state)
  : delivered :=
  let nothing :=
    {| state_after := st; calls := []; token_requests := [];
       completion_of := Returned () |} in
  match text with
  | None | Some [] => nothing
  | Some text =>
    let replyText := truncate_reply (filter_reply text) in
    let messageKey := channel_id message +:+ ":" +:+ msg_id message in
    let lastReply := recentReplies st !! messageKey in
    let now := date_now env in
    if is_duplicate lastReply replyText now then nothing
    else
      let call :=
        if isDirect && negb (String.eqb (guild_id message) "") then
          {| direct := true; target := guild_id message;
             call_content := replyText; call_msg_id := msg_id message |}
        else
          {| direct := false; target := channel_id message;
             call_content := replyText; call_msg_id := msg_id message |} in
      let '(c, response, reqs) :=
        request (client st) (request_now env) (token_net env) (api_net env) in
      match response with
      | Thrown e =>
        {| state_after := {| recentReplies := recentReplies st; client := c |};
           calls := [call]; token_requests := reqs;
           completion_of := Thrown e |}
      | Returned _ =>
        let recorded :=
          <[messageKey := {| reply_text := replyText; reply_timestamp := now |}]>
            (recentReplies st) in
        {| state_after :=
             {| recentReplies :=
                  filter (λ kv, ¬ (REPLY_DEDUP_WINDOW_MS
                                   < now - reply_timestamp kv.2)%Z) recorded;
                client := c |};
           calls := [call]; token_requests := reqs;
           completion_of := Returned () |}
      end
  end.

(** The key of a message in [recentReplies]. *)
Definition message_key (message : MessagePayload) : string :=
  channel_id message +:+ ":" +:+ msg_id message.

(** One call of a [deliver] callback. *)
Record delivery_call : Type := {
  for_message : MessagePayload;
  as_direct : bool;
  with_text : option js_string;
  in_env : deliver_env;
}.

(** The state after the calls [ds], made one after the other. *)
Definition deliver_all (ds : list delivery_call) (st : channel_state)
  : channel_state :=
  foldl (λ st d,
           state_after (deliver (for_message d) (as_direct d) (with_text d)
                                (in_env d) st)) st ds.

(** The two forms of the scheme, [http://] and [https://]. *)
Definition is_scheme (pre : js_string) : Prop :=
  pre = [104; 116; 116; 112; 58; 47; 47]%Z
  ∨ pre = [104; 116; 116; 112; 115; 58; 47; 47]%Z.

(** No match of the URL pattern anywhere in [s]. *)
Definition no_url (s : js_string) : Prop :=
  ∀ i, match_url (drop i s) = None.

End Channel.

(** ** [src/webhook/handler.ts] *)

Module Handler.
Import Server.

(** A call of [config.onMessage(message, isDirect)]. *)
Record delivery : Type := {
  message : value;
  isDirect : bool;
}.

(** [handleAtMessage]: the fields of the message are read for the log
    line before the callback is called ([message.author?.username] does
    not throw when [author] is absent).  None of the names read is a
    property of a primitive value or of an array. *)
Definition handleAtMessage (m : value) : completion (list delivery) :=
  _ ← get m "id";
  _ ← get m "content";
  _ ← get m "author";
  _ ← get m "channel_id";
  _ ← get m "guild_id";
  mret [{| message := m; isDirect := false |}].

(** [handleDirectMessage] *)
Definition handleDirectMessage (m : value) : completion (list delivery) :=
  _ ← get m "id";
  _ ← get m "content";
  _ ← get m "author";
  _ ← get m "guild_id";
  mret [{| message := m; isDirect := true |}].

(** The conversion to a string made by a template literal throws.  Of
    the values [JSON.parse] gives, an object with a property of its own
    named [toString] cannot be converted (no value of JSON can be called,
    and [valueOf] gives the object back); an array is joined from the
    strings of its elements, [null] counting as the empty string; every
    other value has a string. *)
Fixpoint to_string_throws (v : value) : bool :=
  match v with
  | VArr items => existsb to_string_throws items
  | VObj fields => existsb (λ kv, String.eqb "toString" kv.1) fields
  | _ => false
  end.

(** [handleEvent]: the log line converts [eventType] to a string before
    the [switch]; the [switch] compares [eventType] with [===], so only a
    string can select a case. *)
Definition handleEvent (eventType eventContent : value)
  : completion (list delivery) :=
  if to_string_throws eventType then
    Throw (TypeError "Cannot convert object to primitive value")
  else
    match eventType with
    | VStr t =>
      if bool_decide (t = lit "AT_MESSAGE_CREATE") then
        handleAtMessage eventContent
      else if bool_decide (t = lit "DIRECT_MESSAGE_CREATE") then
        handleDirectMessage eventContent
      else if bool_decide (t = lit "MESSAGE_CREATE") then
        handleAtMessage eventContent
      else mret []
    | _ => mret []
    end.

(** The task that [handleDispatch] of the server hands to
    [setImmediate]. *)
Definition run_deferred (h : handled) : completion (list delivery) :=
  match deferred h with
  | Some (eventType, eventData) => handleEvent eventType eventData
  | None => mret []
  end.

End Handler.

(** ** Further inputs used to exercise the model *)

Module Fixtures.
Import Signature.

(** A stand-in for the Ed25519 library: the public key is the private
    key, and a signature is 64 copies of the message length. *)
Definition toy_ed25519 : Ed25519 :=
  {| ed_getPublicKey := λ key, Returned key;
     ed_sign := λ message _,
       Returned (replicate 64 (Z.of_nat (length message) mod 256)%Z);
     ed_verify := λ sig message _,
       Returned (bool_decide
                   (sig = replicate 64 (Z.of_nat (length message) mod 256)%Z)) |}.

(** The secret of the platform's documentation. *)
Definition sample_secret : js_string := lit "D65g384j9X2KOErG".

(** A string between double quotes. *)
Definition quoted (s : string) : js_string := [34%Z] ++ lit s ++ [34%Z].

(** The body [{op:0, t:<t>, d:{id:m1}}] written as JSON, and the value it
    parses to. *)
Definition dispatch_body (t : string) : js_string :=
  lit "{" ++ quoted "op" ++ lit ":0," ++ quoted "t" ++ lit ":" ++ quoted t
  ++ lit "," ++ quoted "d" ++ lit ":{" ++ quoted "id" ++ lit ":"
  ++ quoted "m1" ++ lit "}}".

Definition dispatch_payload (t : string) : Server.value :=
  Server.VObj [("op", Server.VNum 0); ("t", Server.VStr (lit t));
               ("d", Server.VObj [("id", Server.VStr (lit "m1"))])].

(** The body [{op:0, t:<t>}], without [d]. *)
Definition bare_dispatch_body (t : string) : js_string :=
  lit "{" ++ quoted "op" ++ lit ":0," ++ quoted "t" ++ lit ":" ++ quoted t
  ++ lit "}".

Definition bare_dispatch_payload (t : string) : Server.value :=
  Server.VObj [("op", Server.VNum 0); ("t", Server.VStr (lit t))].

(** The body [{op:13, d:{plain_token:abc, event_ts:123}}]. *)
Definition validation_body : js_string :=
  lit "{" ++ quoted "op" ++ lit ":13," ++ quoted "d" ++ lit ":{"
  ++ quoted "plain_token" ++ lit ":" ++ quoted "abc" ++ lit ","
  ++ quoted "event_ts" ++ lit ":" ++ quoted "123" ++ lit "}}".

Definition validation_payload : Server.value :=
  Server.VObj [("op", Server.VNum 13);
               ("d", Server.VObj [("plain_token", Server.VStr (lit "abc"));
                                  ("event_ts", Server.VStr (lit "123"))])].

(** A parser that knows these bodies. *)
Definition fixture_host : Server.Host :=
  {| Server.json_parse := λ b,
       if decide (b = dispatch_body "DIRECT_MESSAGE_CREATE")
       then Some (dispatch_payload "DIRECT_MESSAGE_CREATE")
       else if decide (b = bare_dispatch_body "AT_MESSAGE_CREATE")
       then Some (bare_dispatch_payload "AT_MESSAGE_CREATE")
       else if decide (b = validation_body) then Some validation_payload
       else None;
     Server.encode_sum := λ _ _, [] |}.

End Fixtures.

(** * Properties *)

Module SignatureFacts.
Import Signature.

Lemma utf8_encode_ascii (s : js_string) :
  ascii_only s → utf8_encode s = s.
Proof.
  induction 1 as [|c s Hc _ IH]; [done|].
  cbn [utf8_encode].
  assert (is_high_surrogate c = false) as ->.
  { unfold is_high_surrogate. apply andb_false_iff. left. apply Z.leb_gt. lia. }
  assert (is_low_surrogate c = false) as ->.
  { unfold is_low_surrogate. apply andb_false_iff. left. apply Z.leb_gt. lia. }
  unfold utf8_code_point.
  assert ((c <? 0x80)%Z = true) as -> by (apply Z.ltb_lt; lia).
  cbn. by rewrite IH.
Qed.

Lemma ascii_only_app (s t : js_string) :
  ascii_only s → ascii_only t → ascii_only (s ++ t).
Proof. unfold ascii_only. intros. by apply Forall_app. Qed.

(** On ASCII secrets the code and the specification run the same loop. *)
Lemma spec_seed_loop_ascii (fuel : nat) (s : js_string) :
  ascii_only s → spec_seed_loop fuel s = deriveSeed_loop fuel s.
Proof.
  revert s. induction fuel as [|fuel IH]; intros s Hs; cbn.
  - by rewrite utf8_encode_ascii.
  - rewrite utf8_encode_ascii by done.
    case_bool_decide; [|done]. apply IH. by apply ascii_only_app.
Qed.

Lemma deriveSeed_loop_ascii (fuel : nat) (s r : js_string) :
  ascii_only s → deriveSeed_loop fuel s = Return r → ascii_only r.
Proof.
  revert s. induction fuel as [|fuel IH]; intros s Hs; cbn.
  - case_bool_decide; [done|]. by intros [= <-].
  - case_bool_decide; [|by intros [= <-]].
    apply IH. by apply ascii_only_app.
Qed.

(** The empty secret never leaves the loop. *)
Lemma deriveSeed_loop_empty (fuel : nat) : deriveSeed_loop fuel [] = Running.
Proof. induction fuel as [|fuel IH]; [done|]. cbn. exact IH. Qed.

(** More fuel does not change a result. *)
Lemma deriveSeed_loop_mono (fuel k : nat) (s r : js_string) :
  deriveSeed_loop fuel s = Return r → deriveSeed_loop (fuel + k) s = Return r.
Proof.
  revert s. induction fuel as [|fuel IH]; intros s; cbn.
  - case_bool_decide; [done|]. intros [= <-].
    destruct k; cbn; by rewrite bool_decide_false.
  - case_bool_decide; [|done]. apply IH.
Qed.

(** Five doublings are enough for any non-empty secret. *)
Lemma deriveSeed_loop_terminates (s : js_string) :
  s ≠ [] → ∃ r, deriveSeed_loop 5 s = Return r ∧ 32 ≤ length r.
Proof.
  intros Hs.
  assert (1 ≤ length s) as Hlen by (destruct s; [done | cbn; lia]).
  cbn [deriveSeed_loop].
  repeat case_bool_decide;
    rewrite ?length_app in *;
    try (eexists; split; [reflexivity | rewrite ?length_app; lia]);
    lia.
Qed.

Lemma spec_seed_loop_mono (fuel k : nat) (s r : js_string) :
  spec_seed_loop fuel s = Return r → spec_seed_loop (fuel + k) s = Return r.
Proof.
  revert s. induction fuel as [|fuel IH]; intros s; cbn.
  - case_bool_decide; [done|]. intros [= <-].
    destruct k; cbn; by rewrite bool_decide_false.
  - case_bool_decide; [|done]. apply IH.
Qed.

Lemma deriveSeed_mono (fuel k : nat) (s : js_string) (r : bytes) :
  deriveSeed fuel s = Return r → deriveSeed (fuel + k) s = Return r.
Proof.
  unfold deriveSeed.
  destruct (deriveSeed_loop fuel s) as [seed| |] eqn:Hloop; [|done..].
  by rewrite (deriveSeed_loop_mono _ k _ _ Hloop).
Qed.

(** The loop only ever returns a string of at least 32 code units. *)
Lemma deriveSeed_loop_length (fuel : nat) (s r : js_string) :
  deriveSeed_loop fuel s = Return r → 32 ≤ length r.
Proof.
  revert s. induction fuel as [|fuel IH]; intros s; cbn.
  - case_bool_decide; [done|]. intros [= <-]. lia.
  - case_bool_decide; [apply IH|]. intros [= <-]. lia.
Qed.

(** [deriveSeed] returns for every non-empty secret, and never throws. *)
Lemma deriveSeed_returns (k : nat) (s : js_string) :
  s ≠ [] → ∃ seed, deriveSeed (5 + k) s = Return seed.
Proof.
  intros Hs. destruct (deriveSeed_loop_terminates s Hs) as (r & Hr & _).
  unfold deriveSeed.
  rewrite (deriveSeed_loop_mono 5 k _ _ Hr). by eexists.
Qed.

Lemma deriveSeed_empty (fuel : nat) : deriveSeed fuel [] = Running.
Proof. unfold deriveSeed. by rewrite deriveSeed_loop_empty. Qed.

(** On a non-empty ASCII secret the code computes what the specification
    describes: 32 bytes, the first 32 of the repeated secret. *)
Lemma deriveSeed_ascii (fuel : nat) (s : js_string) :
  ascii_only s → deriveSeed fuel s = spec_deriveSeed fuel s.
Proof.
  intros Hs. unfold deriveSeed, spec_deriveSeed.
  rewrite spec_seed_loop_ascii by done.
  destruct (deriveSeed_loop fuel s) as [seed| |] eqn:Hloop; [|done..].
  cbn. f_equal.
  assert (ascii_only seed) as Hseed by by eapply deriveSeed_loop_ascii.
  rewrite utf8_encode_ascii; [|by apply Forall_take].
  by rewrite utf8_encode_ascii.
Qed.

Lemma deriveSeed_ascii_length (fuel : nat) (s : js_string) (seed : bytes) :
  ascii_only s → deriveSeed fuel s = Return seed → length seed = 32.
Proof.
  intros Hs. unfold deriveSeed.
  destruct (deriveSeed_loop fuel s) as [r| |] eqn:Hloop; [|done..].
  intros [= <-].
  assert (ascii_only r) as Hr by by eapply deriveSeed_loop_ascii.
  rewrite utf8_encode_ascii; [|by apply Forall_take].
  apply deriveSeed_loop_length in Hloop. rewrite length_take. lia.
Qed.

(** C1 (the code differs from the claim). [deriveSeed] measures the loop
    condition and the truncation in UTF-16 code units, not in bytes of the
    UTF-8 encoding: for the one-character secret U+00E9 it returns the 64
    bytes of 32 copies of the character, where the derivation of the
    specification gives the first 32 bytes, and the two results differ. *)
Theorem deriveSeed_counts_code_units (k : nat) :
  deriveSeed (5 + k) [0xE9%Z] = Return (utf8_encode (replicate 32 0xE9%Z))
  ∧ length (utf8_encode (replicate 32 0xE9%Z)) = 64
  ∧ spec_deriveSeed (5 + k) [0xE9%Z]
    = Return (take 32 (utf8_encode (replicate 16 0xE9%Z)))
  ∧ length (take 32 (utf8_encode (replicate 16 0xE9%Z))) = 32
  ∧ deriveSeed (5 + k) [0xE9%Z] ≠ spec_deriveSeed (5 + k) [0xE9%Z].
Proof.
  assert (deriveSeed (5 + k) [0xE9%Z]
          = Return (utf8_encode (replicate 32 0xE9%Z))) as Hcode.
  { apply deriveSeed_mono. by vm_compute. }
  assert (spec_deriveSeed (5 + k) [0xE9%Z]
          = Return (take 32 (utf8_encode (replicate 16 0xE9%Z)))) as Hspec.
  { unfold spec_deriveSeed.
    rewrite (spec_seed_loop_mono 5 k [0xE9%Z] (replicate 16 0xE9%Z));
      by vm_compute. }
  rewrite Hcode, Hspec. repeat split; by vm_compute.
Qed.

Section Verify.
Context `{Ed25519}.

(** The [try]/[catch] of [verifySignature] lets no exception out. *)
Lemma verifySignature_never_throws
    (fuel : nat) (signature timestamp body botSecret : js_string) (e : js_error) :
  verifySignature fuel signature timestamp body botSecret ≠ Throw e.
Proof.
  unfold verifySignature, getPublicKey, getPrivateKey.
  destruct (deriveSeed fuel botSecret) as [key| |]; cbn; [|done..].
  by destruct (ed_getPublicKey key) as [pk|]; cbn;
    [destruct (ed_verify _ _ pk)|].
Qed.

(** Decoding never fails: a signature of any shape gives [length / 2]
    bytes. *)
Lemma hexToBytes_length (hex : js_string) :
  length (hexToBytes hex) = length hex / 2.
Proof. unfold hexToBytes. by rewrite length_map, length_seq. Qed.

(** For a non-empty secret the call returns a boolean. *)
Lemma verifySignature_returns
    (k : nat) (signature timestamp body botSecret : js_string) :
  botSecret ≠ [] →
  ∃ b : bool,
    verifySignature (5 + k) signature timestamp body botSecret = Return b.
Proof.
  intros Hs. destruct (deriveSeed_returns k botSecret Hs) as [key Hkey].
  unfold verifySignature, getPublicKey, getPrivateKey.
  rewrite Hkey. cbn.
  destruct (ed_getPublicKey key) as [pk|]; cbn; [|by eexists].
  destruct (ed_verify _ _ pk); cbn; by eexists.
Qed.

(** C10 (the code differs from the claim). With the empty secret
    [verifySignature] does not return, whatever the signature, timestamp
    and body: the loop of [deriveSeed] doubles the empty string for ever,
    whatever the number of steps it is given. *)
Theorem verifySignature_empty_secret_hangs
    (fuel : nat) (signature timestamp body : js_string) :
  verifySignature fuel signature timestamp body [] = Running.
Proof.
  unfold verifySignature, getPublicKey, getPrivateKey.
  by rewrite deriveSeed_empty.
Qed.

End Verify.

End SignatureFacts.

Module ServerFacts.
Import Signature Server.

Section Validation.
Context `{Ed25519} `{Host}.
Variable appSecret : js_string.
Variable path : string.

(** A POST to the configured path reaches [processRequest]. *)
Lemma handleRequest_post
    (fuel : nat) (signature timestamp : header) (body : js_string) :
  handleRequest appSecret fuel "POST" (Some path) path signature timestamp body
  = processRequest appSecret fuel signature timestamp body.
Proof. unfold handleRequest. by rewrite !String.eqb_refl. Qed.

(** Anything but a POST to the configured path is answered 404. *)
Lemma handleRequest_not_found
    (fuel : nat) (method pathname : string) (signature timestamp : header)
    (body : js_string) :
  method ≠ "POST" ∨ pathname ≠ path →
  handleRequest appSecret fuel method (Some pathname) path
    signature timestamp body
  = Return (reply 404 (ErrorBody "Not found")).
Proof.
  intros Hne. unfold handleRequest.
  destruct Hne as [Hne|Hne]; apply String.eqb_neq in Hne; rewrite Hne;
    [done | by rewrite orb_true_r].
Qed.

(** A body that is not JSON is answered 400. *)
Lemma processRequest_invalid_json
    (fuel : nat) (signature timestamp : header) (body : js_string) :
  json_parse body = None →
  processRequest appSecret fuel signature timestamp body
  = Return (reply 400 (ErrorBody "Invalid JSON")).
Proof. intros Hparse. unfold processRequest. by rewrite Hparse. Qed.

(** No exception leaves [processRequest]. *)
Lemma processRequest_never_throws
    (fuel : nat) (signature timestamp : header) (body : js_string)
    (e : js_error) :
  processRequest appSecret fuel signature timestamp body ≠ Throw e.
Proof.
  unfold processRequest.
  by destruct (match json_parse body with Some _ => _ | None => _ end).
Qed.

(** Only an object has an [op] that is a number. *)
Lemma get_num_inv (payload : value) (k : string) (n : Z) :
  get payload k = Return (VNum n) →
  ∃ fields, payload = VObj fields ∧ assoc k fields = Some (VNum n).
Proof.
  destruct payload as [| | | | | |fields]; try done.
  cbn. destruct (assoc k fields) as [v|] eqn:Hk; [|done].
  intros [= ->]. by exists fields.
Qed.

(** The validation handshake answers 400 when the payload object has no
    usable [plain_token] or [event_ts]. *)
Lemma url_validation_missing_field
    (fuel : nat) (signature timestamp : header) (body : js_string)
    (payload data plain_token event_ts : value) :
  json_parse body = Some payload →
  get payload "op" = Return (VNum 13) →
  get payload "d" = Return data →
  get data "plain_token" = Return plain_token →
  get data "event_ts" = Return event_ts →
  truthy plain_token = false ∨ truthy event_ts = false →
  handleRequest appSecret fuel "POST" (Some path) path
    signature timestamp body
  = Return (reply 400 (ErrorBody "Missing plain_token or event_ts")).
Proof.
  intros Hparse Hop Hd Hp He Hmissing.
  rewrite handleRequest_post. unfold processRequest. rewrite Hparse.
  destruct (get_num_inv _ _ _ Hop) as (fields & -> & Hfield).
  cbn in *. rewrite Hfield. cbn.
  unfold handleURLValidation. cbn. injection Hd as ->.
  rewrite Hp. cbn.
  destruct (truthy plain_token) eqn:Hpt; [|done]. cbn.
  rewrite He. cbn.
  destruct Hmissing as [Hfalse| ->]; [congruence | done].
Qed.

(** With both fields present as non-empty strings, the answer is 200 and
    carries the token and the hexadecimal signature of
    [event_ts + plain_token]; the headers play no part. *)
Lemma url_validation_signed
    (fuel : nat) (signature timestamp : header) (body : js_string)
    (payload data : value) (plain_token event_ts : js_string)
    (key sig : bytes) :
  json_parse body = Some payload →
  get payload "op" = Return (VNum 13) →
  get payload "d" = Return data →
  get data "plain_token" = Return (VStr plain_token) →
  get data "event_ts" = Return (VStr event_ts) →
  plain_token ≠ [] → event_ts ≠ [] →
  deriveSeed fuel appSecret = Return key →
  ed_sign (utf8_encode (event_ts ++ plain_token)) key = Returned sig →
  handleRequest appSecret fuel "POST" (Some path) path
    signature timestamp body
  = Return (reply 200 (ValidationBody (VStr plain_token) (bytesToHex sig))).
Proof.
  intros Hparse Hop Hd Hp He Hp0 He0 Hkey Hsig.
  rewrite handleRequest_post. unfold processRequest. rewrite Hparse.
  destruct (get_num_inv _ _ _ Hop) as (fields & -> & Hfield).
  cbn in *. rewrite Hfield. cbn.
  unfold handleURLValidation. cbn. injection Hd as ->.
  rewrite Hp. cbn. rewrite bool_decide_false by done. cbn.
  rewrite He. cbn. rewrite bool_decide_false by done. cbn.
  unfold signCallbackResponse, getPrivateKey. rewrite Hkey. cbn.
  by rewrite Hsig.
Qed.

(** C9 (the code differs from the claim). A validation request whose
    payload has no [d] member (or a null one) has neither [plain_token] nor
    [event_ts], and is answered 500, not 400: reading [data.plain_token]
    throws, and the [catch] of [processRequest] sends the
    internal-server-error response. *)
Theorem url_validation_without_data_is_500
    (fuel : nat) (signature timestamp : header) (body : js_string)
    (payload : value) :
  json_parse body = Some payload →
  get payload "op" = Return (VNum 13) →
  get payload "d" = Return VUndefined ∨ get payload "d" = Return VNull →
  handleRequest appSecret fuel "POST" (Some path) path
    signature timestamp body
  = Return (reply 500 (ErrorBody "Internal server error")).
Proof.
  intros Hparse Hop Hd.
  rewrite handleRequest_post. unfold processRequest. rewrite Hparse.
  destruct (get_num_inv _ _ _ Hop) as (fields & -> & Hfield).
  cbn in *. rewrite Hfield. cbn.
  unfold handleURLValidation. cbn.
  by destruct Hd as [[= ->]|[= ->]].
Qed.

End Validation.

Lemma url_validation_without_data_is_500_witness :
  @json_parse Samples.bare_validation_host Samples.bare_validation_body
  = Some (VObj [("op", VNum 13)])
  ∧ @handleRequest Samples.rejecting_ed25519 Samples.bare_validation_host
      (lit "D65g384j9X2KOErG") 5 "POST" (Some "/webhook") "/webhook" None None
      Samples.bare_validation_body
    = Return (reply 500 (ErrorBody "Internal server error")).
Proof.
  split; [reflexivity|].
  apply (@url_validation_without_data_is_500
           Samples.rejecting_ed25519 Samples.bare_validation_host
           (lit "D65g384j9X2KOErG") "/webhook" 5 None None
           Samples.bare_validation_body (VObj [("op", VNum 13)]));
    [reflexivity | reflexivity | left; reflexivity].
Defined.

End ServerFacts.

Module ClientFacts.
Import Client Samples.

Lemma cache_valid_true (c : QQApiClient) (now : Z) (t : string) :
  accessToken c = Some t → t ≠ "" → (now + 60 * 1000 < tokenExpiresAt c)%Z →
  cache_valid c false now = true.
Proof.
  intros Ht Hne Hexp. unfold cache_valid, token_truthy. rewrite Ht.
  rewrite (proj2 (String.eqb_neq t "")) by done.
  rewrite (proj2 (Z.ltb_lt _ _)) by done. done.
Qed.

Lemma cache_valid_false (c : QQApiClient) (forceRefresh : bool) (now : Z) :
  forceRefresh = true ∨ accessToken c = None ∨ accessToken c = Some ""
  ∨ (tokenExpiresAt c ≤ now + 60 * 1000)%Z →
  cache_valid c forceRefresh now = false.
Proof.
  unfold cache_valid. destruct forceRefresh; [done|].
  intros [?|[->|[->|Hexp]]]; [done..|].
  apply andb_false_iff. right. apply Z.ltb_ge. lia.
Qed.

(** C6 (as amended). [getAccessToken(false)] returns a cached token
    that is not the empty string and whose expiry is more than 60 seconds
    ahead, without any request.  In every other case (forced refresh, no
    token, an empty token, expiry within 60 seconds) it sends exactly one
    request, with the [appId] and the secret of the client.  On success it
    caches the value with expiry [now + expires_in * 1000], [now] being the
    clock read when the call began, and returns it.  When the endpoint
    rejects the request it throws
    [Error("Failed to get access token: <status> <text>")], and when the
    network call or the reading of the body fails it throws that error; in
    both cases the cache is left alone and nothing more is sent. *)
Theorem getAccessToken_contract
    (c : QQApiClient) (forceRefresh : bool) (now : Z)
    (net : fetch_result TokenResponse) :
  (∀ t, forceRefresh = false → accessToken c = Some t → t ≠ "" →
        (now + 60 * 1000 < tokenExpiresAt c)%Z →
        getAccessToken c forceRefresh now net
        = {| client_after := c; outcome := Returned t; requests := [] |})
  ∧ (forceRefresh = true ∨ accessToken c = None ∨ accessToken c = Some ""
     ∨ (tokenExpiresAt c ≤ now + 60 * 1000)%Z →
     let call := getAccessToken c forceRefresh now net in
     requests call
     = [{| req_appId := appId c; req_clientSecret := appSecret c |}]
     ∧ match net with
       | HttpOk data =>
         outcome call = Returned (access_token data)
         ∧ client_after call
           = {| appId := appId c; appSecret := appSecret c;
                baseUrl := baseUrl c;
                accessToken := Some (access_token data);
                tokenExpiresAt := (now + expires_in data * 1000)%Z |}
       | HttpNotOk status text =>
         outcome call
         = Thrown (Error ("Failed to get access token: " +:+ pretty status
                          +:+ " " +:+ text))
         ∧ client_after call = c
       | FetchRejected e | HttpBodyRejected e =>
         outcome call = Thrown e ∧ client_after call = c
       end).
Proof.
  split.
  - intros t -> Ht Hne Hexp. unfold getAccessToken, getAccessToken_begin.
    rewrite (cache_valid_true c now t) by done. by rewrite Ht.
  - intros Hcase. cbn zeta. unfold getAccessToken, getAccessToken_begin.
    rewrite cache_valid_false by done.
    by destruct net as [e|status text|e|data].
Qed.

Lemma getAccessToken_contract_witness :
  getAccessToken fresh_client false 1000 (FetchRejected (Error "offline"))
  = {| client_after := fresh_client; outcome := Returned "token-1";
       requests := [] |}
  ∧ requests (getAccessToken fresh_client true 1000
                (HttpOk {| access_token := "token-2"; expires_in := 7200 |}))
    = [{| req_appId := "102824573"; req_clientSecret := "secret" |}].
Proof.
  pose proof (getAccessToken_contract fresh_client false 1000
                (FetchRejected (Error "offline"))) as [Hcached _].
  pose proof (getAccessToken_contract fresh_client true 1000
                (HttpOk {| access_token := "token-2"; expires_in := 7200 |}))
    as [_ Hfetch].
  split.
  - apply Hcached; [reflexivity | reflexivity | discriminate | cbn; lia].
  - apply Hfetch. left. reflexivity.
Defined.

(** C6 (counterexample). A client that was issued the empty string as
    its token holds a cached token whose expiry is two hours ahead; a call
    made a tenth of a second later is not answered from the cache: it sends
    a request to the issuance endpoint. *)
Lemma empty_cached_token_is_refetched :
  let c := client_after (getAccessToken cold_client false 0
                           (HttpOk {| access_token := "";
                                      expires_in := 7200 |})) in
  accessToken c = Some ""
  ∧ (100 + 60 * 1000 < tokenExpiresAt c)%Z
  ∧ requests (getAccessToken c false 100 (issued "token-1"))
    = [{| req_appId := "102824573"; req_clientSecret := "secret" |}]
  ∧ requests (getAccessToken c false 100 (issued "token-1")) ≠ [].
Proof. cbn zeta. split_and!; [reflexivity | by vm_compute | reflexivity | done]. Qed.

(** A call that starts while the cache is not valid sends a request. *)
Lemma call_sends_request (f : flight) (id : nat) (now : Z) :
  cache_valid (client f) false now = false →
  sent (flight_step f (Call id false now))
  = sent f ++ [(id, token_request_of (client f))]
  ∧ client (flight_step f (Call id false now)) = client f
  ∧ pending (flight_step f (Call id false now)) = <[id := now]> (pending f)
  ∧ finished (flight_step f (Call id false now)) = finished f.
Proof.
  intros Hc. unfold flight_step, getAccessToken_begin. by rewrite Hc.
Qed.

(** A response is handed to the call that waits for it. *)
Lemma response_arrives
    (f : flight) (id : nat) (now : Z) (r : fetch_result TokenResponse) :
  pending f !! id = Some now →
  flight_step f (Response id r)
  = {| client := (getAccessToken_resume (client f) now r).1;
       pending := delete id (pending f);
       sent := sent f;
       finished :=
         <[id := (getAccessToken_resume (client f) now r).2]> (finished f) |}.
Proof.
  intros Hp. unfold flight_step. rewrite Hp.
  by destruct (getAccessToken_resume (client f) now r).
Qed.

(** What a call gets depends on its own response only, not on the state
    of the cache when the response arrives. *)
Lemma resume_result_own
    (c c' : QQApiClient) (now now' : Z) (r : fetch_result TokenResponse) :
  (getAccessToken_resume c now r).2 = (getAccessToken_resume c' now' r).2.
Proof. by destruct r. Qed.

(** The state after two calls that both found the cache not valid. *)
Lemma two_calls_pending (c : QQApiClient) (id1 id2 : nat) (now1 now2 : Z) :
  id1 ≠ id2 →
  cache_valid c false now1 = false →
  cache_valid c false now2 = false →
  flight_run (idle c) [Call id1 false now1; Call id2 false now2]
  = {| client := c;
       pending := <[id2 := now2]> (<[id1 := now1]> ∅);
       sent := [(id1, token_request_of c); (id2, token_request_of c)];
       finished := ∅ |}.
Proof.
  intros Hid Hc1 Hc2. unfold flight_run. cbn [foldl].
  unfold flight_step at 2. unfold getAccessToken_begin. cbn [idle client].
  rewrite Hc1. unfold flight_step, getAccessToken_begin. cbn [client].
  by rewrite Hc2.
Qed.

(** C4 (as amended). Two calls of [getAccessToken] that both start while
    no valid token is cached, before either response has arrived, make two
    requests to the issuance endpoint, one for each caller and both with
    the credentials of the client, in whichever order the two responses
    come back; each caller receives the result of its own request, and the
    cache is written by each response in turn. *)
Theorem concurrent_calls_are_not_coalesced
    (c : QQApiClient) (id1 id2 : nat) (now1 now2 : Z)
    (r1 r2 : fetch_result TokenResponse) (second_first : bool) :
  id1 ≠ id2 →
  cache_valid c false now1 = false →
  cache_valid c false now2 = false →
  let f := flight_run (idle c)
             ([Call id1 false now1; Call id2 false now2]
              ++ if second_first
                 then [Response id2 r2; Response id1 r1]
                 else [Response id1 r1; Response id2 r2]) in
  sent f
  = [(id1, {| req_appId := appId c; req_clientSecret := appSecret c |});
     (id2, {| req_appId := appId c; req_clientSecret := appSecret c |})]
  ∧ finished f !! id1 = Some (getAccessToken_resume c now1 r1).2
  ∧ finished f !! id2 = Some (getAccessToken_resume c now2 r2).2
  ∧ pending f = ∅
  ∧ client f
    = if second_first
      then (getAccessToken_resume (getAccessToken_resume c now2 r2).1 now1 r1).1
      else (getAccessToken_resume (getAccessToken_resume c now1 r1).1 now2 r2).1.
Proof.
  intros Hid Hc1 Hc2. cbn zeta. unfold flight_run. rewrite foldl_app.
  change (foldl flight_step (idle c) [Call id1 false now1; Call id2 false now2])
    with (flight_run (idle c) [Call id1 false now1; Call id2 false now2]).
  rewrite two_calls_pending by done.
  assert (∀ ida idb nowa nowb ra rb (first : gmap nat Z),
    ida ≠ idb →
    first = <[idb := nowb]> (<[ida := nowa]> ∅)
    ∨ first = <[ida := nowa]> (<[idb := nowb]> ∅) →
    ∀ se,
    let f := foldl flight_step
               {| client := c; pending := first; sent := se; finished := ∅ |}
               [Response ida ra; Response idb rb] in
    sent f = se
    ∧ finished f !! ida = Some (getAccessToken_resume c nowa ra).2
    ∧ finished f !! idb = Some (getAccessToken_resume c nowb rb).2
    ∧ pending f = ∅
    ∧ client f
      = (getAccessToken_resume (getAccessToken_resume c nowa ra).1 nowb rb).1)
    as Hboth.
  { intros ida idb nowa nowb ra rb first Hne Hfirst se. cbn zeta. cbn [foldl].
    assert (first !! ida = Some nowa ∧ first !! idb = Some nowb) as [Ha Hb].
    { destruct Hfirst as [-> | ->].
      - by rewrite lookup_insert_ne, !lookup_insert_eq by done.
      - by rewrite lookup_insert_eq, lookup_insert_ne, lookup_insert_eq by done. }
    rewrite (response_arrives _ ida nowa ra) by done.
    cbn [client pending sent finished].
    rewrite (response_arrives _ idb nowb rb)
      by (cbn [pending]; by rewrite lookup_delete_ne by done).
    cbn [client pending sent finished]. split; [done|]. split.
    { by rewrite lookup_insert_ne, lookup_insert_eq by done. }
    split.
    { rewrite lookup_insert_eq. f_equal. apply resume_result_own. }
    split; [|done].
    apply map_eq. intros i. rewrite lookup_empty.
    rewrite !lookup_delete.
    destruct Hfirst as [-> | ->];
      rewrite !lookup_insert, lookup_empty; by repeat case_decide. }
  destruct second_first.
  - destruct (Hboth id2 id1 now2 now1 r2 r1
                (<[id2 := now2]> (<[id1 := now1]> ∅)))
      with (se := [(id1, token_request_of c); (id2, token_request_of c)])
      as (Hs & Hf2 & Hf1 & Hp & Hcl); [done | by right |].
    by rewrite Hs, Hf1, Hf2, Hp, Hcl.
  - destruct (Hboth id1 id2 now1 now2 r1 r2
                (<[id2 := now2]> (<[id1 := now1]> ∅)))
      with (se := [(id1, token_request_of c); (id2, token_request_of c)])
      as (Hs & Hf1 & Hf2 & Hp & Hcl); [done | by left |].
    by rewrite Hs, Hf1, Hf2, Hp, Hcl.
Qed.

Lemma concurrent_calls_are_not_coalesced_witness :
  sent (flight_run (idle cold_client)
          [Call 1 false 0; Call 2 false 0;
           Response 2 (issued "b"); Response 1 (issued "a")])
  = [(1, {| req_appId := "102824573"; req_clientSecret := "secret" |});
     (2, {| req_appId := "102824573"; req_clientSecret := "secret" |})].
Proof.
  apply (concurrent_calls_are_not_coalesced cold_client 1 2 0 0
           (issued "a") (issued "b") true); [discriminate | reflexivity..].
Defined.

(** C4 (counterexample). Two calls issued on a client with no cached
    token, before any response, make two requests to the issuance endpoint,
    not one. *)
Lemma two_racing_calls_two_requests :
  length (sent (flight_run (idle cold_client)
                  [Call 1 false 0; Call 2 false 0;
                   Response 1 (issued "a"); Response 2 (issued "b")])) = 2
  ∧ length (sent (flight_run (idle cold_client)
                    [Call 1 false 0; Call 2 false 0;
                     Response 1 (issued "a"); Response 2 (issued "b")])) ≠ 1.
Proof. split; [by vm_compute | by vm_compute]. Qed.

End ClientFacts.

Module RuntimeFacts.
Import Client Wire Runtime Observe Samples.
Local Open Scope action_scope.

(** *** Sequencing *)

Lemma andThen_fst {S} (a b : Wire.action S) (w : S) :
  ((a ;; b) w).1 = (b (a w).1).1.
Proof. unfold andThen. destruct (a w) as [w1 e1]. cbn. by destruct (b w1). Qed.

Lemma andThen_snd {S} (a b : Wire.action S) (w : S) :
  ((a ;; b) w).2 = (a w).2 ++ (b (a w).1).2.
Proof. unfold andThen. destruct (a w) as [w1 e1]. cbn. by destruct (b w1). Qed.

(** *** Fields an action leaves alone *)

Section Keeps.
Context {A : Type} (f : QQChannelRuntime → A).

Lemma keeps_skip : keeps f skip.
Proof. done. Qed.

Lemma keeps_emit (e : effect) : keeps f (emit e).
Proof. done. Qed.

Lemma keeps_emit_all (es : list effect) : keeps f (emit_all es).
Proof. done. Qed.

Lemma keeps_set_cached (t : option string) : keeps f (set_cached t).
Proof. done. Qed.

Lemma keeps_set_client (c : QQApiClient) : keeps f (set_client c).
Proof. done. Qed.

Lemma keeps_update (g : QQChannelRuntime → QQChannelRuntime) :
  (∀ r, f (g r) = f r) → keeps f (update g).
Proof. intros Hg w. apply Hg. Qed.

Lemma keeps_andThen (a b : action) :
  keeps f a → keeps f b → keeps f (a ;; b).
Proof.
  intros Ha Hb w. unfold andThen.
  specialize (Ha w). destruct (a w) as [w1 e1].
  specialize (Hb w1). destruct (b w1) as [w2 e2].
  cbn in *. congruence.
Qed.

Lemma keeps_reading {B} (g : world → B) (k : B → action) :
  (∀ x, keeps f (k x)) → keeps f (reading g k).
Proof. intros Hk w. apply Hk. Qed.

End Keeps.

Create HintDb keeps.
#[local] Hint Resolve keeps_skip keeps_emit keeps_emit_all keeps_set_cached
  keeps_set_client keeps_andThen keeps_reading : keeps.

(** Take a handler apart along its control flow. *)
Ltac keeps_step :=
  match goal with
  | |- keeps _ (_ ;; _) => apply keeps_andThen
  | |- keeps _ (reading _ _) => apply keeps_reading; intros ?
  | |- keeps _ (update _) => apply keeps_update; intros ?; reflexivity
  | |- keeps _ (if ?c then _ else _) => destruct c
  | |- keeps _ (match ?x with _ => _ end) => destruct x
  | |- keeps _ _ => solve [auto with keeps]
  end.

Ltac keeps_auto := repeat keeps_step.

(** [lastSequence] is written by the frame handler and by [stop] only. *)
Lemma stopHeartbeat_keeps_seq : keeps lastSequence stopHeartbeat.
Proof. unfold stopHeartbeat. keeps_auto. Qed.
#[local] Hint Resolve stopHeartbeat_keeps_seq : keeps.

Lemma send_keeps_seq (fr : sent_frame) : keeps lastSequence (send fr).
Proof. unfold send. keeps_auto. Qed.
#[local] Hint Resolve send_keeps_seq : keeps.

Lemma scheduleReconnect_keeps_seq : keeps lastSequence scheduleReconnect.
Proof. unfold scheduleReconnect. keeps_auto. Qed.
#[local] Hint Resolve scheduleReconnect_keeps_seq : keeps.

Lemma start_failed_keeps_seq (e : js_error) :
  keeps lastSequence (start_failed e).
Proof. unfold start_failed. keeps_auto. Qed.
#[local] Hint Resolve start_failed_keeps_seq : keeps.

Lemma open_socket_keeps_seq (env : StartEnv) (wsUrl : string) :
  keeps lastSequence (open_socket env wsUrl).
Proof. unfold open_socket, setupWebSocketHandlers. keeps_auto. Qed.
#[local] Hint Resolve open_socket_keeps_seq : keeps.

Lemma start_keeps_seq (env : StartEnv) : keeps lastSequence (start env).
Proof. unfold start. keeps_auto. Qed.
#[local] Hint Resolve start_keeps_seq : keeps.

Lemma reconnect_keeps_seq (env : ReconnectEnv) :
  keeps lastSequence (reconnect env).
Proof. unfold reconnect. keeps_auto. Qed.
#[local] Hint Resolve reconnect_keeps_seq : keeps.

Lemma frame_keeps_seq (env : ReconnectEnv) (fr : frame) :
  keeps lastSequence
    match fr with
    | Hello heartbeat_interval => handleHello heartbeat_interval
    | Dispatch ev => handleDispatch ev
    | HeartbeatAck => skip
    | Reconnect => reconnect env
    | InvalidSession =>
      update (set_sessionId None) ;;
      emit (SetTimeout InvalidSessionTimer 1000)
    | UnknownOp _ => skip
    end.
Proof.
  destruct fr as [hb|ev| | | |op]; try solve [keeps_auto].
  - unfold handleHello, startHeartbeat, sendIdentify. keeps_auto.
  - unfold handleDispatch, handleReady. keeps_auto.
Qed.

(** C7 (as amended). [lastSequence] is overwritten by every frame that
    carries a sequence number, with that number, whether or not it is
    smaller than the value held; a frame without one and every other event
    leave it as it is; [stop] alone nulls it. *)
Theorem lastSequence_follows_frames (ev : event) (w : world) :
  lastSequence (self (handle ev w).1)
  = match ev with
    | SocketMessage payload _ =>
      match s payload with
      | Some n => Some n
      | None => lastSequence (self w)
      end
    | Stop => None
    | _ => lastSequence (self w)
    end.
Proof.
  destruct ev as [env| | |payload env|code reason|e|env| |]; cbn [handle].
  - apply start_keeps_seq.
  - unfold stop, andThen, reading, update.
    destruct (stopHeartbeat _) as [w1 e1].
    by destruct (ws (self w1)).
  - revert w. change (keeps lastSequence (socket_state OPEN)).
    unfold socket_state. keeps_auto.
  - unfold handlePayload. rewrite andThen_fst.
    rewrite (frame_keeps_seq env (body payload)).
    by destruct (s payload).
  - revert w. change (keeps lastSequence
                        (socket_state CLOSED ;; on_close code reason)).
    unfold socket_state, on_close. keeps_auto.
  - done.
  - revert w. change (keeps lastSequence (reconnect_timer_fired env)).
    unfold reconnect_timer_fired. keeps_auto.
  - revert w. change (keeps lastSequence invalid_session_timer_fired).
    unfold invalid_session_timer_fired. keeps_auto.
  - revert w. change (keeps lastSequence heartbeat_tick).
    unfold heartbeat_tick. keeps_auto.
Qed.

Lemma ack_sets_lastSequence
    (n : Z) (env : ReconnectEnv) (w : world) :
  lastSequence (self (handle (SocketMessage (ack n) env) w).1) = Some n.
Proof.
  unfold handle, handlePayload. rewrite andThen_fst.
  by rewrite (frame_keeps_seq env (body (ack n))).
Qed.

(** C7 (counterexample). After a frame with sequence number 5, a frame
    with sequence number 3 on the same open connection brings
    [lastSequence] down from 5 to 3. *)
Lemma lastSequence_can_decrease :
  let before :=
    (run [Start (start_env "t" 100); SocketOpen;
          SocketMessage (ack 5) (reconnect_env "t")] cold_world).1 in
  let after := (handle (SocketMessage (ack 3) (reconnect_env "t")) before).1 in
  lastSequence (self before) = Some 5%Z
  ∧ lastSequence (self after) = Some 3%Z
  ∧ ¬ seq_le (lastSequence (self before)) (lastSequence (self after)).
Proof.
  assert (lastSequence
            (self (run [Start (start_env "t" 100); SocketOpen;
                        SocketMessage (ack 5) (reconnect_env "t")]
                       cold_world).1) = Some 5%Z) as Hbefore by by vm_compute.
  cbn zeta. rewrite ack_sets_lastSequence, Hbefore.
  split; [done|]. split; [done|]. cbn. lia.
Qed.

(** When the sequence numbers of the frames do not decrease, neither does
    [lastSequence]. *)
Lemma lastSequence_monotone_frames
    (env : ReconnectEnv) (payload : WSPayload) (w : world) :
  seq_le (lastSequence (self w)) (s payload) ∨ s payload = None →
  seq_le (lastSequence (self w))
         (lastSequence (self (handle (SocketMessage payload env) w).1)).
Proof.
  intros Hle. unfold handle, handlePayload. rewrite andThen_fst.
  rewrite (frame_keeps_seq env (body payload)).
  destruct (s payload) as [n|]; cbn.
  - by destruct Hle.
  - destruct (lastSequence (self w)); cbn; [lia | done].
Qed.

(** After any run of frames, [lastSequence] is the number of the last
    frame that carried one. *)
Lemma lastSequence_after_frames
    (env : ReconnectEnv) (frames : list WSPayload) (w : world) :
  lastSequence (self (run ((λ payload, SocketMessage payload env) <$> frames) w).1)
  = last_seq (lastSequence (self w)) frames.
Proof.
  revert w. induction frames as [|payload frames IH]; intros w; [done|].
  cbn [fmap list_fmap run]. rewrite andThen_fst, IH.
  unfold last_seq. cbn [foldl]. f_equal.
  unfold handle, handlePayload. rewrite andThen_fst.
  rewrite (frame_keeps_seq env (body payload)).
  by destruct (s payload).
Qed.

(** *** Reconnect scheduling *)

Lemma scheduleReconnect_schedules (w : world) :
  isClosing (self w) = false → isFatalError (self w) = false →
  reconnectAttempts (self w) < maxReconnectAttempts →
  scheduleReconnect w
  = (with_attempts (S (reconnectAttempts (self w))) w,
     [SetTimeout ReconnectTimer (backoff (S (reconnectAttempts (self w))))]).
Proof.
  intros Hc Hf Hn. unfold scheduleReconnect, reading.
  rewrite Hc, Hf. cbn [orb]. rewrite bool_decide_false by lia.
  unfold andThen, update, emit, with_attempts, backoff, baseReconnectDelay.
  cbn [fst snd app]. do 3 f_equal.
  replace (Z.of_nat (S (reconnectAttempts (self w)) - 1))
    with (Z.of_nat (S (reconnectAttempts (self w))) - 1)%Z by lia.
  done.
Qed.

Lemma scheduleReconnect_gives_up (w : world) :
  isClosing (self w) = false → isFatalError (self w) = false →
  maxReconnectAttempts ≤ reconnectAttempts (self w) →
  scheduleReconnect w
  = (w, [OnError (Error "Max reconnect attempts reached")]).
Proof.
  intros Hc Hf Hn. unfold scheduleReconnect, reading.
  rewrite Hc, Hf. cbn [orb]. by rewrite bool_decide_true by lia.
Qed.

Lemma scheduleReconnect_stopped (w : world) :
  isClosing (self w) = true ∨ isFatalError (self w) = true →
  scheduleReconnect w = (w, []).
Proof.
  intros Hstop. unfold scheduleReconnect, reading.
  by destruct Hstop as [-> | ->]; [|rewrite orb_true_r].
Qed.

(** The five delays, none of which reaches the cap. *)
Lemma backoff_values :
  backoff <$> [1; 2; 3; 4; 5] = [5000; 10000; 20000; 40000; 80000]%Z.
Proof. reflexivity. Qed.



(** *** Starting *)

Lemma getAccessToken_issued
    (c : QQApiClient) (forceRefresh : bool) (now : Z) (data : TokenResponse) :
  ∃ token,
    outcome (getAccessToken c forceRefresh now (HttpOk data)) = Returned token.
Proof.
  unfold getAccessToken. destruct (getAccessToken_begin _ _ _); by eexists.
Qed.

Lemma getGateway_answered
    (c : QQApiClient) (now : Z) (data : TokenResponse) (g : GatewayResponse) :
  ∃ c' reqs,
    getGateway c now (HttpOk data) (HttpOk g) = (c', Returned g, reqs).
Proof.
  unfold getGateway, request.
  destruct (getAccessToken_issued c false now data) as [token ->].
  by eexists _, _.
Qed.

Lemma token_requests_no_error (reqs : list TokenRequest) :
  filter is_on_error (TokenRequested <$> reqs) = [].
Proof. induction reqs as [|r reqs IH]; [done|]. exact IH. Qed.

Lemma token_requests_quiet (reqs : list TokenRequest) :
  quiet (TokenRequested <$> reqs).
Proof. unfold quiet. induction reqs; by constructor. Qed.

(** C5. When the discovery call of [start] returns a response with
    [session_start_limit.remaining = 0], [start] opens no socket and sets no
    timer, marks the transport as failed, and calls [onError] once, with an
    error whose message carries the reset time
    [Date.now() + reset_after]. *)
Theorem start_quota_exhausted
    (env : StartEnv) (w : world) (token : string) (c' : QQApiClient)
    (reqs : list TokenRequest) (g : GatewayResponse)
    (limit : SessionStartLimit) :
  let call :=
    getAccessToken (apiClient w) false (token_now env) (token_net env) in
  outcome call = Returned token →
  getGateway (client_after call) (gateway_now env) (gateway_token_net env)
             (gateway_net env) = (c', Returned g, reqs) →
  session_start_limit g = Some limit →
  remaining limit = 0%Z →
  ws (self (start env w).1) = ws (self w)
  ∧ quiet (start env w).2
  ∧ isFatalError (self (start env w).1) = true
  ∧ filter is_on_error (start env w).2
    = [OnError (Error ("Session quota exhausted, resets at "
                       +:+ toLocaleString env (quota_now env + reset_after limit)))].
Proof.
  cbn zeta. intros Htoken Hgateway Hlimit Hleft.
  unfold start, andThen, reading. cbv beta.
  destruct (bool_decide (reconnectAttempts (self w) = 0));
    cbn [update skip fst snd apiClient];
    destruct (getAccessToken _ _ _ _) as [c1 out1 reqs1];
    cbn in Htoken, Hgateway; subst out1;
    cbn [outcome client_after requests emit_all set_client set_cached fst snd];
    rewrite Hgateway, Hlimit, Hleft; cbn.
  all: split; [done|]; split; [|split; [done|]].
  all: try (unfold quiet; rewrite !Forall_app; split_and!;
            [apply token_requests_quiet | apply token_requests_quiet
            | by repeat constructor]).
  all: rewrite !filter_app, !token_requests_no_error; done.
Qed.

Lemma start_quota_exhausted_witness :
  quiet (start (start_env "t" 0) cold_world).2
  ∧ isFatalError (self (start (start_env "t" 0) cold_world).1) = true
  ∧ filter is_on_error (start (start_env "t" 0) cold_world).2
    = [OnError (Error "Session quota exhausted, resets at 61002")].
Proof.
  destruct (start_quota_exhausted (start_env "t" 0) cold_world "t"
              {| appId := "102824573"; appSecret := "secret";
                 baseUrl := PRODUCTION_API_BASE;
                 accessToken := Some "t"; tokenExpiresAt := 7201000 |}
              []
              {| url := "wss://api.sgroup.qq.com/websocket"; shards := 1;
                 session_start_limit :=
                   Some {| total := 1000; remaining := 0;
                           reset_after := 60000; max_concurrency := 1 |} |}
              {| total := 1000; remaining := 0;
                 reset_after := 60000; max_concurrency := 1 |})
    as (_ & Hquiet & Hfatal & Herror); [reflexivity..|].
  split; [exact Hquiet | split; [exact Hfatal | exact Herror]].
Defined.

End RuntimeFacts.

(** ** The transport between its awaits: closing *)

Module LoopFacts.
Import Client Wire Runtime Observe Samples Loop RuntimeFacts.
Local Open Scope action_scope.

(** *** Pieces of the transport's code run from the loop *)

Lemma run_transport_fst (a : Runtime.action) (w : world) :
  transport (run_transport a w).1 = (a (transport w)).1.
Proof. unfold run_transport. by destruct (a (transport w)). Qed.

Lemma run_transport_snd (a : Runtime.action) (w : world) :
  (run_transport a w).2 = (a (transport w)).2.
Proof. unfold run_transport. by destruct (a (transport w)). Qed.

Lemma run_transport_suspended (a : Runtime.action) (w : world) :
  suspended (run_transport a w).1 = suspended w.
Proof. unfold run_transport. by destruct (a (transport w)). Qed.

(** An event of a socket changes nothing but the ready state of the socket
    the transport holds. *)
Lemma socket_event_fields (sock : nat) (st : ReadyState) (w : world) :
  (socket_event sock st w).2 = []
  ∧ suspended (socket_event sock st w).1 = suspended w
  ∧ heartbeatInterval (self (transport (socket_event sock st w).1))
    = heartbeatInterval (self (transport w))
  ∧ isClosing (self (transport (socket_event sock st w).1))
    = isClosing (self (transport w))
  ∧ isFatalError (self (transport (socket_event sock st w).1))
    = isFatalError (self (transport w))
  ∧ reconnectAttempts (self (transport (socket_event sock st w).1))
    = reconnectAttempts (self (transport w)).
Proof.
  unfold socket_event, run_transport, socket_state, reading.
  case_bool_decide; [|done].
  by destruct (ws (self (transport w))).
Qed.

(** *** With nothing in between

    The turns of [start] and of [reconnect] run one after the other are
    the runs [Runtime.start] and [Runtime.reconnect]. *)

Lemma run_cons (ev : event) (evs : list event) (w : world) :
  run (ev :: evs) w
  = ((run evs (handle ev w).1).1,
     (handle ev w).2 ++ (run evs (handle ev w).1).2).
Proof.
  cbn [run]. unfold andThen. destruct (handle ev w) as [w1 e1].
  cbn [fst snd]. by destruct (run evs w1).
Qed.

Lemma start_uninterrupted (env : StartEnv) (w : world) :
  suspended w = [] →
  transport (run (uninterrupted_start env) w).1
  = (Runtime.start env (transport w)).1
  ∧ (run (uninterrupted_start env) w).2 = (Runtime.start env (transport w)).2
  ∧ suspended (run (uninterrupted_start env) w).1 = [].
Proof.
  intros Hs. destruct w as [[cached c r] n susp]. cbn in Hs. subst susp.
  destruct env as [tn tnet gn gtnet gnet qn tls sthrows].
  unfold uninterrupted_start, Runtime.start, getGateway, request, getAccessToken.
  cbn [run handle token_now token_net gateway_now gateway_token_net gateway_net quota_now toLocaleString socket_throws].
  unfold start, go_on, after_token, after_gateway_token, after_gateway,
    call_getAccessToken, token_result, enter_start, take_up, suspend,
    run_transport, reading, andThen, api_result, open_socket, Runtime.open_socket,
    start_failed, scheduleReconnect, reading, andThen.
  cbn.
  destruct (bool_decide (reconnectAttempts r = 0)); cbn.
  all: destruct (getAccessToken_begin c false tn); cbn.
  all: try (destruct tnet; cbn).
  all: repeat match goal with
       | |- context [getAccessToken_begin ?c ?f ?n] =>
         destruct (getAccessToken_begin c f n); cbn
       | |- context [if isClosing ?r || ?b then _ else _] =>
         destruct (isClosing r), (isFatalError r); cbn
       | |- context [if bool_decide ?P then _ else _] =>
         destruct (bool_decide P); cbn
       end.
  all: try done.
  all: try (destruct gtnet; cbn).
  all: repeat match goal with
       | |- context [if isClosing ?r || ?b then _ else _] =>
         destruct (isClosing r), (isFatalError r); cbn
       | |- context [if bool_decide ?P then _ else _] =>
         destruct (bool_decide P); cbn
       end.
  all: try done.
  all: destruct gnet as [| | |[u sh [limit|]]], sthrows; cbn.
  all: repeat match goal with
       | |- context [if (?a =? ?b)%Z then _ else _] =>
         destruct (a =? b)%Z; cbn
       | |- context [if isClosing ?r || ?b then _ else _] =>
         destruct (isClosing r), (isFatalError r); cbn
       | |- context [if bool_decide ?P then _ else _] =>
         destruct (bool_decide P); cbn
       end.
  all: try done.
Qed.

Lemma let_pair_eta {A B} (x : A * B) : (let '(a, b) := x in (a, b)) = x.
Proof. by destruct x. Qed.

(** [reconnect] up to the answer of the issuance endpoint. *)
Lemma reconnect_then_refreshed
    (now : Z) (r : fetch_result TokenResponse) (now' : Z) (w : world) :
  suspended w = [] →
  ∃ w2,
    suspended w2 = []
    ∧ handle (Answered 0 (TokenAnswer r) now') (reconnect now w).1
      = start now' w2
    ∧ ∀ env, refresh_now env = now → refresh_net env = r →
        Runtime.reconnect env (transport w)
        = ((Runtime.start (restart env) (transport w2)).1,
           (reconnect now w).2
           ++ (Runtime.start (restart env) (transport w2)).2).
Proof.
  intros Hs.
  destruct w as [[cached c [sock hb seq sid att clo fat lcc]] n susp].
  cbn in Hs. subst susp.
  unfold reconnect, Runtime.reconnect, handle, go_on, after_refresh,
    call_getAccessToken, getAccessToken, getAccessToken_begin, cache_valid,
    close_socket, stopHeartbeat, take_up, suspend, run_transport.
  cbn [negb andb].
  unfold reading, andThen. cbn -[start Runtime.start].
  destruct hb, sock, r; cbn -[start Runtime.start].
  all: eexists; split; [|split];
    [ | rewrite !let_pair_eta; reflexivity
      | intros env -> ->; cbn -[start Runtime.start];
        by destruct (Runtime.start (restart env) _) ].
  all: reflexivity.
Qed.

(** An answer nobody waits for does nothing. *)
Lemma answer_without_call (i : nat) (a : answer) (now : Z) (w : world) :
  suspended w !! i = None → handle (Answered i a now) w = (w, []).
Proof. intros Hnone. cbn [handle]. unfold go_on, reading. by rewrite Hnone. Qed.

Lemma reconnect_uninterrupted (env : ReconnectEnv) (w : world) :
  suspended w = [] →
  transport (run (uninterrupted_reconnect env) w).1
  = (reconnect_timer_fired env (transport w)).1
  ∧ (run (uninterrupted_reconnect env) w).2
    = (reconnect_timer_fired env (transport w)).2
  ∧ suspended (run (uninterrupted_reconnect env) w).1 = [].
Proof.
  intros Hs. unfold uninterrupted_reconnect, reconnect_timer_fired.
  rewrite run_cons. cbn [handle]. unfold reading.
  destruct (negb (isClosing (self (transport w)))
            && negb (isFatalError (self (transport w)))).
  - destruct (reconnect_then_refreshed (refresh_now env) (refresh_net env)
                (token_now (restart env)) w Hs) as (w2 & Hs2 & Hturn & Hrun).
    rewrite run_cons, Hturn, (Hrun env eq_refl eq_refl). cbn [fst snd].
    destruct (start_uninterrupted (restart env) w2 Hs2) as (Ht & He & Hsusp).
    unfold uninterrupted_start in Ht, He, Hsusp.
    rewrite run_cons in Ht, He, Hsusp. cbn [fst snd handle] in Ht, He, Hsusp.
    by rewrite Ht, He, Hsusp.
  - unfold skip. cbn [fst snd].
    repeat (rewrite run_cons, answer_without_call by (by rewrite Hs);
            cbn [fst snd]).
    done.
Qed.

(** *** The close handler *)

Lemma on_close_fatal (t : Runtime.world) (code : Z) (reason : string) :
  code ∈ FATAL_CLOSE_CODES →
  ∃ pre,
    Forall (λ e, e = ClearInterval) pre
    ∧ (on_close code reason t).2
      = pre ++ [OnError (Error ("Fatal WebSocket error: " +:+ pretty code
                                +:+ " " +:+ reason))]
    ∧ isFatalError (self (on_close code reason t).1) = true.
Proof.
  intros Hfatal. unfold on_close, stopHeartbeat, andThen, reading.
  cbv beta. rewrite bool_decide_true by done.
  destruct (heartbeatInterval (self t)); cbn.
  - by exists [ClearInterval]; repeat constructor.
  - by exists []; repeat constructor.
Qed.

Lemma on_close_transient (t : Runtime.world) (code : Z) (reason : string) :
  code ∉ FATAL_CLOSE_CODES →
  isClosing (self t) = false → isFatalError (self t) = false →
  ∃ pre t1,
    Forall (λ e, e = ClearInterval) pre
    ∧ isClosing (self t1) = false ∧ isFatalError (self t1) = false
    ∧ reconnectAttempts (self t1) = reconnectAttempts (self t)
    ∧ on_close code reason t
      = ((scheduleReconnect t1).1, pre ++ (scheduleReconnect t1).2).
Proof.
  intros Hcode Hc Hf. unfold on_close, stopHeartbeat, andThen, reading.
  cbv beta. rewrite bool_decide_false by done.
  destruct (heartbeatInterval (self t)); cbn; rewrite Hc, Hf; cbn.
  all: match goal with
       | |- context [scheduleReconnect ?t1] =>
         destruct (scheduleReconnect t1) as [t2 es] eqn:Hs;
         first
           [ by (exists [], t1; rewrite Hs; split_and!;
                 try done; repeat constructor)
           | by (exists [ClearInterval], t1; rewrite Hs; split_and!;
                 try done; repeat constructor) ]
       end.
Qed.

(** On a transport that has failed the close handler sets no timer. *)
Lemma on_close_failed (t : Runtime.world) (code : Z) (reason : string) :
  isFatalError (self t) = true →
  isFatalError (self (on_close code reason t).1) = true
  ∧ quiet (on_close code reason t).2.
Proof.
  intros Hf. unfold on_close, stopHeartbeat, andThen, reading. cbv beta.
  destruct (heartbeatInterval (self t)), (bool_decide (code ∈ FATAL_CLOSE_CODES));
    cbn; rewrite ?Hf, ?andb_false_r; cbn; split; try done;
    by repeat constructor.
Qed.

Lemma filter_clear_intervals (p : effect → bool) (pre : list effect) :
  p ClearInterval = false → Forall (λ e, e = ClearInterval) pre →
  filter p pre = [].
Proof.
  intros Hp. induction 1 as [|e pre -> _ IH]; [done|].
  rewrite filter_cons_False by (rewrite Hp; exact id). exact IH.
Qed.

(** The close event of any socket, as the close handler on the transport
    with the ready state moved. *)
Lemma close_event (sock : nat) (code : Z) (reason : string) (w : world) :
  ∃ t,
    heartbeatInterval (self t) = heartbeatInterval (self (transport w))
    ∧ isClosing (self t) = isClosing (self (transport w))
    ∧ isFatalError (self t) = isFatalError (self (transport w))
    ∧ reconnectAttempts (self t) = reconnectAttempts (self (transport w))
    ∧ transport (handle (SocketClose sock code reason) w).1
      = (on_close code reason t).1
    ∧ (handle (SocketClose sock code reason) w).2 = (on_close code reason t).2
    ∧ suspended (handle (SocketClose sock code reason) w).1 = suspended w.
Proof.
  destruct (socket_event_fields sock CLOSED w)
    as (Hes & Hsusp & Hhb & Hc & Hf & Hn).
  exists (transport (socket_event sock CLOSED w).1).
  cbn [handle]. rewrite andThen_fst, andThen_snd.
  rewrite run_transport_fst, run_transport_snd, run_transport_suspended, Hes.
  done.
Qed.

(** *** A failed transport with no call suspended

    Once failed and with no call of [start] or [reconnect] waiting at an
    [await], the transport does not move again by itself. *)
Lemma unattended_step_failed (ev : event) (w : world) :
  unattended ev = true →
  isFatalError (self (transport w)) = true → suspended w = [] →
  (isFatalError (self (transport (handle ev w).1)) = true
   ∧ suspended (handle ev w).1 = [])
  ∧ quiet (handle ev w).2.
Proof.
  intros Hev Hf Hs. destruct ev; try done.
  - destruct (socket_event_fields sock OPEN w)
      as (Hes & Hsusp & _ & _ & Hfatal & _).
    cbn [handle]. rewrite Hes, Hsusp, Hfatal.
    repeat split; try done; by constructor.
  - destruct (close_event sock code reason w)
      as (t & _ & _ & Hfatal & _ & -> & -> & ->).
    rewrite Hf in Hfatal.
    destruct (on_close_failed t code reason Hfatal). by repeat split.
  - cbn [handle]. rewrite run_transport_fst, run_transport_snd,
      run_transport_suspended.
    repeat split; try done. by repeat constructor.
  - cbn [handle]. unfold reading. rewrite Hf, andb_false_r.
    repeat split; try done; by constructor.
  - cbn [handle]. rewrite run_transport_fst, run_transport_snd,
      run_transport_suspended.
    unfold invalid_session_timer_fired, reading. rewrite Hf, andb_false_r.
    repeat split; try done; by constructor.
  - cbn [handle]. rewrite run_transport_fst, run_transport_snd,
      run_transport_suspended.
    unfold heartbeat_tick, send, reading.
    destruct (ws (self (transport w))) as [[u []]|]; cbn; repeat split;
      try done; by repeat constructor.
  - cbn [handle]. unfold go_on, reading. rewrite Hs.
    repeat split; try done; by constructor.
Qed.

Lemma unattended_run_failed (evs : list event) (w : world) :
  Forall (λ ev, unattended ev = true) evs →
  isFatalError (self (transport w)) = true → suspended w = [] →
  isFatalError (self (transport (run evs w).1)) = true
  ∧ quiet (run evs w).2.
Proof.
  intros Hevs. revert w.
  induction Hevs as [|ev evs Hev _ IH]; intros w Hf Hs.
  - split; [done|constructor].
  - cbn [run]. rewrite andThen_fst, andThen_snd.
    destruct (unattended_step_failed ev w Hev Hf Hs) as [[Hf1 Hs1] Hq1].
    destruct (IH _ Hf1 Hs1) as [Hf2 Hq2].
    split; [done|]. unfold quiet. by apply Forall_app.
Qed.

(** C2 (as amended). A close of any socket of the transport with a code of
    the fatal set marks the transport as failed, calls [onError] exactly
    once and sets no timer and dials no socket in that handler; and when no
    call of [start] or [reconnect] is waiting at an [await] as the close
    arrives, the transport stays failed and sets no timer and dials no
    socket on any later timer, heartbeat tick, answer of the network, or
    open, close or error event of a socket.  A close with any other code,
    when the transport is neither stopping nor already failed, schedules a
    reconnect if fewer than five attempts have been made since the last
    Ready; after five attempts it calls [onError] with the terminal error
    and schedules nothing. *)
Theorem close_classification
    (w : world) (sock : nat) (code : Z) (reason : string) :
  (code ∈ FATAL_CLOSE_CODES →
   isFatalError (self (transport (handle (SocketClose sock code reason) w).1))
   = true
   ∧ filter is_on_error (handle (SocketClose sock code reason) w).2
     = [OnError (Error ("Fatal WebSocket error: " +:+ pretty code
                        +:+ " " +:+ reason))]
   ∧ quiet (handle (SocketClose sock code reason) w).2
   ∧ (suspended w = [] →
      ∀ evs, Forall (λ ev, unattended ev = true) evs →
        isFatalError
          (self (transport
                   (run evs (handle (SocketClose sock code reason) w).1).1))
        = true
        ∧ quiet (run evs (handle (SocketClose sock code reason) w).1).2))
  ∧ (code ∉ FATAL_CLOSE_CODES →
     isClosing (self (transport w)) = false →
     isFatalError (self (transport w)) = false →
     (reconnectAttempts (self (transport w)) < 5 →
      filter is_retry (handle (SocketClose sock code reason) w).2
      = [SetTimeout ReconnectTimer
           (backoff (S (reconnectAttempts (self (transport w)))))]
      ∧ filter is_on_error (handle (SocketClose sock code reason) w).2 = [])
     ∧ (5 ≤ reconnectAttempts (self (transport w)) →
        quiet (handle (SocketClose sock code reason) w).2
        ∧ filter is_on_error (handle (SocketClose sock code reason) w).2
          = [OnError (Error "Max reconnect attempts reached")])).
Proof.
  destruct (close_event sock code reason w)
    as (t & _ & Hc & Hf & Hn & Ht & Hes & Hsusp).
  split.
  - intros Hfatal.
    destruct (on_close_fatal t code reason Hfatal) as (pre & Hpre & Hpost & Hfail).
    rewrite Ht, Hes, Hpost. split; [done|]. split; [|split].
    + rewrite filter_app, (filter_clear_intervals _ pre) by done. done.
    + unfold quiet. apply Forall_app. split; [|by repeat constructor].
      eapply Forall_impl; [exact Hpre|]. by intros e ->.
    + intros Hnone evs Hevs. apply unattended_run_failed; [done| |].
      * by rewrite Ht.
      * by rewrite Hsusp.
  - intros Hcode Hclosing Hfailed.
    rewrite <- Hc in Hclosing. rewrite <- Hf in Hfailed. rewrite <- Hn.
    destruct (on_close_transient t code reason Hcode Hclosing Hfailed)
      as (pre & t1 & Hpre & Hc1 & Hf1 & Hn1 & Hclose).
    rewrite Hes, Hclose. cbn [fst snd]. split.
    + intros Hlt.
      rewrite scheduleReconnect_schedules
        by (try done; unfold maxReconnectAttempts; lia).
      cbn [snd]. rewrite !filter_app, !(filter_clear_intervals _ pre) by done.
      by rewrite Hn1.
    + intros Hge.
      rewrite scheduleReconnect_gives_up
        by (try done; unfold maxReconnectAttempts; lia).
      cbn [snd]. split.
      * unfold quiet. apply Forall_app. split; [|by repeat constructor].
        eapply Forall_impl; [exact Hpre|]. by intros e ->.
      * by rewrite filter_app, (filter_clear_intervals _ pre) by done.
Qed.

Lemma close_classification_witness :
  filter is_on_error (handle (SocketClose 0 4004 "auth") (fresh cold_client)).2
  = [OnError (Error "Fatal WebSocket error: 4004 auth")]
  ∧ isFatalError
      (self (transport
               (run [ReconnectTimerFired 9000; InvalidSessionTimerFired]
                    (handle (SocketClose 0 4004 "auth")
                            (fresh cold_client)).1).1)) = true
  ∧ filter is_retry (handle (SocketClose 0 1006 "") (fresh cold_client)).2
    = [SetTimeout ReconnectTimer 5000].
Proof.
  pose proof (close_classification (fresh cold_client) 0 4004 "auth")
    as [Hfatal _].
  pose proof (close_classification (fresh cold_client) 0 1006 "")
    as [_ Htransient].
  assert (4004%Z ∈ FATAL_CLOSE_CODES) as Hcode
    by (apply (bool_decide_eq_true_1 (4004%Z ∈ FATAL_CLOSE_CODES));
        by vm_compute).
  destruct (Hfatal Hcode) as (_ & Honce & _ & Hlater).
  split; [exact Honce|]. split.
  - apply (Hlater eq_refl). by repeat constructor.
  - apply Htransient;
      [apply (bool_decide_eq_false_1 (1006%Z ∈ FATAL_CLOSE_CODES)); by vm_compute
      | reflexivity | reflexivity | cbn; lia].
Defined.

(** C2 (counterexample). After five connections that each closed
    abnormally before Ready, six sockets have been dialled, the transport
    is neither stopping nor failed, and a further close with the non-fatal
    code 1006 schedules no reconnect. *)
Lemma transient_close_without_reconnect :
  sockets (run five_failures (fresh cold_client)).1 = 6
  ∧ isClosing (self (transport (run five_failures (fresh cold_client)).1))
    = false
  ∧ isFatalError (self (transport (run five_failures (fresh cold_client)).1))
    = false
  ∧ (1006%Z ∉ FATAL_CLOSE_CODES)
  ∧ filter is_retry
      (handle (SocketClose 6 1006 "")
              (run five_failures (fresh cold_client)).1).2 = [].
Proof.
  split; [by vm_compute|]. split; [by vm_compute|]. split; [by vm_compute|].
  split; [|by vm_compute].
  apply (bool_decide_eq_false_1 (1006%Z ∈ FATAL_CLOSE_CODES)). by vm_compute.
Qed.

(** Why the close must find no call suspended.  The server asks for a
    reconnect and then closes the socket with the code 4004 while
    [reconnect] waits for the token: the transport is failed when the
    handler ends, and yet the answers that follow take [reconnect] on into
    [start], which clears the flag and dials; the timer of an
    InvalidSession frame then finds the transport running and schedules a
    reconnect. *)
Lemma fatal_close_while_reconnecting :
  isFatalError
    (self (transport (run reconnect_then_fatal_close (fresh cold_client)).1))
  = true
  ∧ suspended (run reconnect_then_fatal_close (fresh cold_client)).1
    = [AfterRefresh 2000]
  ∧ Forall (λ ev, unattended ev = true) answers_of_restart
  ∧ filter is_retry
      (run answers_of_restart
           (run reconnect_then_fatal_close (fresh cold_client)).1).2
    = [NewWebSocket "wss://api.sgroup.qq.com/websocket"]
  ∧ isFatalError
      (self (transport
               (run (reconnect_then_fatal_close ++ answers_of_restart)
                    (fresh cold_client)).1)) = false
  ∧ filter is_retry
      (handle InvalidSessionTimerFired
              (run (reconnect_then_fatal_close ++ answers_of_restart)
                   (fresh cold_client)).1).2
    = [SetTimeout ReconnectTimer 5000].
Proof.
  split; [by vm_compute|]. split; [by vm_compute|].
  split; [by repeat constructor|].
  split; [by vm_compute|]. split; by vm_compute.
Qed.

End LoopFacts.

Module LegacyFacts.
Import Client Wire Observe.

(** The older transport waits [5000 * n] ms before its [n]-th reconnect. *)
Lemma legacy_delay_is_linear (w : Legacy.world) :
  Legacy.isClosing (Legacy.self w) = false →
  Legacy.reconnectAttempts (Legacy.self w) < 5 →
  (Legacy.scheduleReconnect w).2
  = [SetTimeout ReconnectTimer
       (5000 * Z.of_nat (S (Legacy.reconnectAttempts (Legacy.self w))))].
Proof.
  intros Hc Hn. unfold Legacy.scheduleReconnect, reading. rewrite Hc.
  rewrite bool_decide_false by (unfold Legacy.maxReconnectAttempts; lia).
  reflexivity.
Qed.

(** The older transport has no fatal set: every close of a transport that
    is not stopping and has attempts left sets the reconnect timer, whatever
    the code. *)
Lemma legacy_close_reconnects (w : Legacy.world) (code : Z) (reason : string) :
  Legacy.isClosing (Legacy.self w) = false →
  Legacy.reconnectAttempts (Legacy.self w) < 5 →
  filter is_retry (Legacy.on_close code reason w).2
  = [SetTimeout ReconnectTimer
       (5000 * Z.of_nat (S (Legacy.reconnectAttempts (Legacy.self w))))].
Proof.
  intros Hc Hn.
  unfold Legacy.on_close, Legacy.stopHeartbeat, Legacy.scheduleReconnect,
    andThen, reading. cbv beta.
  destruct (Legacy.heartbeatInterval (Legacy.self w)); cbn;
    rewrite Hc; cbn; rewrite Hc; cbn;
    rewrite bool_decide_false by (unfold Legacy.maxReconnectAttempts; lia);
    reflexivity.
Qed.

(** A close with the authentication-failure code 4004 on a fresh older
    transport sets the reconnect timer. *)
Lemma legacy_close_4004_reconnects (c : QQApiClient) :
  (Legacy.on_close 4004 "auth"
     {| Legacy.cachedAccessToken := None; Legacy.apiClient := c;
        Legacy.self :=
          {| Legacy.ws := None; Legacy.heartbeatInterval := None;
             Legacy.lastSequence := None; Legacy.sessionId := None;
             Legacy.reconnectAttempts := 0; Legacy.isClosing := false |} |}).2
  = [SetTimeout ReconnectTimer 5000].
Proof. reflexivity. Qed.

(** The older [start] does not look at the session quota: with no starts
    left it still dials the socket. *)
Lemma legacy_start_ignores_quota (c : QQApiClient) (t : TokenResponse)
    (g : GatewayResponse) :
  let env :=
    {| Legacy.token_now := 0; Legacy.token_net := HttpOk t;
       Legacy.gateway_now := 0; Legacy.gateway_token_net := HttpOk t;
       Legacy.gateway_net := HttpOk g; Legacy.socket_throws := None |} in
  let w :=
    {| Legacy.cachedAccessToken := None; Legacy.apiClient := c;
       Legacy.self :=
         {| Legacy.ws := None; Legacy.heartbeatInterval := None;
            Legacy.lastSequence := None; Legacy.sessionId := None;
            Legacy.reconnectAttempts := 0; Legacy.isClosing := false |} |} in
  NewWebSocket (url g) ∈ (Legacy.start env w).2.
Proof.
  cbn zeta. unfold Legacy.start, andThen, reading. cbv beta.
  cbn [Legacy.token_net Legacy.token_now Legacy.apiClient Legacy.gateway_now
       Legacy.gateway_token_net Legacy.gateway_net Legacy.socket_throws].
  destruct (RuntimeFacts.getAccessToken_issued c false 0 t) as [token Htoken].
  destruct (getAccessToken c false 0 (HttpOk t)) as [c1 out1 reqs1].
  cbn in Htoken. subst out1. cbn [outcome client_after requests].
  destruct (RuntimeFacts.getGateway_answered c1 0 t g) as (c' & reqs & ->).
  cbn. rewrite !elem_of_app. right. right. apply list_elem_of_here.
Qed.

End LegacyFacts.

Module ProcessFacts.
Import Client Wire Process Samples.

(** A transport handler leaves the clients of the other accounts alone. *)
Lemma on_account_other_client
    (id other : string) (a : Runtime.action) (p : process) :
  id ≠ other →
  apiClients (on_account id a p).1 !! other = apiClients p !! other.
Proof.
  intros Hne. unfold on_account.
  destruct (activeRuntimes p !! id), (apiClients p !! id); try done.
  destruct (a _) as [w es]. cbn. by rewrite lookup_insert_ne.
Qed.

(** C8 (the code differs from the claim). [cachedAccessToken] is one
    variable for the whole process.  When account B starts between the start
    of account A and the Hello frame of A, the Identify frame of A carries
    the token issued to B: two runs that differ only in that token give
    different Identify tokens for A, and neither is the token issued to A. *)
Theorem identify_carries_latest_token (tokenB : string) :
  identify_tokens "A" (run (two_accounts tokenB) boot).2
  = ["QQBot " +:+ tokenB]
  ∧ accessToken <$> apiClients (run (two_accounts tokenB) boot).1 !! "A"
    = Some (Some "tokenA").
Proof. destruct tokenB; by vm_compute. Qed.

(** Two such runs, told apart by the Identify frame of A. *)
Lemma identify_depends_on_other_account :
  identify_tokens "A" (run (two_accounts "tokenB") boot).2 = ["QQBot tokenB"]
  ∧ identify_tokens "A" (run (two_accounts "tokenB'") boot).2
    = ["QQBot tokenB'"]
  ∧ identify_tokens "A" (run (two_accounts "tokenB") boot).2
    ≠ identify_tokens "A" (run (two_accounts "tokenB'") boot).2.
Proof. split_and!; by vm_compute. Qed.

End ProcessFacts.

Module SignatureExtras.
Import Signature SignatureFacts.

Lemma bind_Return {A B} (a : A) (k : A → completion B) :
  (Return a ≫= k) = k a.
Proof. reflexivity. Qed.

(** *** Hexadecimal encoding *)

Lemma byte_cases (P : Z → Prop) `{!∀ x, Decision (P x)} :
  bool_decide (Forall P (Z.of_nat <$> seq 0 256)) = true →
  ∀ x, (0 ≤ x < 256)%Z → P x.
Proof.
  intros HP x Hx. apply bool_decide_eq_true_1 in HP.
  rewrite Forall_forall in HP. apply HP.
  apply list_elem_of_fmap. exists (Z.to_nat x). split; [lia|].
  apply elem_of_seq. lia.
Qed.

(** One byte is written as two lower-case digits and read back unchanged. *)
Lemma byte_hex_round_trip (x : Z) :
  (0 ≤ x < 256)%Z →
  padStart2 (toString16 x) = [hex_char (x / 16); hex_char (x `mod` 16)]
  ∧ to_uint8 (parseInt16 [hex_char (x / 16); hex_char (x `mod` 16)]) = x
  ∧ hex_char (x / 16) ∈ lit "0123456789abcdef"
  ∧ hex_char (x `mod` 16) ∈ lit "0123456789abcdef".
Proof.
  revert x.
  apply (byte_cases (λ x,
    padStart2 (toString16 x) = [hex_char (x / 16); hex_char (x `mod` 16)]
    ∧ to_uint8 (parseInt16 [hex_char (x / 16); hex_char (x `mod` 16)]) = x
    ∧ hex_char (x / 16) ∈ lit "0123456789abcdef"
    ∧ hex_char (x `mod` 16) ∈ lit "0123456789abcdef")).
  by vm_compute.
Qed.

Lemma hexToBytes_cons (a b : Z) (rest : js_string) :
  hexToBytes (a :: b :: rest) = to_uint8 (parseInt16 [a; b]) :: hexToBytes rest.
Proof.
  unfold hexToBytes. cbn [length].
  replace (S (S (length rest)) / 2) with (S (length rest / 2)).
  2:{ change (S (S (length rest))) with (1 * 2 + length rest).
      by rewrite Nat.div_add_l. }
  cbn [seq map]. f_equal.
  rewrite <- seq_shift, map_map. apply map_ext. intros i.
  by replace (S i * 2) with (S (S (i * 2))) by lia.
Qed.

Lemma hex_decode_encode (b : bytes) :
  Forall (λ x, (0 ≤ x < 256)%Z) b → hexToBytes (bytesToHex b) = b.
Proof.
  unfold bytesToHex. induction 1 as [|x b Hx _ IH]; [done|].
  destruct (byte_hex_round_trip x Hx) as (Hpad & Hread & _).
  cbn [map concat]. rewrite Hpad. cbn [app].
  by rewrite hexToBytes_cons, Hread, IH.
Qed.

Lemma hex_encode_shape (b : bytes) :
  Forall (λ x, (0 ≤ x < 256)%Z) b →
  length (bytesToHex b) = 2 * length b
  ∧ Forall (λ c, c ∈ lit "0123456789abcdef") (bytesToHex b).
Proof.
  unfold bytesToHex. induction 1 as [|x b Hx _ [IHlen IHset]]; [done|].
  destruct (byte_hex_round_trip x Hx) as (Hpad & _ & Hhi & Hlo).
  cbn [map concat]. rewrite Hpad. cbn [app length]. split; [lia|].
  apply List.Forall_cons; [exact Hhi|].
  apply List.Forall_cons; [exact Hlo | exact IHset].
Qed.

(** X1. The hexadecimal form of a byte array has two characters for every
    byte, all of them digits or lower-case letters a to f, and decoding it
    gives the array back. *)
Theorem hex_round_trip (b : bytes) :
  Forall (λ x, (0 ≤ x < 256)%Z) b →
  hexToBytes (bytesToHex b) = b
  ∧ length (bytesToHex b) = 2 * length b
  ∧ Forall (λ c, c ∈ lit "0123456789abcdef") (bytesToHex b).
Proof.
  intros Hb. split; [by apply hex_decode_encode | by apply hex_encode_shape].
Qed.

Lemma hex_round_trip_witness :
  hexToBytes (bytesToHex [0; 10; 171; 255]%Z) = [0; 10; 171; 255]%Z.
Proof. apply (hex_round_trip [0; 10; 171; 255]%Z). repeat constructor; lia. Defined.

(** Decoding reads pairs of characters and nothing else: what it returns
    has half the length of its argument, a last unpaired character being
    dropped, and every element is a byte. *)
Lemma hexToBytes_bytes (hex : js_string) :
  length (hexToBytes hex) = length hex / 2
  ∧ Forall (λ x, (0 ≤ x < 256)%Z) (hexToBytes hex).
Proof.
  split; [apply hexToBytes_length|].
  unfold hexToBytes. apply Forall_forall. intros x Hx.
  apply list_elem_of_In, in_map_iff in Hx. destruct Hx as (i & <- & _).
  unfold to_uint8. destruct (parseInt16 _); [|lia].
  apply Z.mod_pos_bound. lia.
Qed.

(** *** The seed *)

Lemma deriveSeed_loop_repeats (fuel : nat) (s seed r : js_string) :
  (∃ m, seed = concat (replicate m s)) →
  deriveSeed_loop fuel seed = Return r →
  ∃ m, r = concat (replicate m s).
Proof.
  revert seed. induction fuel as [|fuel IH]; intros seed [m ->]; cbn.
  - case_bool_decide; [done|]. intros [= <-]. by exists m.
  - case_bool_decide; [|intros [= <-]; by exists m].
    apply IH. exists (m + m).
    by rewrite replicate_add, concat_app.
Qed.

Lemma length_concat_replicate (s : js_string) (m : nat) :
  length (concat (replicate m s)) = m * length s.
Proof.
  induction m as [|m IH]; [done|].
  cbn [replicate concat]. rewrite length_app. lia.
Qed.

Lemma nth_concat_replicate (s : js_string) (m i : nat) (d : Z) :
  i < m * length s →
  nth i (concat (replicate m s)) d = nth (i mod length s) s d.
Proof.
  revert i. induction m as [|m IH]; intros i Hi; [lia|].
  cbn [replicate concat].
  destruct (decide (i < length s)) as [Hlt|Hge].
  - rewrite app_nth1 by done. by rewrite Nat.mod_small.
  - rewrite app_nth2 by lia. rewrite IH by lia. f_equal.
    replace i with ((i - length s) + 1 * length s) at 2 by lia.
    by rewrite Nat.Div0.mod_add.
Qed.

Lemma take_as_map (r : js_string) (n : nat) (d : Z) :
  n ≤ length r → take n r = map (λ i, nth i r d) (seq 0 n).
Proof.
  revert n. induction r as [|x r IH]; intros [|n] Hn; cbn in *; try done; [lia|].
  f_equal. rewrite <- seq_shift, map_map. apply IH. lia.
Qed.

(** X2. For a non-empty ASCII secret the seed is the first 32 characters
    of the secret repeated without end: byte [i] of the seed is character
    [i mod length] of the secret. *)
Theorem deriveSeed_cycles (k : nat) (s : js_string) :
  s ≠ [] → ascii_only s →
  deriveSeed (5 + k) s
  = Return (map (λ i, nth (i mod length s) s 0%Z) (seq 0 32)).
Proof.
  intros Hne Hascii.
  destruct (deriveSeed_loop_terminates s Hne) as (r & Hr & Hlen).
  unfold deriveSeed. rewrite (deriveSeed_loop_mono 5 k _ _ Hr).
  change (Return (utf8_encode (take 32 r))
          = Return (map (λ i, nth (i mod length s) s 0%Z) (seq 0 32))).
  f_equal.
  rewrite utf8_encode_ascii
    by (apply Forall_take; by eapply deriveSeed_loop_ascii).
  destruct (deriveSeed_loop_repeats 5 s s r) as [m ->]; [|done|].
  { exists 1. cbn. by rewrite app_nil_r. }
  rewrite (take_as_map _ 32 0%Z) by done.
  apply map_ext_in. intros i Hi. apply in_seq in Hi.
  apply nth_concat_replicate.
  rewrite length_concat_replicate in Hlen. lia.
Qed.

Lemma deriveSeed_cycles_witness :
  deriveSeed (5 + 0) (lit "D65g384j9X2KOErG")
  = Return (lit "D65g384j9X2KOErGD65g384j9X2KOErG").
Proof.
  apply (deriveSeed_cycles 0 (lit "D65g384j9X2KOErG")).
  - discriminate.
  - apply (bool_decide_eq_true_1
             (Forall (λ c, (0 ≤ c < 0x80)%Z) (lit "D65g384j9X2KOErG"))).
    by vm_compute.
Defined.

Section SignThenVerify.
Context `{Ed25519}.

(** X3. The two directions agree on the message and on the key: when
    the library accepts its own signature, the hexadecimal signature that
    [signCallbackResponse] returns for [(eventTs, plainToken)] is accepted
    by [verifySignature] for the same two strings and the same secret. *)
Theorem sign_then_verify
    (fuel : nat) (eventTs plainToken botSecret : js_string)
    (key sig publicKey : bytes) :
  deriveSeed fuel botSecret = Return key →
  ed_sign (utf8_encode (eventTs ++ plainToken)) key = Returned sig →
  Forall (λ x, (0 ≤ x < 256)%Z) sig →
  ed_getPublicKey key = Returned publicKey →
  ed_verify sig (utf8_encode (eventTs ++ plainToken)) publicKey
  = Returned true →
  signCallbackResponse fuel eventTs plainToken botSecret
  = Return (bytesToHex sig)
  ∧ verifySignature fuel (bytesToHex sig) eventTs plainToken botSecret
    = Return true.
Proof.
  intros Hkey Hsign Hbytes Hpub Hverify.
  unfold signCallbackResponse, verifySignature, getPublicKey, getPrivateKey.
  rewrite Hkey, !bind_Return, Hsign, Hpub. cbn [lift].
  rewrite !bind_Return, hex_decode_encode by done.
  by rewrite Hverify.
Qed.

End SignThenVerify.

Lemma sign_then_verify_witness :
  @verifySignature Fixtures.toy_ed25519 5
    (bytesToHex (replicate 64 6%Z)) (lit "123") (lit "abc")
    (lit "D65g384j9X2KOErG")
  = Return true.
Proof.
  apply (@sign_then_verify Fixtures.toy_ed25519 5 (lit "123") (lit "abc")
           (lit "D65g384j9X2KOErG")
           (lit "D65g384j9X2KOErGD65g384j9X2KOErG")
           (replicate 64 6%Z)
           (lit "D65g384j9X2KOErGD65g384j9X2KOErG"));
    [reflexivity | reflexivity
    | apply (bool_decide_eq_true_1
               (Forall (λ x, (0 ≤ x < 256)%Z) (replicate 64 6%Z)));
      by vm_compute
    | reflexivity | reflexivity].
Defined.

End SignatureExtras.

Module ServerExtras.
Import Signature Server Handler SignatureExtras.

(** *** Taking completions apart *)

Lemma bind_Return_inv {A B} (m : completion A) (k : A → completion B) (b : B) :
  (m ≫= k) = Return b → ∃ a, m = Return a ∧ k a = Return b.
Proof. destruct m as [a| |]; [|done..]. intros Hk. by exists a. Qed.

Lemma try_catch_Return_inv {A} (m : completion A) (h : js_error → completion A)
    (a : A) :
  try_catch m h = Return a → m = Return a ∨ ∃ e, m = Throw e ∧ h e = Return a.
Proof. destruct m as [a'|e|]; [by left | right; by exists e | done]. Qed.

(** Reading a property of a value that is neither [undefined] nor [null]
    does not throw. *)
Lemma get_defined (v : value) (k k' : string) (x : value) :
  get v k = Return x → ∃ y, get v k' = Return y.
Proof. destruct v; try done; intros _; by eexists. Qed.

Section Requests.
Context `{Ed25519} `{Host}.
Variable appSecret : js_string.

Lemma handleURLValidation_status (fuel : nat) (payload : value) (h : handled) :
  handleURLValidation appSecret fuel payload = Return h →
  deferred h = None ∧ (status (sent h) = 200 ∨ status (sent h) = 400)%Z.
Proof.
  unfold handleURLValidation. intros Hh.
  apply bind_Return_inv in Hh as (data & _ & Hh).
  apply bind_Return_inv in Hh as (plain_token & _ & Hh).
  destruct (truthy plain_token); cbn in Hh.
  - apply bind_Return_inv in Hh as (event_ts & _ & Hh).
    destruct (truthy event_ts); cbn in Hh.
    + apply bind_Return_inv in Hh as (sig & _ & [= <-]). cbn. auto.
    + injection Hh as <-. cbn. auto.
  - injection Hh as <-. cbn. auto.
Qed.

Lemma handleDispatch_inv (payload : value) (h : handled) :
  Server.handleDispatch payload = Return h →
  status (sent h) = 200%Z
  ∧ ∀ t d, deferred h = Some (t, d) →
           get payload "t" = Return t ∧ truthy t = true
           ∧ get payload "d" = Return d.
Proof.
  unfold Server.handleDispatch. intros Hh.
  apply bind_Return_inv in Hh as (t & Ht & Hh).
  destruct (truthy t) eqn:Htruthy; cbn in Hh.
  - apply bind_Return_inv in Hh as (d & Hd & [= <-]). cbn.
    split; [done|]. by intros t' d' [= <- <-].
  - injection Hh as <-. by cbn.
Qed.

(** What [processRequest] did when it returns without having caught an
    exception. *)
Lemma processRequest_inv
    (fuel : nat) (signature timestamp : header) (body : js_string)
    (h : handled) :
  processRequest appSecret fuel signature timestamp body = Return h →
  h = reply 500 (ErrorBody "Internal server error")
  ∨ (json_parse body = None ∧ h = reply 400 (ErrorBody "Invalid JSON"))
  ∨ ∃ payload op,
      json_parse body = Some payload ∧ get payload "op" = Return op
      ∧ ((strict_eq_num op 13 = true
          ∧ handleURLValidation appSecret fuel payload = Return h)
         ∨ (strict_eq_num op 13 = false
            ∧ ∃ verified : bool,
                match signature, timestamp with
                | Some sig, Some ts =>
                  if header_truthy signature && header_truthy timestamp
                  then verifySignature fuel sig ts body appSecret
                  else Return true
                | _, _ => Return true
                end = Return verified
                ∧ if verified then
                    if strict_eq_num op 0
                    then Server.handleDispatch payload = Return h
                    else h = reply 200 (MessageBody "ok")
                  else h = reply 401 (ErrorBody "Invalid signature"))).
Proof.
  unfold processRequest. intros Hh.
  apply try_catch_Return_inv in Hh as [Hh|(e & _ & [= <-])]; [|by left].
  right. destruct (json_parse body) as [payload|] eqn:Hparse.
  2:{ left. by injection Hh as <-. }
  right.
  apply bind_Return_inv in Hh as (op & Hop & Hh).
  apply bind_Return_inv in Hh as (t & _ & Hh).
  apply bind_Return_inv in Hh as (id & _ & Hh).
  exists payload, op. split; [done|]. split; [done|].
  destruct (strict_eq_num op 13); [by left|]. right. split; [done|].
  apply bind_Return_inv in Hh as (verified & Hverified & Hh).
  exists verified. split; [exact Hverified|].
  destruct verified; cbn in Hh.
  - destruct (strict_eq_num op 0); [done | by injection Hh as <-].
  - by injection Hh as <-.
Qed.

(** X4. The request handler throws in one case only, and then before
    it has written anything: when [new URL] rejects the URL of the request
    or its [Host] header, with a [TypeError].  For a request whose URL is
    parsed it does not throw, and a response it sends has one of the five
    status codes 200, 400, 401, 404 and 500. *)
Theorem handleRequest_statuses
    (fuel : nat) (method : string) (pathname : option string)
    (expectedPath : string)
    (signature timestamp : header) (body : js_string) :
  (∀ e, handleRequest appSecret fuel method pathname expectedPath
          signature timestamp body = Throw e ↔
        pathname = None ∧ e = TypeError "Invalid URL")
  ∧ ∀ h, handleRequest appSecret fuel method pathname expectedPath
           signature timestamp body = Return h →
         is_Some pathname
         ∧ status (sent h) ∈ [200; 400; 401; 404; 500]%Z.
Proof.
  unfold handleRequest. destruct pathname as [pathname|].
  2:{ split; [|done]. intros e. split; [by intros [= <-] | by intros [_ ->]]. }
  destruct (negb (String.eqb method "POST")
            || negb (String.eqb pathname expectedPath)).
  { split; [intros e; split; [done | by intros [? _]]|].
    intros h [= <-]. split; [done|]. cbn. set_solver. }
  split.
  { intros e. split; [|by intros [? _]].
    intros He. by apply ServerFacts.processRequest_never_throws in He. }
  intros h Hh. split; [done|]. apply processRequest_inv in Hh
    as [->|[[_ ->]|(payload & op & _ & _ & [[_ Hv]|(_ & verified & _ & Hh)])]].
  - cbn. set_solver.
  - cbn. set_solver.
  - apply handleURLValidation_status in Hv as [_ [-> | ->]]; set_solver.
  - destruct verified; [|subst h; cbn; set_solver].
    destruct (strict_eq_num op 0); [|subst h; cbn; set_solver].
    apply handleDispatch_inv in Hh as [-> _]. set_solver.
Qed.

(** X5. An event is handed on for later processing only by a 200
    response to a payload with [op = 0] and a truthy [t], and it is that
    [t] with the [d] of the payload; when both signature headers are present
    and not empty, only after [verifySignature] has returned true. *)
Theorem deferred_only_after_verification
    (fuel : nat) (signature timestamp : header) (body : js_string)
    (h : handled) (t d : value) :
  processRequest appSecret fuel signature timestamp body = Return h →
  deferred h = Some (t, d) →
  status (sent h) = 200%Z
  ∧ (∃ payload,
       json_parse body = Some payload
       ∧ get payload "op" = Return (VNum 0)
       ∧ get payload "t" = Return t ∧ truthy t = true
       ∧ get payload "d" = Return d)
  ∧ ∀ sig ts, signature = Some sig → timestamp = Some ts →
              sig ≠ [] → ts ≠ [] →
              verifySignature fuel sig ts body appSecret = Return true.
Proof.
  intros Hh Hd. apply processRequest_inv in Hh
    as [->|[[_ ->]|(payload & op & Hparse & Hop & [[_ Hv]|(_ & verified & Hver & Hh)])]];
    try done.
  { apply handleURLValidation_status in Hv as [Hnone _]. congruence. }
  destruct verified; [|by subst h].
  destruct (strict_eq_num op 0) eqn:Hzero; [|by subst h].
  apply handleDispatch_inv in Hh as [Hs Hfields].
  destruct (Hfields t d Hd) as (Ht & Htruthy & Hdata).
  split; [done|]. split.
  - exists payload. split_and!; try done.
    destruct op; try done. cbn in Hzero. apply Z.eqb_eq in Hzero. by subst.
  - intros sig ts -> -> Hsig Hts. cbn in Hver.
    by rewrite !bool_decide_false in Hver by done.
Qed.

(** X6. A request that is not a validation handshake and carries both
    headers, is answered 401 and nothing is handed on when the signature
    does not verify. *)
Theorem bad_signature_is_401
    (fuel : nat) (sig ts body : js_string) (payload op : value) :
  json_parse body = Some payload →
  get payload "op" = Return op →
  strict_eq_num op 13 = false →
  sig ≠ [] → ts ≠ [] →
  verifySignature fuel sig ts body appSecret = Return false →
  processRequest appSecret fuel (Some sig) (Some ts) body
  = Return (reply 401 (ErrorBody "Invalid signature")).
Proof.
  intros Hparse Hop Hnot13 Hsig Hts Hverify.
  unfold processRequest. rewrite Hparse, Hop, bind_Return.
  destruct (get_defined payload "op" "t" op Hop) as [t ->].
  destruct (get_defined payload "op" "id" op Hop) as [id ->].
  rewrite !bind_Return, Hnot13. cbn [header_truthy].
  rewrite !bool_decide_false by done. cbn [negb andb].
  by rewrite Hverify.
Qed.

Lemma unsigned_dispatch_is_accepted_aux
    (fuel : nat) (signature timestamp : header) (body : js_string)
    (payload t d : value) :
  json_parse body = Some payload →
  get payload "op" = Return (VNum 0) →
  get payload "t" = Return t → truthy t = true →
  get payload "d" = Return d →
  header_truthy signature = false ∨ header_truthy timestamp = false →
  processRequest appSecret fuel signature timestamp body
  = Return {| sent := {| status := 200; body := MessageBody "ok" |};
              deferred := Some (t, d) |}.
Proof.
  intros Hparse Hop Ht Htruthy Hd Hheaders.
  unfold processRequest. rewrite Hparse, Hop, bind_Return, Ht, bind_Return.
  destruct (get_defined payload "op" "id" _ Hop) as [id ->].
  rewrite bind_Return. cbn [strict_eq_num Z.eqb].
  assert (match signature, timestamp with
          | Some sig, Some ts =>
            if header_truthy signature && header_truthy timestamp
            then verifySignature fuel sig ts body appSecret
            else mret true
          | _, _ => mret true
          end = Return true) as ->.
  { destruct signature, timestamp; try done.
    by destruct Hheaders as [-> | ->]; [|rewrite andb_false_r]. }
  rewrite bind_Return. cbn [negb]. unfold Server.handleDispatch.
  by rewrite Ht, bind_Return, Htruthy, Hd.
Qed.

(** X7. When either signature header is absent or empty, a dispatch is
    accepted without any verification: the answer is 200 and the event is
    handed on. *)
Theorem unsigned_dispatch_is_accepted
    (fuel : nat) (signature timestamp : header) (body : js_string)
    (payload t d : value) :
  json_parse body = Some payload →
  get payload "op" = Return (VNum 0) →
  get payload "t" = Return t → truthy t = true →
  get payload "d" = Return d →
  header_truthy signature = false ∨ header_truthy timestamp = false →
  processRequest appSecret fuel signature timestamp body
  = Return {| sent := {| status := 200; body := MessageBody "ok" |};
              deferred := Some (t, d) |}.
Proof. apply unsigned_dispatch_is_accepted_aux. Qed.

(** X8. The validation handshake does not look at the signature headers:
    for a payload with [op = 13] the answer is the same whatever they
    are. *)
Theorem validation_ignores_headers
    (fuel : nat) (signature timestamp signature' timestamp' : header)
    (body : js_string) (payload : value) :
  json_parse body = Some payload →
  get payload "op" = Return (VNum 13) →
  processRequest appSecret fuel signature timestamp body
  = processRequest appSecret fuel signature' timestamp' body.
Proof.
  intros Hparse Hop. unfold processRequest. rewrite Hparse, Hop, !bind_Return.
  destruct (get_defined payload "op" "t" _ Hop) as [t ->].
  destruct (get_defined payload "op" "id" _ Hop) as [id ->].
  by rewrite !bind_Return.
Qed.


(** X10. A dispatch of a message event whose payload has no [d] (or a
    null one) is acknowledged with 200 like any other, and the deferred task
    then throws before [onMessage] is called. *)
Theorem dispatch_without_data_throws_later
    (fuel : nat) (signature timestamp : header) (body : js_string)
    (payload d : value) (t : js_string) :
  json_parse body = Some payload →
  get payload "op" = Return (VNum 0) →
  get payload "t" = Return (VStr t) →
  t ∈ [lit "AT_MESSAGE_CREATE"; lit "DIRECT_MESSAGE_CREATE";
       lit "MESSAGE_CREATE"] →
  get payload "d" = Return d → d = VUndefined ∨ d = VNull →
  header_truthy signature = false ∨ header_truthy timestamp = false →
  ∃ h, processRequest appSecret fuel signature timestamp body = Return h
       ∧ status (sent h) = 200%Z
       ∧ ∃ e, run_deferred h = Throw e.
Proof.
  intros Hparse Hop Ht Hin Hd Hnull Hheaders.
  assert (truthy (VStr t) = true) as Htruthy.
  { cbn. rewrite bool_decide_false; [done|]. intros ->.
    repeat (apply elem_of_cons in Hin as [Hin|Hin]; [done|]).
    by apply elem_of_nil in Hin. }
  eexists. split; [|split].
  - by apply (unsigned_dispatch_is_accepted_aux fuel signature timestamp body
                payload (VStr t) d).
  - done.
  - unfold run_deferred. cbn [deferred]. unfold handleEvent.
    repeat (apply elem_of_cons in Hin as [->|Hin]);
      [..|by apply elem_of_nil in Hin];
      cbn; destruct Hnull as [-> | ->]; by eexists.
Qed.

End Requests.

Import Fixtures.

Lemma handleRequest_statuses_witness :
  status (sent (reply 404 (ErrorBody "Not found"))) ∈ [200; 400; 401; 404; 500]%Z.
Proof.
  apply (proj2 (@handleRequest_statuses toy_ed25519 fixture_host sample_secret 5
                  "GET" (Some "/webhook") "/webhook" None None [])).
  reflexivity.
Defined.

Lemma deferred_only_after_verification_witness :
  status (sent {| sent := {| status := 200; body := MessageBody "ok" |};
                  deferred := Some (VStr (lit "DIRECT_MESSAGE_CREATE"),
                                    VObj [("id", VStr (lit "m1"))]) |})
  = 200%Z.
Proof.
  apply (@deferred_only_after_verification toy_ed25519 fixture_host sample_secret 5
           None None (dispatch_body "DIRECT_MESSAGE_CREATE") _
           (VStr (lit "DIRECT_MESSAGE_CREATE"))
           (VObj [("id", VStr (lit "m1"))]));
    reflexivity.
Defined.

Lemma bad_signature_is_401_witness :
  @processRequest toy_ed25519 fixture_host sample_secret 5
    (Some (lit "00")) (Some (lit "1700000000"))
    (dispatch_body "DIRECT_MESSAGE_CREATE")
  = Return (reply 401 (ErrorBody "Invalid signature")).
Proof.
  apply (@bad_signature_is_401 toy_ed25519 fixture_host sample_secret 5
           (lit "00") (lit "1700000000")
           (dispatch_body "DIRECT_MESSAGE_CREATE")
           (dispatch_payload "DIRECT_MESSAGE_CREATE") (VNum 0));
    [reflexivity | reflexivity | reflexivity | discriminate | discriminate
    | reflexivity].
Defined.

Lemma unsigned_dispatch_is_accepted_witness :
  @processRequest toy_ed25519 fixture_host sample_secret 5
    (Some (lit "00")) None (dispatch_body "DIRECT_MESSAGE_CREATE")
  = Return {| sent := {| status := 200; body := MessageBody "ok" |};
              deferred := Some (VStr (lit "DIRECT_MESSAGE_CREATE"),
                                VObj [("id", VStr (lit "m1"))]) |}.
Proof.
  apply (@unsigned_dispatch_is_accepted toy_ed25519 fixture_host sample_secret 5
           (Some (lit "00")) None (dispatch_body "DIRECT_MESSAGE_CREATE")
           (dispatch_payload "DIRECT_MESSAGE_CREATE"));
    [reflexivity | reflexivity | reflexivity | reflexivity | reflexivity
    | right; reflexivity].
Defined.

Lemma validation_ignores_headers_witness :
  @processRequest toy_ed25519 fixture_host sample_secret 5
    (Some (lit "00")) (Some (lit "1")) validation_body
  = @processRequest toy_ed25519 fixture_host sample_secret 5 None None validation_body.
Proof.
  apply (@validation_ignores_headers toy_ed25519 fixture_host sample_secret 5
           (Some (lit "00")) (Some (lit "1")) None None validation_body
           validation_payload); reflexivity.
Defined.


Lemma dispatch_without_data_throws_later_witness :
  ∃ h, @processRequest toy_ed25519 fixture_host sample_secret 5 None None
         (bare_dispatch_body "AT_MESSAGE_CREATE") = Return h
       ∧ status (sent h) = 200%Z
       ∧ ∃ e, run_deferred h = Throw e.
Proof.
  apply (@dispatch_without_data_throws_later toy_ed25519 fixture_host sample_secret 5
           None None (bare_dispatch_body "AT_MESSAGE_CREATE")
           (bare_dispatch_payload "AT_MESSAGE_CREATE") VUndefined
           (lit "AT_MESSAGE_CREATE"));
    [reflexivity | reflexivity | reflexivity | apply list_elem_of_here
    | reflexivity | left; reflexivity | left; reflexivity].
Defined.

End ServerExtras.

Module ClientExtras.
Import Client ClientFacts Samples.

(** The client right after a forced refresh at [now] answered by [data]. *)
Lemma refreshed_client (c : QQApiClient) (now : Z) (data : TokenResponse) :
  let c1 := client_after (getAccessToken c true now (HttpOk data)) in
  accessToken c1 = Some (access_token data)
  ∧ tokenExpiresAt c1 = (now + expires_in data * 1000)%Z
  ∧ appId c1 = appId c ∧ appSecret c1 = appSecret c ∧ baseUrl c1 = baseUrl c.
Proof. done. Qed.

(** X11. After a successful refresh at time [now], a later call at time
    [now'] is answered from the cache, without a request, exactly when the
    token is not empty and more than 60 seconds of its validity are left,
    that is when [now' + 60000 < now + expires_in * 1000]; in particular a
    token issued for 60 seconds or less is never served from the cache. *)
Theorem token_reuse_window
    (c : QQApiClient) (now now' : Z) (data : TokenResponse)
    (net : fetch_result TokenResponse) :
  let c1 := client_after (getAccessToken c true now (HttpOk data)) in
  (access_token data ≠ "" →
   (now' + 60 * 1000 < now + expires_in data * 1000)%Z →
   getAccessToken c1 false now' net
   = {| client_after := c1; outcome := Returned (access_token data);
        requests := [] |})
  ∧ (access_token data = ""
     ∨ (now + expires_in data * 1000 ≤ now' + 60 * 1000)%Z →
     requests (getAccessToken c1 false now' net) = [token_request_of c])
  ∧ ((expires_in data ≤ 60)%Z → (now ≤ now')%Z →
     requests (getAccessToken c1 false now' net) = [token_request_of c]).
Proof.
  cbn zeta. destruct (refreshed_client c now data) as (Htok & Hexp & Hid & Hsec & _).
  set (c1 := client_after _) in *.
  assert (token_request_of c1 = token_request_of c) as Hreq.
  { unfold token_request_of. by rewrite Hid, Hsec. }
  split; [|split].
  - intros Hne Hlt. unfold getAccessToken, getAccessToken_begin.
    rewrite (cache_valid_true c1 now' (access_token data)) by (try done; lia).
    by rewrite Htok.
  - intros Hcase. unfold getAccessToken, getAccessToken_begin.
    rewrite cache_valid_false, Hreq.
    + by destruct (getAccessToken_resume c1 now' net).
    + destruct Hcase as [Hempty|Hlate].
      * right. right. left. by rewrite Htok, Hempty.
      * right. right. right. lia.
  - intros Hshort Hlater. unfold getAccessToken, getAccessToken_begin.
    rewrite cache_valid_false, Hreq.
    + by destruct (getAccessToken_resume c1 now' net).
    + right. right. right. lia.
Qed.

Lemma token_reuse_window_witness :
  getAccessToken
    (client_after (getAccessToken cold_client true 1000 (issued "token-1")))
    false 5000 (FetchRejected (Error "offline"))
  = {| client_after :=
         client_after (getAccessToken cold_client true 1000 (issued "token-1"));
       outcome := Returned "token-1"; requests := [] |}.
Proof.
  apply (token_reuse_window cold_client 1000 5000
           {| access_token := "token-1"; expires_in := 7200 |}
           (FetchRejected (Error "offline"))); [discriminate | cbn; lia].
Defined.

(** X12. With a valid cached token, an API call asks for no token and
    leaves the client as it is whatever the API answers: a rejected call,
    a 401 included, does not drop or refresh the token, and its error is the
    one thrown. *)
Theorem request_keeps_token {T : Type}
    (c : QQApiClient) (now : Z) (t : string)
    (token_net : fetch_result TokenResponse) (api_net : fetch_result T) :
  accessToken c = Some t → t ≠ "" → (now + 60 * 1000 < tokenExpiresAt c)%Z →
  (request c now token_net api_net).1.1 = c
  ∧ (request c now token_net api_net).2 = []
  ∧ (∀ status text, api_net = HttpNotOk status text →
       (request c now token_net api_net).1.2
       = Thrown (Error ("API request failed: " +:+ pretty status
                        +:+ " " +:+ text)))
  ∧ (∀ data, api_net = HttpOk data →
       (request c now token_net api_net).1.2 = Returned data).
Proof.
  intros Ht Hne Hexp. unfold request, getAccessToken, getAccessToken_begin.
  rewrite (cache_valid_true c now t) by done. cbn.
  split; [done|]. split; [done|]. split.
  - by intros status text ->.
  - by intros data ->.
Qed.

Lemma request_keeps_token_witness :
  (request fresh_client 1000 (FetchRejected (Error "offline"))
     (HttpNotOk 401 "unauthorized" : fetch_result GatewayResponse)).1.1
  = fresh_client.
Proof.
  apply (request_keeps_token fresh_client 1000 "token-1");
    [reflexivity | discriminate | cbn; lia].
Defined.

(** X13. When the token cannot be obtained, an API call fails with the
    error of the token request, whatever the API would have answered, and
    the client is left as it was. *)
Theorem request_without_token {T : Type}
    (c : QQApiClient) (now : Z)
    (token_net : fetch_result TokenResponse) (api_net api_net' : fetch_result T) :
  cache_valid c false now = false →
  (∀ data, token_net ≠ HttpOk data) →
  (∃ e, (request c now token_net api_net).1.2 = Thrown e
        ∧ (getAccessToken_resume c now token_net).2 = Thrown e)
  ∧ (request c now token_net api_net).1.1 = c
  ∧ (request c now token_net api_net).2 = [token_request_of c]
  ∧ request c now token_net api_net = request c now token_net api_net'.
Proof.
  intros Hc Hfail. unfold request, getAccessToken, getAccessToken_begin.
  rewrite Hc.
  destruct token_net as [e|status text|e|data]; cbn;
    [| | |by destruct (Hfail data)]; (split; [by eexists|done]).
Qed.

Lemma request_without_token_witness :
  (request cold_client 1000 (HttpNotOk 400 "bad secret")
     (HttpOk {| url := "wss://x"; shards := 1; session_start_limit := None |})).2
  = [token_request_of cold_client].
Proof.
  apply (request_without_token cold_client 1000 (HttpNotOk 400 "bad secret")
           (HttpOk {| url := "wss://x"; shards := 1;
                      session_start_limit := None |})
           (FetchRejected (Error "offline")));
    [reflexivity | discriminate].
Defined.

(** A call that starts after the response to an earlier call has
    been cached, and while that token has more than 60 seconds left, sends
    nothing: the two callers share the one request and the one token. *)
Theorem later_call_shares_token
    (c : QQApiClient) (id1 id2 : nat) (now1 now2 : Z) (data : TokenResponse) :
  cache_valid c false now1 = false →
  access_token data ≠ "" →
  (now2 + 60 * 1000 < now1 + expires_in data * 1000)%Z →
  let f := flight_run (idle c)
             [Call id1 false now1; Response id1 (HttpOk data);
              Call id2 false now2] in
  sent f = [(id1, token_request_of c)]
  ∧ finished f !! id2 = Some (Returned (access_token data))
  ∧ pending f = ∅.
Proof.
  intros Hc Hne Hlt. cbn zeta. unfold flight_run. cbn [foldl].
  destruct (call_sends_request (idle c) id1 now1 Hc) as (Hs1 & Hcl1 & Hp1 & Hf1).
  set (f1 := flight_step (idle c) (Call id1 false now1)) in *.
  cbn [idle client pending sent finished app] in *.
  rewrite (response_arrives f1 id1 now1 (HttpOk data))
    by (by rewrite Hp1, lookup_insert_eq).
  rewrite Hcl1, Hs1, Hp1, Hf1. cbn [getAccessToken_resume fst snd].
  unfold flight_step, getAccessToken_begin. cbn [client].
  rewrite (cache_valid_true _ now2 (access_token data)) by (try done; cbn; lia).
  cbn. split; [done|]. split; [by rewrite lookup_insert_eq|].
  apply map_eq. intros i. rewrite lookup_empty, lookup_delete, lookup_insert.
  by repeat case_decide.
Qed.

Lemma later_call_shares_token_witness :
  sent (flight_run (idle cold_client)
          [Call 1 false 0; Response 1 (issued "a"); Call 2 false 10])
  = [(1, token_request_of cold_client)].
Proof.
  apply (later_call_shares_token cold_client 1 2 0 10
           {| access_token := "a"; expires_in := 7200 |});
    [reflexivity | discriminate | cbn; lia].
Defined.

End ClientExtras.

Module RuntimeExtras.
Import Client Wire Runtime Observe Samples Watch ClientFacts RuntimeFacts.
Local Open Scope action_scope.

(** *** Actions that keep a property of the state *)

Section Steady.
Context (I : world → Prop) (Q : effect → Prop).

Lemma steady_skip : steady I Q skip.
Proof. intros w Hw. split; [done|constructor]. Qed.

Lemma steady_emit (e : effect) : Q e → steady I Q (emit e).
Proof. intros He w Hw. split; [done|]. by repeat constructor. Qed.

Lemma steady_emit_requests (reqs : list TokenRequest) :
  (∀ r, Q (TokenRequested r)) → steady I Q (emit_all (TokenRequested <$> reqs)).
Proof.
  intros HQ w Hw. split; [done|]. cbn. apply Forall_fmap, Forall_forall.
  intros r _. apply HQ.
Qed.

Lemma steady_andThen (a b : action) :
  steady I Q a → steady I Q b → steady I Q (a ;; b).
Proof.
  intros Ha Hb w Hw. rewrite andThen_fst, andThen_snd.
  destruct (Ha w Hw) as [H1 Hq1]. destruct (Hb _ H1) as [H2 Hq2].
  split; [done|]. by apply Forall_app.
Qed.

Lemma steady_reading {B} (g : world → B) (k : B → action) :
  (∀ x, steady I Q (k x)) → steady I Q (reading g k).
Proof. intros Hk w. apply Hk. Qed.

Lemma steady_state (a : action) :
  (∀ w, (a w).2 = []) → (∀ w, I w → I (a w).1) → steady I Q a.
Proof. intros Hes HI w Hw. rewrite Hes. split; [by apply HI|constructor]. Qed.

End Steady.

(** Take a handler apart along its control flow. *)
Ltac steady_step :=
  match goal with
  | |- steady _ _ (_ ;; _) => apply steady_andThen
  | |- steady _ _ (reading _ _) => apply steady_reading; intros ?
  | |- steady _ _ skip => apply steady_skip
  | |- steady _ _ (emit_all (TokenRequested <$> _)) =>
    apply steady_emit_requests; intros ?; done
  | |- steady _ _ (emit _) => apply steady_emit; done
  | |- steady _ _ (update _) =>
    apply steady_state;
    [done
    | unfold closing, not_open, socket_open, holds_token; intros [? ? []] ?; done]
  | |- steady _ _ (set_cached _) =>
    apply steady_state;
    [done
    | unfold closing, not_open, socket_open, holds_token; intros [? ? []] ?; done]
  | |- steady _ _ (set_client _) =>
    apply steady_state;
    [done
    | unfold closing, not_open, socket_open, holds_token; intros [? ? []] ?; done]
  | |- steady _ _ (if ?c then _ else _) => destruct c
  | |- steady _ _ (match ?x with _ => _ end) => destruct x
  end.

(** *** Once stopped *)

(** Not the timer of [scheduleReconnect]. *)
Abbreviation no_reconnect_timer := (λ e : effect, is_reconnect_timer e = false).

Lemma scheduleReconnect_closing :
  steady closing no_reconnect_timer scheduleReconnect.
Proof.
  intros w Hw. rewrite scheduleReconnect_stopped by by left.
  split; [done|constructor].
Qed.

Lemma handle_closing (ev : event) :
  steady closing no_reconnect_timer (handle ev).
Proof.
  pose proof scheduleReconnect_closing as Hs.
  assert (∀ e, steady closing no_reconnect_timer (start_failed e)) as Hfail.
  { intros e. unfold start_failed. repeat steady_step. exact Hs. }
  assert (∀ env u, steady closing no_reconnect_timer (open_socket env u))
    as Hopen.
  { intros env u. unfold open_socket, setupWebSocketHandlers.
    repeat steady_step; apply Hfail. }
  assert (∀ env, steady closing no_reconnect_timer (start env)) as Hstart.
  { intros env. unfold start.
    repeat first [steady_step | apply Hfail | apply Hopen]. }
  assert (steady closing no_reconnect_timer stopHeartbeat) as Hstop.
  { unfold stopHeartbeat. repeat steady_step. }
  assert (∀ fr, steady closing no_reconnect_timer (send fr)) as Hsend.
  { intros fr. unfold send. repeat steady_step. }
  assert (∀ env, steady closing no_reconnect_timer (reconnect env)) as Hre.
  { intros env. unfold reconnect.
    repeat first [apply Hstop | apply Hstart | steady_step]. }
  destruct ev; cbn [handle].
  - apply Hstart.
  - unfold stop.
    apply steady_andThen; [by apply steady_state|].
    repeat first [apply Hstop | steady_step].
  - unfold socket_state. repeat steady_step.
  - unfold handlePayload, handleHello, startHeartbeat, sendIdentify,
      handleDispatch, handleReady.
    repeat first [apply Hstop | apply Hsend | apply Hre | steady_step].
  - unfold socket_state, on_close.
    repeat first [apply Hstop | apply Hs | steady_step].
  - unfold on_error. repeat steady_step.
  - unfold reconnect_timer_fired. repeat first [apply Hre | steady_step].
  - unfold invalid_session_timer_fired. repeat first [apply Hs | steady_step].
  - unfold heartbeat_tick. repeat first [apply Hsend | steady_step].
Qed.

Lemma run_steady (I : world → Prop) (Q : effect → Prop) (evs : list event) :
  (∀ ev, ev ∈ evs → steady I Q (handle ev)) → steady I Q (run evs).
Proof.
  induction evs as [|ev evs IH]; intros Hall; cbn [run].
  - apply steady_skip.
  - apply steady_andThen.
    + apply Hall. apply list_elem_of_here.
    + apply IH. intros ev' Hin. apply Hall. by apply list_elem_of_further.
Qed.

(** X14. [stop] clears the socket, the session, the sequence number, the
    attempt counter and the heartbeat, and nothing undoes it: whatever
    happens to the transport afterwards, a new [start] included, it stays
    marked as stopping and the reconnect timer is never set again. *)
Theorem stopped_never_reconnects (w : world) (evs : list event) :
  let w1 := (handle Stop w).1 in
  (ws (self w1) = None ∧ sessionId (self w1) = None
   ∧ lastSequence (self w1) = None ∧ reconnectAttempts (self w1) = 0
   ∧ heartbeatInterval (self w1) = None)
  ∧ isClosing (self (run evs w1).1) = true
  ∧ Forall (λ e, is_reconnect_timer e = false) (run evs w1).2.
Proof.
  assert (∀ r : QQChannelRuntime, ∃ r',
    self (handle Stop {| cachedAccessToken := cachedAccessToken w;
                         apiClient := apiClient w; self := r |}).1 = r'
    ∧ ws r' = None ∧ sessionId r' = None ∧ lastSequence r' = None
    ∧ reconnectAttempts r' = 0 ∧ heartbeatInterval r' = None
    ∧ isClosing r' = true) as Hstop.
  { intros [sock hb sq sid n cl ft cc]. eexists. split; [reflexivity|].
    destruct hb, sock; cbn; done. }
  destruct w as [cached client r]. cbn zeta.
  destruct (Hstop r) as (r' & Hr' & Hws & Hsid & Hseq & Hn & Hhb & Hcl).
  cbn [cachedAccessToken apiClient] in Hr'. rewrite Hr'.
  split; [done|].
  apply (run_steady closing no_reconnect_timer evs).
  - intros ev _. apply handle_closing.
  - unfold closing. by rewrite Hr'.
Qed.

(** *** The heartbeat interval *)

Lemma live_intervals_app (n : nat) (es1 es2 : list effect) :
  live_intervals n (es1 ++ es2) = live_intervals (live_intervals n es1) es2.
Proof. apply foldl_app. Qed.

Lemma peak_intervals_app (n : nat) (es1 es2 : list effect) :
  peak_intervals n (es1 ++ es2)
  = Nat.max (peak_intervals n es1) (peak_intervals (live_intervals n es1) es2).
Proof.
  revert n. induction es1 as [|e es1 IH]; intros n; cbn.
  - destruct es2; cbn; lia.
  - rewrite IH. unfold live_intervals. lia.
Qed.

Lemma held_intervals_le (w : world) : held_intervals w ≤ 1.
Proof. unfold held_intervals. destruct (heartbeatInterval (self w)); lia. Qed.

Lemma tracks_state (a : action) :
  (∀ w, (a w).2 = []) → (∀ w, held_intervals (a w).1 = held_intervals w) →
  tracks a.
Proof.
  intros Hes Hh w. rewrite Hes, Hh. cbn.
  split; [done | apply held_intervals_le].
Qed.

Lemma tracks_skip : tracks skip.
Proof. by apply tracks_state. Qed.

Lemma tracks_emit (e : effect) :
  (∀ n, interval_step n e = n) → tracks (emit e).
Proof.
  intros He w. cbn. rewrite He. split; [done|].
  pose proof (held_intervals_le w). lia.
Qed.

Lemma tracks_emit_requests (reqs : list TokenRequest) :
  tracks (emit_all (TokenRequested <$> reqs)).
Proof.
  intros w. cbn. generalize (held_intervals_le w).
  generalize (held_intervals w). intros n Hn.
  induction reqs as [|r reqs [IH1 IH2]]; cbn; [split; [done|lia]|].
  split; [exact IH1|]. lia.
Qed.

Lemma tracks_andThen (a b : action) : tracks a → tracks b → tracks (a ;; b).
Proof.
  intros Ha Hb w. rewrite andThen_fst, andThen_snd.
  destruct (Ha w) as [Ha1 Ha2]. destruct (Hb (a w).1) as [Hb1 Hb2].
  rewrite live_intervals_app, peak_intervals_app, Ha1. split; [done|lia].
Qed.

Lemma tracks_reading {B} (g : world → B) (k : B → action) :
  (∀ x, tracks (k x)) → tracks (reading g k).
Proof. intros Hk w. apply Hk. Qed.

Lemma stopHeartbeat_tracks : tracks stopHeartbeat.
Proof.
  intros w. unfold stopHeartbeat, reading, held_intervals.
  destruct (heartbeatInterval (self w)) eqn:Hhb; cbn; rewrite ?Hhb; cbn;
    split; lia.
Qed.

Lemma stopHeartbeat_clears (w : world) :
  held_intervals (stopHeartbeat w).1 = 0.
Proof.
  unfold stopHeartbeat, reading, held_intervals.
  destruct (heartbeatInterval (self w)) eqn:Hhb; cbn; by rewrite ?Hhb.
Qed.

Lemma startHeartbeat_tracks (interval : Z) : tracks (startHeartbeat interval).
Proof.
  intros w. unfold startHeartbeat. rewrite !andThen_fst, !andThen_snd.
  destruct (stopHeartbeat_tracks w) as [Hlive Hpeak].
  rewrite live_intervals_app, peak_intervals_app, Hlive, stopHeartbeat_clears.
  cbn. split; [done | lia].
Qed.

Ltac tracks_step :=
  match goal with
  | |- tracks (_ ;; _) => apply tracks_andThen
  | |- tracks (reading _ _) => apply tracks_reading; intros ?
  | |- tracks skip => apply tracks_skip
  | |- tracks stopHeartbeat => apply stopHeartbeat_tracks
  | |- tracks (startHeartbeat _) => apply startHeartbeat_tracks
  | |- tracks (emit_all (TokenRequested <$> _)) => apply tracks_emit_requests
  | |- tracks (emit _) => apply tracks_emit; done
  | |- tracks (update _) => apply tracks_state; [done | intros [? ? []]; done]
  | |- tracks (set_cached _) => apply tracks_state; [done | intros [? ? []]; done]
  | |- tracks (set_client _) => apply tracks_state; [done | intros [? ? []]; done]
  | |- tracks (if ?c then _ else _) => destruct c
  | |- tracks (match ?x with _ => _ end) => destruct x
  end.

Lemma handle_tracks (ev : event) : tracks (handle ev).
Proof.
  assert (tracks scheduleReconnect) as Hs.
  { unfold scheduleReconnect. repeat tracks_step. }
  assert (∀ e, tracks (start_failed e)) as Hfail.
  { intros e. unfold start_failed. repeat first [apply Hs | tracks_step]. }
  assert (∀ env u, tracks (open_socket env u)) as Hopen.
  { intros env u. unfold open_socket, setupWebSocketHandlers.
    repeat first [apply Hfail | tracks_step]. }
  assert (∀ env, tracks (start env)) as Hstart.
  { intros env. unfold start.
    repeat first [apply Hfail | apply Hopen | tracks_step]. }
  assert (∀ fr, tracks (send fr)) as Hsend.
  { intros fr. unfold send. repeat tracks_step. }
  assert (∀ env, tracks (reconnect env)) as Hre.
  { intros env. unfold reconnect. repeat first [apply Hstart | tracks_step]. }
  destruct ev; cbn [handle].
  - apply Hstart.
  - unfold stop. repeat tracks_step.
  - unfold socket_state. repeat tracks_step.
  - unfold handlePayload, handleHello, sendIdentify, handleDispatch,
      handleReady.
    repeat first [apply Hsend | apply Hre | tracks_step].
  - unfold socket_state, on_close. repeat first [apply Hs | tracks_step].
  - unfold on_error. repeat tracks_step.
  - unfold reconnect_timer_fired. repeat first [apply Hre | tracks_step].
  - unfold invalid_session_timer_fired. repeat first [apply Hs | tracks_step].
  - unfold heartbeat_tick. repeat first [apply Hsend | tracks_step].
Qed.

(** X15. However the events follow each other, the transport never has
    two heartbeat intervals running, and the interval that runs is the one
    whose handle it holds: none is left behind. *)
Theorem one_heartbeat_interval (evs : list event) (w : world) :
  peak_intervals (held_intervals w) (run evs w).2 ≤ 1
  ∧ live_intervals (held_intervals w) (run evs w).2
    = held_intervals (run evs w).1.
Proof.
  enough (tracks (run evs)) as Hrun by (destruct (Hrun w); done).
  induction evs as [|ev evs IH]; cbn [run].
  - apply tracks_skip.
  - apply tracks_andThen; [apply handle_tracks | apply IH].
Qed.

(** *** Frames *)

(** Not a frame written to the socket. *)
Abbreviation no_frame := (λ e : effect, is_send e = false).

Lemma send_not_open (fr : sent_frame) : steady not_open no_frame (send fr).
Proof.
  intros w Hw. pose proof Hw as Hopen. unfold not_open, socket_open in Hopen.
  unfold send, reading.
  destruct (ws (self w)) as [[u []]|]; try done; by split; [|constructor].
Qed.

Lemma handle_not_open (ev : event) :
  is_open_event ev = false → steady not_open no_frame (handle ev).
Proof.
  intros Hev.
  assert (steady not_open no_frame scheduleReconnect) as Hs.
  { unfold scheduleReconnect. repeat steady_step. }
  assert (∀ e, steady not_open no_frame (start_failed e)) as Hfail.
  { intros e. unfold start_failed. repeat first [apply Hs | steady_step]. }
  assert (∀ env u, steady not_open no_frame (open_socket env u)) as Hopen.
  { intros env u. unfold open_socket, setupWebSocketHandlers.
    repeat first [apply Hfail | steady_step]. }
  assert (∀ env, steady not_open no_frame (start env)) as Hstart.
  { intros env. unfold start.
    repeat first [apply Hfail | apply Hopen | steady_step]. }
  assert (steady not_open no_frame stopHeartbeat) as Hstop.
  { unfold stopHeartbeat. repeat steady_step. }
  pose proof send_not_open as Hsend.
  assert (∀ env, steady not_open no_frame (reconnect env)) as Hre.
  { intros env. unfold reconnect.
    repeat first [apply Hstop | apply Hstart | steady_step]. }
  destruct ev; try done; cbn [handle].
  - apply Hstart.
  - unfold stop. repeat first [apply Hstop | steady_step].
  - unfold handlePayload, handleHello, startHeartbeat, sendIdentify,
      handleDispatch, handleReady.
    repeat first [apply Hstop | apply Hsend | apply Hre | steady_step].
  - unfold socket_state, on_close.
    repeat first [apply Hstop | apply Hs | steady_step].
  - unfold on_error. repeat steady_step.
  - unfold reconnect_timer_fired. repeat first [apply Hre | steady_step].
  - unfold invalid_session_timer_fired. repeat first [apply Hs | steady_step].
  - unfold heartbeat_tick. repeat first [apply Hsend | steady_step].
Qed.

(** X16. Until the socket held in [this.ws] has had its open event, the
    transport writes no frame to it, whatever else happens: a Hello that
    arrives earlier starts the heartbeat, but its Identify and every
    heartbeat are dropped. *)
Theorem no_frame_before_open (evs : list event) (w : world) :
  socket_open w = false →
  Forall (λ ev, is_open_event ev = false) evs →
  socket_open (run evs w).1 = false
  ∧ Forall (λ e, is_send e = false) (run evs w).2.
Proof.
  intros Hw Hevs.
  apply (run_steady not_open no_frame evs); [|exact Hw].
  intros ev Hev. apply handle_not_open.
  by apply (proj1 (Forall_forall _ _) Hevs).
Qed.

Lemma no_frame_before_open_witness :
  Forall (λ e, is_send e = false)
    (run [Start (start_env "t" 100);
          SocketMessage {| body := Hello 41250; s := None |} (reconnect_env "t");
          HeartbeatTick] cold_world).2.
Proof.
  apply (no_frame_before_open
           [Start (start_env "t" 100);
            SocketMessage {| body := Hello 41250; s := None |}
                          (reconnect_env "t");
            HeartbeatTick] cold_world).
  - reflexivity.
  - repeat constructor.
Defined.

(** X17. A Hello frame leaves exactly the heartbeat it asks for: the
    interval held before, if any, is cleared and one with the server's
    period is set.  On an open socket one Identify follows, with the token
    ["QQBot " + cachedAccessToken], the intents 4611
    (GUILDS, GUILD_MEMBERS, GUILD_MESSAGES, DIRECT_MESSAGE) and the shard
    [0, 1]; on a socket that is not open nothing is sent. *)
Theorem hello_starts_session
    (hb : Z) (seq : option Z) (env : ReconnectEnv) (w : world) :
  let hello := SocketMessage {| body := Hello hb; s := seq |} env in
  heartbeatInterval (self (handle hello w).1) = Some hb
  ∧ ws (self (handle hello w).1) = ws (self w)
  ∧ (handle hello w).2
    = match heartbeatInterval (self w) with
      | Some _ => [ClearInterval]
      | None => []
      end
      ++ [SetInterval hb]
      ++ (if socket_open w
          then [WsSend (Identify ("QQBot " +:+ default "null" (cachedAccessToken w))
                                 4611 (0, 1)%Z)]
          else []).
Proof.
  cbn zeta. destruct w as [cached c [sock held sq sid n cl ft cc]].
  unfold handle, handlePayload, handleHello, startHeartbeat, stopHeartbeat,
    sendIdentify, send, socket_open, andThen, reading.
  destruct seq, held, sock as [[u []]|]; done.
Qed.

(** X18. A heartbeat carries the sequence number of the last frame that
    had one, whatever the frames were and whether or not the numbers went
    up; [null] if none had. *)
Theorem heartbeat_carries_last_sequence
    (env : ReconnectEnv) (frames : list WSPayload) (w : world) :
  let w' := (run ((λ payload, SocketMessage payload env) <$> frames) w).1 in
  socket_open w' = true →
  handle HeartbeatTick w'
  = (w', [WsSend (Heartbeat (last_seq (lastSequence (self w)) frames))]).
Proof.
  cbn zeta. intros Hopen.
  rewrite <- (lastSequence_after_frames env frames w).
  destruct (run _ w).1 as [cached c r]. cbn [handle].
  unfold heartbeat_tick, send, reading. unfold socket_open in Hopen.
  destruct (ws (self _)) as [[u []]|]; done.
Qed.

Lemma heartbeat_carries_last_sequence_witness :
  let w := (run [Start (start_env "t" 100); SocketOpen] cold_world).1 in
  let w' := (run ((λ payload, SocketMessage payload (reconnect_env "t"))
                    <$> [ack 5; ack 3]) w).1 in
  handle HeartbeatTick w' = (w', [WsSend (Heartbeat (Some 3%Z))]).
Proof.
  cbn zeta.
  apply (heartbeat_carries_last_sequence (reconnect_env "t") [ack 5; ack 3]
           (run [Start (start_env "t" 100); SocketOpen] cold_world).1).
  reflexivity.
Defined.

(** X19. An InvalidSession frame clears the session id and sets a timer
    of 1000 ms, and nothing else: the socket is not closed and the heartbeat
    goes on.  When that timer fires on a transport that is neither stopping
    nor failed and has attempts left, the reconnect is scheduled with the
    next delay of the backoff. *)
Theorem invalid_session_reconnects
    (seq : option Z) (env : ReconnectEnv) (w : world) :
  let frame := SocketMessage {| body := InvalidSession; s := seq |} env in
  isClosing (self w) = false → isFatalError (self w) = false →
  reconnectAttempts (self w) < maxReconnectAttempts →
  (handle frame w).2 = [SetTimeout InvalidSessionTimer 1000]
  ∧ sessionId (self (handle frame w).1) = None
  ∧ ws (self (handle frame w).1) = ws (self w)
  ∧ heartbeatInterval (self (handle frame w).1) = heartbeatInterval (self w)
  ∧ (handle InvalidSessionTimerFired (handle frame w).1).2
    = [SetTimeout ReconnectTimer (backoff (S (reconnectAttempts (self w))))].
Proof.
  cbn zeta. intros Hc Hf Hn.
  destruct w as [cached c [sock held sq sid n cl ft cc]]. cbn in Hc, Hf, Hn.
  subst cl ft.
  assert (∀ sq', (handle InvalidSessionTimerFired
            {| cachedAccessToken := cached; apiClient := c;
               self := {| ws := sock; heartbeatInterval := held;
                          lastSequence := sq'; sessionId := None;
                          reconnectAttempts := n; isClosing := false;
                          isFatalError := false; lastCloseCode := cc |} |}).2
          = [SetTimeout ReconnectTimer (backoff (S n))]) as Hfire.
  { intros sq'. cbn [handle]. unfold invalid_session_timer_fired, reading.
    cbn [self isClosing isFatalError negb andb].
    by rewrite scheduleReconnect_schedules. }
  destruct seq; cbn; split_and!; try done; apply Hfire.
Qed.

Lemma invalid_session_reconnects_witness :
  (handle InvalidSessionTimerFired
     (handle (SocketMessage {| body := InvalidSession; s := None |}
                            (reconnect_env "t")) cold_world).1).2
  = [SetTimeout ReconnectTimer 5000].
Proof.
  apply (invalid_session_reconnects None (reconnect_env "t") cold_world);
    [reflexivity | reflexivity | unfold maxReconnectAttempts; simpl; lia].
Defined.

(** *** Starting and reconnecting *)

Lemma filter_token_requests (p : effect → bool) (reqs : list TokenRequest) :
  (∀ r, p (TokenRequested r) = false) → filter p (TokenRequested <$> reqs) = [].
Proof.
  intros Hp. induction reqs as [|r reqs IH]; [done|]. rewrite fmap_cons.
  rewrite filter_cons_False by (rewrite Hp; exact id). exact IH.
Qed.

(** What [scheduleReconnect] can do. *)
Lemma scheduleReconnect_cases (w : world) :
  ws (self (scheduleReconnect w).1) = ws (self w)
  ∧ ((scheduleReconnect w).2 = []
     ∨ (scheduleReconnect w).2 = [OnError (Error "Max reconnect attempts reached")]
     ∨ ∃ delay, (scheduleReconnect w).2 = [SetTimeout ReconnectTimer delay]).
Proof.
  unfold scheduleReconnect, reading.
  destruct (isClosing (self w) || isFatalError (self w)); [by split; [|left]|].
  destruct (bool_decide _); [by split; [|right; left]|].
  split; [done|]. right; right. by eexists.
Qed.

(** The [catch] block of [start] reports the error and dials nothing. *)
Lemma start_failed_reports (e : js_error) (w : world) :
  ws (self (start_failed e w).1) = ws (self w)
  ∧ filter is_dial (start_failed e w).2 = []
  ∧ filter is_close (start_failed e w).2 = []
  ∧ filter is_on_error (start_failed e w).2 ≠ [].
Proof.
  unfold start_failed. rewrite andThen_fst, andThen_snd. cbn [emit fst snd].
  destruct (scheduleReconnect_cases w) as [Hws [-> | [-> | [delay ->]]]];
    by rewrite Hws.
Qed.

Lemma open_socket_dials (env : StartEnv) (u : string) (w : world) :
  filter is_close (open_socket env u w).2 = []
  ∧ ((filter is_dial (open_socket env u w).2 = [NewWebSocket u]
      ∧ filter is_on_error (open_socket env u w).2 = []
      ∧ ws (self (open_socket env u w).1)
        = Some {| ws_url := u; readyState := CONNECTING |})
     ∨ (filter is_dial (open_socket env u w).2 = []
        ∧ filter is_on_error (open_socket env u w).2 ≠ []
        ∧ ws (self (open_socket env u w).1) = ws (self w))).
Proof.
  unfold open_socket. destruct (socket_throws env) as [e|].
  - destruct (start_failed_reports e w) as (Hws & Hdial & Hclose & Herr).
    split; [done|]. by right.
  - split; [done|]. by left.
Qed.

(** X20. [start] never fails silently and never closes a socket: either
    it dials exactly one new socket, which replaces whatever [this.ws]
    held, and reports no error; or it dials none, leaves [this.ws] as it
    was, and calls [onError] at least once. *)
Theorem start_dials_or_reports (env : StartEnv) (w : world) :
  filter is_close (start env w).2 = []
  ∧ ((∃ u, filter is_dial (start env w).2 = [NewWebSocket u]
           ∧ filter is_on_error (start env w).2 = []
           ∧ ws (self (start env w).1)
             = Some {| ws_url := u; readyState := CONNECTING |})
     ∨ (filter is_dial (start env w).2 = []
        ∧ filter is_on_error (start env w).2 ≠ []
        ∧ ws (self (start env w).1) = ws (self w))).
Proof.
  unfold start. rewrite andThen_fst, andThen_snd.
  set (w0 := (reading (λ w, reconnectAttempts (self w))
                (λ n, when bool_decide (n = 0)
                      then update (set_isFatalError false)) w).1).
  assert (ws (self w0) = ws (self w)) as <-.
  { subst w0. unfold reading. by destruct (bool_decide _). }
  assert ((reading (λ w, reconnectAttempts (self w))
                (λ n, when bool_decide (n = 0)
                      then update (set_isFatalError false)) w).2 = []) as ->.
  { unfold reading. by destruct (bool_decide _). }
  clearbody w0. clear w. rename w0 into w. cbn [app].
  unfold reading.
  destruct (getAccessToken _ _ _ _) as [c1 [token|e] reqs1];
    cbn [outcome client_after requests].
  2: { rewrite !andThen_fst, !andThen_snd. cbn [emit_all set_client fst snd app].
       rewrite ?app_nil_r.
       match goal with
       | |- context [start_failed e ?w1] =>
         destruct (start_failed_reports e w1) as (Hws & Hdial & Hclose & Herr)
       end.
       rewrite !filter_app, !filter_token_requests by done. cbn [app].
       split; [done|]. right. by rewrite Hws. }
  destruct (getGateway _ _ _ _) as [[c2 [g|e]] reqs2].
  2: { rewrite !andThen_fst, !andThen_snd. cbn [emit_all set_client set_cached fst snd app].
       rewrite ?app_nil_r.
       match goal with
       | |- context [start_failed e ?w1] =>
         destruct (start_failed_reports e w1) as (Hws & Hdial & Hclose & Herr)
       end.
       rewrite !filter_app, !filter_token_requests by done. cbn [app].
       split; [done|]. right. by rewrite Hws. }
  rewrite !andThen_fst, !andThen_snd.
  cbn [emit_all set_client set_cached fst snd app]. rewrite ?app_nil_r.
  rewrite !filter_app, !filter_token_requests by done. cbn [app].
  assert (∀ w1, ws (self w1) = ws (self w) →
    filter is_close (open_socket env (url g) w1).2 = []
    ∧ ((∃ u, filter is_dial (open_socket env (url g) w1).2 = [NewWebSocket u]
            ∧ filter is_on_error (open_socket env (url g) w1).2 = []
            ∧ ws (self (open_socket env (url g) w1).1)
              = Some {| ws_url := u; readyState := CONNECTING |})
       ∨ (filter is_dial (open_socket env (url g) w1).2 = []
          ∧ filter is_on_error (open_socket env (url g) w1).2 ≠ []
          ∧ ws (self (open_socket env (url g) w1).1) = ws (self w)))) as Hopen.
  { intros w1 Hw1.
    destruct (open_socket_dials env (url g) w1) as [Hclose [Hd | Hr]].
    - split; [done|]. left. by exists (url g).
    - split; [done|]. right. by rewrite <- Hw1. }
  destruct (session_start_limit g) as [limit|]; [|by apply Hopen].
  destruct (remaining limit =? 0)%Z; [|by apply Hopen].
  split; [done|]. by right.
Qed.

Lemma omap_token_requests (reqs : list TokenRequest) :
  token_requests (TokenRequested <$> reqs) = reqs.
Proof. induction reqs as [|r reqs IH]; [done|]. cbn. by f_equal. Qed.

Lemma token_requests_app (es1 es2 : list effect) :
  token_requests (es1 ++ es2) = token_requests es1 ++ token_requests es2.
Proof. apply omap_app. Qed.

(** Not a request to the issuance endpoint. *)
Abbreviation no_token_request := (λ e : effect, is_token_request e = false).

Lemma no_token_requests (es : list effect) :
  Forall no_token_request es → token_requests es = [].
Proof.
  induction 1 as [|e es He _ IH]; [done|]. unfold token_requests. cbn.
  by destruct e.
Qed.

(** With a token in the cache that is valid at both clock readings,
    [start] asks for none. *)
Lemma start_cached (env : StartEnv) (w : world) (token : string) :
  accessToken (apiClient w) = Some token → token ≠ "" →
  (token_now env + 60 * 1000 < tokenExpiresAt (apiClient w))%Z →
  (gateway_now env + 60 * 1000 < tokenExpiresAt (apiClient w))%Z →
  token_requests (start env w).2 = []
  ∧ cachedAccessToken (start env w).1 = Some token
  ∧ apiClient (start env w).1 = apiClient w.
Proof.
  intros Htok Hne Hnow1 Hnow2.
  assert (∀ t c, steady (holds_token t c) no_token_request scheduleReconnect)
    as Hs.
  { intros t c. unfold scheduleReconnect. repeat steady_step. }
  assert (∀ t c e, steady (holds_token t c) no_token_request (start_failed e))
    as Hfail.
  { intros t c e. unfold start_failed. repeat first [apply Hs | steady_step]. }
  assert (∀ t c u, steady (holds_token t c) no_token_request (open_socket env u))
    as Hopen.
  { intros t c u. unfold open_socket, setupWebSocketHandlers.
    repeat first [apply Hfail | steady_step]. }
  unfold start. rewrite andThen_fst, andThen_snd.
  set (w0 := (reading (λ w, reconnectAttempts (self w))
                (λ n, when bool_decide (n = 0)
                      then update (set_isFatalError false)) w).1).
  assert (apiClient w0 = apiClient w) as Hc0.
  { subst w0. unfold reading. by destruct (bool_decide _). }
  assert ((reading (λ w, reconnectAttempts (self w))
                (λ n, when bool_decide (n = 0)
                      then update (set_isFatalError false)) w).2 = []) as ->.
  { unfold reading. by destruct (bool_decide _). }
  clearbody w0. cbn [app]. unfold reading. rewrite Hc0.
  unfold getGateway, request, getAccessToken, getAccessToken_begin.
  rewrite (cache_valid_true (apiClient w) (token_now env) token) by done.
  cbn [outcome client_after requests].
  rewrite (cache_valid_true (apiClient w) (gateway_now env) token) by done.
  cbn [outcome client_after requests]. rewrite Htok. cbn [default].
  rewrite !andThen_fst, !andThen_snd. cbn [emit_all fmap list_fmap snd fst app].
  match goal with
  | |- context [set_client (apiClient w) (set_cached ?t (set_client ?c ?w1).1).1] =>
    set (w2 := (set_client (apiClient w) (set_cached t (set_client c w1).1).1).1)
  end.
  assert (holds_token (Some token) (apiClient w) w2) as Hw2 by done.
  clearbody w2.
  assert (∀ a, steady (holds_token (Some token) (apiClient w)) no_token_request a →
               token_requests (a w2).2 = []
               ∧ cachedAccessToken (a w2).1 = Some token
               ∧ apiClient (a w2).1 = apiClient w) as Hend.
  { intros a Ha. destruct (Ha w2 Hw2) as [[Ht Hc] Hes].
    split; [by apply no_token_requests|done]. }
  destruct (gateway_net env) as [e|status text|e|g]; try by apply Hend, Hfail.
  destruct (session_start_limit g) as [limit|]; [|by apply Hend, Hopen].
  destruct (remaining limit =? 0)%Z; [|by apply Hend, Hopen].
  apply Hend. repeat steady_step.
Qed.

(** What [reconnect] comes to when the refresh is answered. *)
Lemma reconnect_refreshed (env : ReconnectEnv) (data : TokenResponse) (w : world) :
  refresh_net env = HttpOk data →
  ∃ pre w2,
    token_requests pre = []
    ∧ cachedAccessToken w2 = Some (access_token data)
    ∧ apiClient w2
      = client_after (getAccessToken (apiClient w) true (refresh_now env)
                                     (HttpOk data))
    ∧ reconnect env w
      = ((start (restart env) w2).1,
         pre ++ TokenRequested (token_request_of (apiClient w))
             :: (start (restart env) w2).2).
Proof.
  intros Hnet. destruct w as [cached c [sock held sq sid n cl ft cc]].
  exists (match held with Some _ => [ClearInterval] | None => [] end
          ++ match sock with Some _ => [WsClose] | None => [] end),
    {| cachedAccessToken := Some (access_token data);
       apiClient := client_after (getAccessToken c true (refresh_now env)
                                                 (HttpOk data));
       self := {| ws := None; heartbeatInterval := None; lastSequence := sq;
                  sessionId := sid; reconnectAttempts := n; isClosing := cl;
                  isFatalError := ft; lastCloseCode := cc |} |}.
  split_and!; [by destruct held, sock | done | done |].
  unfold reconnect.
  rewrite (surjective_pairing ((stopHeartbeat ;; _) _)).
  rewrite !andThen_fst, !andThen_snd.
  unfold stopHeartbeat, reading. rewrite Hnet.
  by destruct held, sock.
Qed.

(** Without a token in the cache, [start] begins by asking for one. *)
Lemma start_without_token (env : StartEnv) (w : world) :
  token_truthy (accessToken (apiClient w)) = false →
  head (token_requests (start env w).2) = Some (token_request_of (apiClient w)).
Proof.
  intros Hnone. unfold start. rewrite andThen_snd.
  set (w0 := (reading (λ w, reconnectAttempts (self w))
                (λ n, when bool_decide (n = 0)
                      then update (set_isFatalError false)) w).1).
  assert (apiClient w0 = apiClient w) as Hc0.
  { subst w0. unfold reading. by destruct (bool_decide _). }
  assert ((reading (λ w, reconnectAttempts (self w))
                (λ n, when bool_decide (n = 0)
                      then update (set_isFatalError false)) w).2 = []) as ->.
  { unfold reading. by destruct (bool_decide _). }
  clearbody w0. cbn [app]. unfold reading. rewrite Hc0.
  unfold getAccessToken at 1 2 3 4. unfold getAccessToken_begin, cache_valid.
  rewrite Hnone. cbn [negb andb].
  destruct (getAccessToken_resume _ _ _) as [c1 res].
  cbn [outcome client_after requests].
  by rewrite andThen_snd.
Qed.

(** X21. A reconnect asks the issuance endpoint for a new token whether
    or not the one in the cache is still valid, and when the endpoint
    answers with a token that is valid at [start]'s clock readings, [start]
    makes no second request: one reconnect, one token request, and both
    the client and [cachedAccessToken] hold the new token afterwards. *)
Theorem reconnect_refreshes_token_once
    (env : ReconnectEnv) (data : TokenResponse) (w : world) :
  isClosing (self w) = false → isFatalError (self w) = false →
  refresh_net env = HttpOk data → access_token data ≠ "" →
  (token_now (restart env) + 60 * 1000
   < refresh_now env + expires_in data * 1000)%Z →
  (gateway_now (restart env) + 60 * 1000
   < refresh_now env + expires_in data * 1000)%Z →
  token_requests (handle (ReconnectTimerFired env) w).2
  = [token_request_of (apiClient w)]
  ∧ cachedAccessToken (handle (ReconnectTimerFired env) w).1
    = Some (access_token data)
  ∧ accessToken (apiClient (handle (ReconnectTimerFired env) w).1)
    = Some (access_token data).
Proof.
  intros Hc Hf Hnet Hne Hnow1 Hnow2. cbn [handle].
  unfold reconnect_timer_fired, reading. rewrite Hc, Hf. cbn [negb andb].
  destruct (reconnect_refreshed env data w Hnet)
    as (pre & w2 & Hpre & Hcached2 & Hclient2 & ->).
  cbn [fst snd].
  destruct (start_cached (restart env) w2 (access_token data))
    as (Hreqs & Hcached & Hclient); [by rewrite Hclient2 | done
                                    | by rewrite Hclient2
                                    | by rewrite Hclient2 |].
  rewrite token_requests_app, Hpre. cbn [app].
  change (token_requests (TokenRequested ?r :: ?es))
    with (r :: token_requests es).
  rewrite Hreqs, Hcached, Hclient, Hclient2. done.
Qed.

Lemma reconnect_refreshes_token_once_witness :
  token_requests (handle (ReconnectTimerFired (reconnect_env "t2")) cold_world).2
  = [token_request_of cold_client]
  ∧ cachedAccessToken (handle (ReconnectTimerFired (reconnect_env "t2"))
                              cold_world).1 = Some "t2".
Proof.
  destruct (reconnect_refreshes_token_once (reconnect_env "t2")
              {| access_token := "t2"; expires_in := 7200 |} cold_world)
    as (Hreqs & Hcached & _);
    [reflexivity | reflexivity | reflexivity | done | reflexivity | reflexivity |].
  split; [exact Hreqs | exact Hcached].
Defined.

(** What [reconnect] comes to when the refresh fails. *)
Lemma reconnect_not_refreshed (env : ReconnectEnv) (w : world) :
  (∀ data, refresh_net env ≠ HttpOk data) →
  ∃ pre w2,
    token_requests pre = [] ∧ filter is_on_error pre = []
    ∧ cachedAccessToken w2 = cachedAccessToken w
    ∧ apiClient w2 = apiClient w
    ∧ reconnect env w
      = ((start (restart env) w2).1,
         pre ++ TokenRequested (token_request_of (apiClient w))
             :: (start (restart env) w2).2).
Proof.
  intros Hnet. destruct w as [cached c [sock held sq sid n cl ft cc]].
  exists (match held with Some _ => [ClearInterval] | None => [] end
          ++ match sock with Some _ => [WsClose] | None => [] end),
    {| cachedAccessToken := cached; apiClient := c;
       self := {| ws := None; heartbeatInterval := None; lastSequence := sq;
                  sessionId := sid; reconnectAttempts := n; isClosing := cl;
                  isFatalError := ft; lastCloseCode := cc |} |}.
  split_and!; [by destruct held, sock | by destruct held, sock | done | done |].
  unfold reconnect.
  rewrite (surjective_pairing ((stopHeartbeat ;; _) _)).
  rewrite !andThen_fst, !andThen_snd.
  unfold stopHeartbeat, reading.
  destruct (refresh_net env) as [e|status text|e|data];
    [| | |by destruct (Hnet data)];
    by destruct held, sock.
Qed.

(** X22. A refresh that fails during a reconnect is swallowed: the error
    is not passed to [onError], and [start] runs all the same.  When the
    client still holds a token that is valid at [start]'s clock readings,
    the reconnect goes on with that token, without asking again. *)
Theorem failed_refresh_is_swallowed
    (env : ReconnectEnv) (w : world) (token : string) :
  isClosing (self w) = false → isFatalError (self w) = false →
  (∀ data, refresh_net env ≠ HttpOk data) →
  accessToken (apiClient w) = Some token → token ≠ "" →
  (token_now (restart env) + 60 * 1000 < tokenExpiresAt (apiClient w))%Z →
  (gateway_now (restart env) + 60 * 1000 < tokenExpiresAt (apiClient w))%Z →
  ∃ pre w2,
    filter is_on_error pre = []
    ∧ handle (ReconnectTimerFired env) w
      = ((start (restart env) w2).1,
         pre ++ TokenRequested (token_request_of (apiClient w))
             :: (start (restart env) w2).2)
    ∧ token_requests (handle (ReconnectTimerFired env) w).2
      = [token_request_of (apiClient w)]
    ∧ cachedAccessToken (handle (ReconnectTimerFired env) w).1 = Some token
    ∧ apiClient (handle (ReconnectTimerFired env) w).1 = apiClient w.
Proof.
  intros Hc Hf Hnet Htok Hne Hnow1 Hnow2. cbn [handle].
  unfold reconnect_timer_fired, reading. rewrite Hc, Hf. cbn [negb andb].
  destruct (reconnect_not_refreshed env w Hnet)
    as (pre & w2 & Hpre & Herr & Hcached2 & Hclient2 & ->).
  exists pre, w2. cbn [fst snd]. split; [done|]. split; [done|].
  destruct (start_cached (restart env) w2 token)
    as (Hreqs & Hcached & Hclient); [by rewrite Hclient2 | done
                                    | by rewrite Hclient2
                                    | by rewrite Hclient2 |].
  rewrite token_requests_app, Hpre. cbn [app].
  change (token_requests (TokenRequested ?r :: ?es))
    with (r :: token_requests es).
  by rewrite Hreqs, Hcached, Hclient, Hclient2.
Qed.

Lemma failed_refresh_is_swallowed_witness :
  let env := {| refresh_now := 2000;
                refresh_net := FetchRejected (Error "offline");
                restart := start_env "t" 100 |} in
  let w := {| cachedAccessToken := None; apiClient := fresh_client;
              self := new_runtime |} in
  token_requests (handle (ReconnectTimerFired env) w).2
  = [token_request_of fresh_client]
  ∧ cachedAccessToken (handle (ReconnectTimerFired env) w).1 = Some "token-1".
Proof.
  cbn zeta.
  destruct (failed_refresh_is_swallowed
              {| refresh_now := 2000;
                 refresh_net := FetchRejected (Error "offline");
                 restart := start_env "t" 100 |}
              {| cachedAccessToken := None; apiClient := fresh_client;
                 self := new_runtime |} "token-1")
    as (pre & w2 & _ & _ & Hreqs & Hcached & _);
    [reflexivity | reflexivity | done | reflexivity | done
    | reflexivity | reflexivity |].
  split; [exact Hreqs | exact Hcached].
Defined.

End RuntimeExtras.

Module ProcessExtras.
Import Client Wire Process Samples Accounts.

(** *** What an event of one account leaves alone *)

Lemma on_account_frame (id other : string) (a : Runtime.action) (p : process) :
  id ≠ other →
  apiClients (on_account id a p).1 !! other = apiClients p !! other
  ∧ activeRuntimes (on_account id a p).1 !! other = activeRuntimes p !! other
  ∧ Forall (λ x, x.1 ≠ other) (on_account id a p).2.
Proof.
  intros Hne. unfold on_account.
  destruct (activeRuntimes p !! id), (apiClients p !! id);
    try by (split_and!; [done | done | constructor]).
  destruct (a _) as [w es]. cbn. rewrite !lookup_insert_ne by done.
  split_and!; [done | done |]. apply Forall_fmap, Forall_forall.
  by intros e _.
Qed.

Lemma getOrCreateApiClient_other
    (id other : string) (config : QQChannelAccount)
    (clients : gmap string QQApiClient) :
  id ≠ other →
  (getOrCreateApiClient id config clients).2 !! other = clients !! other.
Proof.
  intros Hne. unfold getOrCreateApiClient.
  destruct (clients !! id); [done|]. cbn. by rewrite lookup_insert_ne.
Qed.

Lemma startAccount_frame
    (id other : string) (account : option QQChannelAccount)
    (env : Runtime.StartEnv) (p : process) :
  id ≠ other →
  apiClients (startAccount id account env p).1.1 !! other
  = apiClients p !! other
  ∧ activeRuntimes (startAccount id account env p).1.1 !! other
    = activeRuntimes p !! other
  ∧ Forall (λ x, x.1 ≠ other) (startAccount id account env p).1.2.
Proof.
  intros Hne. unfold startAccount.
  destruct (activeRuntimes p !! id);
    [by split_and!; [done | done | constructor]|].
  destruct account as [account|];
    [|by split_and!; [done | done | constructor]].
  pose proof (getOrCreateApiClient_other id other account (apiClients p) Hne)
    as Hclients.
  destruct (getOrCreateApiClient _ _ _) as [c clients]. cbn in Hclients.
  match goal with
  | |- context [on_account id ?a ?p1] =>
    destruct (on_account_frame id other a p1 Hne) as (H1 & H2 & H3);
    destruct (on_account id a p1) as [p2 tr]
  end.
  cbn in *. rewrite H1, H2, Hclients, lookup_insert_ne by done. done.
Qed.

Lemma stopAccount_frame (id other : string) (p : process) :
  id ≠ other →
  apiClients (stopAccount id p).1 !! other = apiClients p !! other
  ∧ activeRuntimes (stopAccount id p).1 !! other = activeRuntimes p !! other
  ∧ Forall (λ x, x.1 ≠ other) (stopAccount id p).2.
Proof.
  intros Hne. unfold stopAccount.
  destruct (activeRuntimes p !! id);
    [|by split_and!; [done | done | constructor]].
  destruct (on_account_frame id other Runtime.stop p Hne) as (H1 & H2 & H3).
  destruct (on_account id Runtime.stop p) as [p1 tr]. cbn in *.
  rewrite !lookup_delete_ne by done. done.
Qed.

Lemma sendText_frame
    (id other : string) (account : option QQChannelAccount) (now : Z)
    (token_net : fetch_result TokenResponse)
    (api_net : fetch_result SendMessageResponse) (p : process) :
  id ≠ other →
  apiClients (sendText id account now token_net api_net p).1.1 !! other
  = apiClients p !! other
  ∧ activeRuntimes (sendText id account now token_net api_net p).1.1
    = activeRuntimes p
  ∧ Forall (λ x, x.1 ≠ other) (sendText id account now token_net api_net p).1.2.
Proof.
  intros Hne. unfold sendText.
  destruct account as [account|];
    [|by split_and!; [done | done | constructor]].
  pose proof (getOrCreateApiClient_other id other account (apiClients p) Hne)
    as Hclients.
  destruct (getOrCreateApiClient _ _ _) as [c clients]. cbn in Hclients.
  destruct (request _ _ _ _) as [[c' response] reqs]. cbn.
  rewrite lookup_insert_ne by done. split_and!; [done | done |].
  apply Forall_fmap, Forall_forall. by intros e _.
Qed.

Lemma handle_frame (ev : event) (other : string) (p : process) :
  account_of ev ≠ other →
  apiClients (handle ev p).1 !! other = apiClients p !! other
  ∧ activeRuntimes (handle ev p).1 !! other = activeRuntimes p !! other
  ∧ Forall (λ x, x.1 ≠ other) (handle ev p).2.
Proof.
  destruct ev as [id account env|id|id ev|id account now token_net api_net];
    cbn [account_of handle]; intros Hne.
  - by apply startAccount_frame.
  - by apply stopAccount_frame.
  - by apply on_account_frame.
  - destruct (sendText_frame id other account now token_net api_net p Hne)
      as (H1 & H2 & H3).
    by rewrite H2.
Qed.

Lemma run_frame (evs : list event) (id : string) (p : process) :
  Forall (λ ev, account_of ev ≠ id) evs →
  apiClients (run evs p).1 !! id = apiClients p !! id
  ∧ activeRuntimes (run evs p).1 !! id = activeRuntimes p !! id
  ∧ Forall (λ x, x.1 ≠ id) (run evs p).2.
Proof.
  intros Hevs. revert p.
  induction Hevs as [|ev evs Hev _ IH]; intros p.
  - by split_and!; [done | done | constructor].
  - cbn [run].
    destruct (handle_frame ev id p Hev) as (H1 & H2 & H3).
    destruct (handle ev p) as [p1 t1].
    destruct (IH p1) as (H4 & H5 & H6).
    destruct (run evs p1) as [p2 t2]. cbn in *.
    rewrite H4, H5, H1, H2. split_and!; [done | done |].
    by apply Forall_app.
Qed.

(** X23. What is started, stopped, received or sent for other accounts
    ([startAccount], the stop handler, the events of their transports,
    [sendText] and [sendMedia]) leaves the entries of an account in
    [apiClients] and [activeRuntimes], that is its client with token and
    expiry and its transport, exactly as they were, and causes no effect in
    its name.  (Two variables of the modules are shared by all accounts and
    are not covered by this: [cachedAccessToken] and [recentReplies].) *)
Theorem other_accounts_untouched
    (evs : list event) (id : string) (p : process) :
  Forall (λ ev, account_of ev ≠ id) evs →
  apiClients (run evs p).1 !! id = apiClients p !! id
  ∧ activeRuntimes (run evs p).1 !! id = activeRuntimes p !! id
  ∧ Forall (λ x, x.1 ≠ id) (run evs p).2.
Proof. apply run_frame. Qed.

Lemma other_accounts_untouched_witness :
  let p := (run [StartAccount "A" (account "1") (start_env "tokenA" 100)]
                boot).1 in
  let evs := [StartAccount "B" (account "2") (start_env "tokenB" 100);
              Transport "B" Runtime.SocketOpen;
              Outbound "B" (account "2") 2000 (issued "tokenB")
                       (HttpOk {| sent_id := "r1"; sent_timestamp := "" |});
              Transport "B" (Runtime.SocketClose 4004 "auth");
              StopAccount "B"] in
  apiClients (run evs p).1 !! "A" = apiClients p !! "A"
  ∧ activeRuntimes (run evs p).1 !! "A" = activeRuntimes p !! "A".
Proof.
  cbn zeta.
  destruct (other_accounts_untouched
              [StartAccount "B" (account "2") (start_env "tokenB" 100);
               Transport "B" Runtime.SocketOpen;
               Outbound "B" (account "2") 2000 (issued "tokenB")
                        (HttpOk {| sent_id := "r1"; sent_timestamp := "" |});
               Transport "B" (Runtime.SocketClose 4004 "auth");
               StopAccount "B"] "A"
              (run [StartAccount "A" (account "1") (start_env "tokenA" 100)]
                   boot).1) as (Hclients & Hruntimes & _).
  - repeat constructor; discriminate.
  - split; [exact Hclients | exact Hruntimes].
Defined.

(** *** Starting and stopping an account *)

Lemma on_account_registers (id : string) (a : Runtime.action) (p : process) :
  is_Some (activeRuntimes p !! id) →
  is_Some (activeRuntimes (on_account id a p).1 !! id).
Proof.
  intros Hid. unfold on_account.
  destruct (activeRuntimes p !! id) eqn:Hrun, (apiClients p !! id);
    try by (cbn; rewrite Hrun).
  destruct (a _) as [w es]. cbn. by rewrite lookup_insert_eq.
Qed.

Lemma effects_of_tagged (who : string) (es : list effect) :
  effects_of ((λ e, (who, e)) <$> es) = es.
Proof.
  unfold effects_of. induction es as [|e es IH]; [done|]. cbn. by f_equal.
Qed.

Lemma startAccount_registers
    (id : string) (account : QQChannelAccount) (env : Runtime.StartEnv)
    (p : process) :
  is_Some (activeRuntimes (startAccount id (Some account) env p).1.1 !! id).
Proof.
  unfold startAccount. destruct (activeRuntimes p !! id) eqn:Hrun.
  - cbn. by rewrite Hrun.
  - destruct (getOrCreateApiClient _ _ _) as [c clients].
    match goal with
    | |- context [on_account id ?a ?p1] =>
      pose proof (on_account_registers id a p1) as Hreg;
      destruct (on_account id a p1) as [p2 tr]
    end.
    cbn in *. apply Hreg. by rewrite lookup_insert_eq.
Qed.

(** A running account stays a running account under every event but a call
    of its stop handler. *)
Lemma handle_keeps_running (ev : event) (id : string) (p : process) :
  is_stop_of id ev = false →
  is_Some (activeRuntimes p !! id) →
  is_Some (activeRuntimes (handle ev p).1 !! id).
Proof.
  intros Hev Hid.
  destruct (decide (account_of ev = id)) as [Hsame | Hother].
  2:{ destruct (handle_frame ev id p Hother) as (_ & -> & _). done. }
  destruct ev as [id' account env|id'|id' ev|id' account now token_net api_net];
    cbn [account_of] in Hsame; subst id'; cbn [handle].
  - destruct Hid as [r Hr]. unfold startAccount. rewrite Hr. cbn.
    by rewrite Hr.
  - cbn in Hev. by rewrite String.eqb_refl in Hev.
  - by apply on_account_registers.
  - unfold sendText. destruct account as [account|]; [|done].
    destruct (getOrCreateApiClient _ _ _) as [c clients].
    by destruct (request _ _ _ _) as [[c' response] reqs].
Qed.

Lemma run_keeps_running (evs : list event) (id : string) (p : process) :
  Forall (λ ev, is_stop_of id ev = false) evs →
  is_Some (activeRuntimes p !! id) →
  is_Some (activeRuntimes (run evs p).1 !! id).
Proof.
  intros Hevs. revert p.
  induction Hevs as [|ev evs Hev _ IH]; intros p Hid; [done|].
  cbn [run].
  pose proof (handle_keeps_running ev id p Hev Hid) as H1.
  destruct (handle ev p) as [p1 t1].
  specialize (IH p1 H1). by destruct (run evs p1) as [p2 t2].
Qed.

(** X24. Once [startAccount] has been called for a configured account,
    the account counts as running, whether or not its [start] succeeded
    (no token, no quota left, no socket), and it goes on doing so whatever
    happens next to this account or to others, until its stop handler is
    called: every further [startAccount] for it returns [null] at once,
    without reading the configuration, with no effect and no change. *)
Theorem startAccount_registers_once
    (id : string) (account : QQChannelAccount) (env : Runtime.StartEnv)
    (p : process) (evs : list event) :
  Forall (λ ev, is_stop_of id ev = false) evs →
  let p2 := (run evs (startAccount id (Some account) env p).1.1).1 in
  is_Some (activeRuntimes p2 !! id)
  ∧ ∀ account' env', startAccount id account' env' p2 = (p2, [], Returned false).
Proof.
  intros Hevs. cbn zeta.
  pose proof (run_keeps_running evs id _ Hevs
                (startAccount_registers id account env p)) as Hid.
  split; [exact Hid|]. intros account' env'.
  destruct Hid as [r Hr]. unfold startAccount at 1. by rewrite Hr.
Qed.

Lemma startAccount_registers_once_witness :
  let p2 := (run [Transport "A" (Runtime.SocketClose 4004 "auth");
                  StartAccount "B" (account "2") (start_env "tokenB" 100);
                  StopAccount "B";
                  Outbound "A" (account "1") 2000 (issued "tokenA")
                           (HttpOk {| sent_id := "r1"; sent_timestamp := "" |})]
                 (startAccount "A" (account "1") (start_env "tokenA" 0)
                               boot).1.1).1 in
  startAccount "A" None (start_env "tokenA" 100) p2 = (p2, [], Returned false).
Proof.
  cbn zeta.
  apply (startAccount_registers_once "A"
           {| acc_appId := "1"; acc_appSecret := "secret";
              acc_botToken := "bot"; acc_sandbox := false |}
           (start_env "tokenA" 0) boot
           [Transport "A" (Runtime.SocketClose 4004 "auth");
            StartAccount "B" (account "2") (start_env "tokenB" 100);
            StopAccount "B";
            Outbound "A" (account "1") 2000 (issued "tokenA")
                     (HttpOk {| sent_id := "r1"; sent_timestamp := "" |})]).
  repeat constructor.
Defined.

(** X25. The stop handler of a running account calls [stop] on its
    transport: the heartbeat interval is cleared if one runs and the socket
    is closed if one is held, nothing else is done to the outside, and the
    transport is left marked as closing, without a socket and without an
    interval.  It then forgets both the transport and the client, token
    cache included, and touches no other account.  As long as nothing is done for this account in
    between, a [startAccount] for it begins with a request to the issuance
    endpoint for the credentials it is given, however fresh the forgotten
    token was; a [sendText] or [sendMedia] in between makes a client for the
    account again. *)
Theorem stopAccount_forgets
    (id : string) (p : process) (r : Runtime.QQChannelRuntime)
    (c : QQApiClient) :
  activeRuntimes p !! id = Some r → apiClients p !! id = Some c →
  let p1 := (stopAccount id p).1 in
  effects_of (stopAccount id p).2
  = match Runtime.heartbeatInterval r with
    | Some _ => [ClearInterval]
    | None => []
    end
    ++ match Runtime.ws r with
       | Some _ => [WsClose]
       | None => []
       end
  ∧ (∃ r', activeRuntimes (on_account id Runtime.stop p).1 !! id = Some r'
           ∧ Runtime.isClosing r' = true ∧ Runtime.ws r' = None
           ∧ Runtime.heartbeatInterval r' = None)
  ∧ activeRuntimes p1 !! id = None ∧ apiClients p1 !! id = None
  ∧ (∀ other, other ≠ id →
       activeRuntimes p1 !! other = activeRuntimes p !! other
       ∧ apiClients p1 !! other = apiClients p !! other)
  ∧ (∀ evs account env,
       Forall (λ ev, account_of ev ≠ id) evs →
       head (Watch.token_requests
               (effects_of (startAccount id (Some account) env
                                         (run evs p1).1).1.2))
       = Some {| req_appId := acc_appId account;
                 req_clientSecret := acc_appSecret account |})
  ∧ (∀ account now token_net api_net,
       apiClients (handle (Outbound id (Some account) now token_net api_net)
                          p1).1 !! id
       = Some (request (new_client (acc_appId account) (acc_appSecret account)
                                   (acc_sandbox account))
                       now token_net api_net).1.1).
Proof.
  intros Hr Hc. cbn zeta.
  assert (∃ p0,
    on_account id Runtime.stop p
    = (p0, (λ e, (id, e))
             <$> (match Runtime.heartbeatInterval r with
                  | Some _ => [ClearInterval]
                  | None => []
                  end
                  ++ match Runtime.ws r with
                     | Some _ => [WsClose]
                     | None => []
                     end))) as (p0 & Hstop).
  { unfold on_account. rewrite Hr, Hc.
    destruct r as [sock held sq sid n cl ft cc].
    destruct held, sock; by eexists. }
  assert (activeRuntimes (stopAccount id p).1 !! id = None) as Hgone1.
  { unfold stopAccount. rewrite Hr, Hstop. cbn. by rewrite lookup_delete_eq. }
  assert (apiClients (stopAccount id p).1 !! id = None) as Hgone2.
  { unfold stopAccount. rewrite Hr, Hstop. cbn. by rewrite lookup_delete_eq. }
  split_and!; [| | done | done | | |].
  - unfold stopAccount. rewrite Hr, Hstop. cbn [snd].
    by rewrite effects_of_tagged.
  - unfold on_account. rewrite Hr, Hc.
    destruct r as [sock held sq sid n cl ft cc].
    destruct held, sock; cbn; rewrite lookup_insert_eq; by eexists.
  - intros other Hne.
    destruct (stopAccount_frame id other p) as (H1 & H2 & _); [done|].
    by split.
  - intros evs account env Hevs.
    destruct (run_frame evs id (stopAccount id p).1 Hevs) as (Hcl & Hrt & _).
    rewrite Hgone1 in Hrt. rewrite Hgone2 in Hcl.
    unfold startAccount, getOrCreateApiClient.
    rewrite Hrt, Hcl. cbv beta iota zeta. unfold on_account.
    cbn [activeRuntimes apiClients cachedAccessToken].
    rewrite !lookup_insert_eq.
    destruct (Runtime.start _ _) as [w es'] eqn:Hw. cbn [fst snd].
    rewrite effects_of_tagged.
    replace es' with (Runtime.start env
      {| Runtime.cachedAccessToken := cachedAccessToken (run evs (stopAccount id p).1).1;
         Runtime.apiClient := new_client (acc_appId account)
                                (acc_appSecret account) (acc_sandbox account);
         Runtime.self := Runtime.new_runtime |}).2 by by rewrite Hw.
    by rewrite RuntimeExtras.start_without_token.
  - intros account now token_net api_net. cbn [handle].
    unfold sendText, getOrCreateApiClient. rewrite Hgone2.
    destruct (request _ _ _ _) as [[c' response] reqs]. cbn.
    by rewrite lookup_insert_eq.
Qed.

Lemma stopAccount_forgets_witness :
  let p := (run [StartAccount "A" (account "1") (start_env "tokenA" 100)]
                boot).1 in
  effects_of (stopAccount "A" p).2 = [WsClose]
  ∧ apiClients (stopAccount "A" p).1 !! "A" = None
  ∧ head (Watch.token_requests
            (effects_of (startAccount "A" (account "1") (start_env "tokenA2" 100)
                                      (run [] (stopAccount "A" p).1).1).1.2))
    = Some {| req_appId := "1"; req_clientSecret := "secret" |}.
Proof.
  cbn zeta.
  destruct (stopAccount_forgets "A"
              (run [StartAccount "A" (account "1") (start_env "tokenA" 100)]
                   boot).1
              {| Runtime.ws := Some {| ws_url := "wss://api.sgroup.qq.com/websocket";
                                       readyState := CONNECTING |};
                 Runtime.heartbeatInterval := None;
                 Runtime.lastSequence := None; Runtime.sessionId := None;
                 Runtime.reconnectAttempts := 0; Runtime.isClosing := false;
                 Runtime.isFatalError := false;
                 Runtime.lastCloseCode := None |}
              {| appId := "1"; appSecret := "secret";
                 baseUrl := PRODUCTION_API_BASE;
                 accessToken := Some "tokenA"; tokenExpiresAt := 7201000 |})
    as (Heffects & _ & _ & Hgone & _ & Hrestart & _);
    [by vm_compute | by vm_compute |].
  split; [exact Heffects|]. split; [exact Hgone|].
  exact (Hrestart [] {| acc_appId := "1"; acc_appSecret := "secret";
                        acc_botToken := "bot"; acc_sandbox := false |}
                  (start_env "tokenA2" 100) (List.Forall_nil _)).
Defined.

End ProcessExtras.

Module ChannelExtras.
Import Js Client Wire Channel.

(** *** The cut *)

Lemma truncate_reply_length (t : js_string) :
  length (truncate_reply t) ≤ MAX_MESSAGE_LENGTH.
Proof.
  unfold truncate_reply. case_bool_decide as Hlong; [|lia].
  rewrite length_app, length_take. change (length truncateMsg) with 15.
  unfold MAX_MESSAGE_LENGTH in *. lia.
Qed.

Lemma deliver_call (message : MessagePayload) (isDirect : bool)
    (text : option js_string) (env : deliver_env) (st : channel_state)
    (call : send_call) :
  call ∈ calls (deliver message isDirect text env st) →
  ∃ t, text = Some t ∧ t ≠ []
       ∧ call_content call = truncate_reply (filter_reply t)
       ∧ call_msg_id call = msg_id message
       ∧ calls (deliver message isDirect text env st) = [call]
       ∧ is_duplicate
           (recentReplies st !! (channel_id message +:+ ":" +:+ msg_id message))
           (truncate_reply (filter_reply t)) (date_now env) = false.
Proof.
  unfold deliver. destruct text as [[|c t]|]; cbn [calls]; try by inversion 1.
  destruct (is_duplicate _ _ _) eqn:Hdup; cbn [calls]; [by inversion 1|].
  destruct (request _ _ _ _) as [[c' [response|e]] reqs]; cbn [calls];
    intros Hin%list_elem_of_singleton; subst call;
    exists (c :: t); by destruct (isDirect && _).
Qed.

(** X26. Whatever the reply, the text handed to the client has at most
    2000 UTF-16 code units and answers the message by its id: a filtered
    reply of at most 2000 code units goes out as it is, a longer one is cut
    to its first 1985 code units followed by the 15 code units of the
    notice. *)
Theorem delivered_text_fits
    (message : MessagePayload) (isDirect : bool) (text : option js_string)
    (env : deliver_env) (st : channel_state) (call : send_call) :
  call ∈ calls (deliver message isDirect text env st) →
  length (call_content call) ≤ 2000
  ∧ call_msg_id call = msg_id message
  ∧ ∃ t, text = Some t
         ∧ (length (filter_reply t) ≤ 2000 →
            call_content call = filter_reply t)
         ∧ (2000 < length (filter_reply t) →
            call_content call = take 1985 (filter_reply t) ++ truncateMsg
            ∧ length (call_content call) = 2000).
Proof.
  intros (t & -> & _ & Hcontent & Hid & _)%deliver_call.
  rewrite Hcontent. split; [apply truncate_reply_length|]. split; [done|].
  exists t. split; [done|]. unfold truncate_reply, MAX_MESSAGE_LENGTH.
  split; intros Hlen.
  - by rewrite bool_decide_false by lia.
  - rewrite bool_decide_true by lia. split; [done|].
    rewrite length_app, length_take. change (length truncateMsg) with 15. lia.
Qed.

Lemma delivered_text_fits_witness :
  let message := {| msg_id := "m1"; channel_id := "c1"; guild_id := "g1";
                    content := "hi";
                    author := {| user_id := "u1"; username := "ann" |} |} in
  let env := {| date_now := 10000; request_now := 10001;
                token_net := Samples.issued "t";
                api_net := HttpOk {| sent_id := "r1"; sent_timestamp := "" |} |} in
  let call := {| direct := false; target := "c1";
                 call_content := lit "see [link]"; call_msg_id := "m1" |} in
  length (call_content call) ≤ 2000.
Proof.
  cbn zeta.
  apply (delivered_text_fits
           {| msg_id := "m1"; channel_id := "c1"; guild_id := "g1";
              content := "hi";
              author := {| user_id := "u1"; username := "ann" |} |}
           false (Some (lit "see https://clawdhub.com/x"))
           {| date_now := 10000; request_now := 10001;
              token_net := Samples.issued "t";
              api_net := HttpOk {| sent_id := "r1"; sent_timestamp := "" |} |}
           {| recentReplies := ∅; client := Samples.cold_client |}
           {| direct := false; target := "c1";
              call_content := lit "see [link]"; call_msg_id := "m1" |}).
  vm_compute. apply list_elem_of_here.
Defined.

(** *** Replies that were sent already *)

(** A call for another message leaves the entry of a message alone, if
    the entry is not older than 5000 ms at the clock of that call. *)
Lemma deliver_keeps_entry
    (d : delivery_call) (st : channel_state) (key : string)
    (entry : recent_reply) :
  message_key (for_message d) ≠ key →
  (date_now (in_env d) - reply_timestamp entry ≤ 5000)%Z →
  recentReplies st !! key = Some entry →
  recentReplies (state_after (deliver (for_message d) (as_direct d)
                                      (with_text d) (in_env d) st)) !! key
  = Some entry.
Proof.
  intros Hkey Hclock Hentry. unfold deliver.
  destruct (with_text d) as [[|c t]|]; [done| |done].
  destruct (is_duplicate _ _ _); [done|].
  destruct (request _ _ _ _) as [[c1 [response|e]] reqs]; [|done].
  cbn [state_after recentReplies].
  apply map_lookup_filter_Some_2.
  - by rewrite lookup_insert_ne.
  - cbn. unfold REPLY_DEDUP_WINDOW_MS. lia.
Qed.

Lemma deliver_all_keeps_entry
    (ds : list delivery_call) (st : channel_state) (key : string)
    (entry : recent_reply) :
  Forall (λ d, message_key (for_message d) ≠ key
               ∧ (date_now (in_env d) - reply_timestamp entry ≤ 5000)%Z) ds →
  recentReplies st !! key = Some entry →
  recentReplies (deliver_all ds st) !! key = Some entry.
Proof.
  intros Hds. revert st.
  induction Hds as [|d ds [Hkey Hclock] _ IH]; intros st Hentry; [done|].
  cbn [deliver_all foldl]. apply IH. by apply deliver_keeps_entry.
Qed.

(** What [deliver] does with a reply when the entry of the message is
    known. *)
Lemma deliver_by_entry
    (message : MessagePayload) (isDirect : bool) (t : js_string)
    (env : deliver_env) (st : channel_state) :
  t ≠ [] →
  if is_duplicate (recentReplies st !! message_key message)
                  (truncate_reply (filter_reply t)) (date_now env)
  then deliver message isDirect (Some t) env st
       = {| state_after := st; calls := []; token_requests := [];
            completion_of := Returned () |}
  else calls (deliver message isDirect (Some t) env st) ≠ []
       ∧ match completion_of (deliver message isDirect (Some t) env st) with
         | Returned _ =>
           recentReplies (state_after (deliver message isDirect (Some t) env st))
             !! message_key message
           = Some {| reply_text := truncate_reply (filter_reply t);
                     reply_timestamp := date_now env |}
         | Thrown _ =>
           recentReplies (state_after (deliver message isDirect (Some t) env st))
           = recentReplies st
         end.
Proof.
  intros Ht. unfold deliver, message_key. destruct t as [|c t]; [done|].
  destruct (is_duplicate _ _ _); [done|].
  destruct (request _ _ _ _) as [[c1 [response|e]] reqs];
    cbn [calls completion_of state_after recentReplies]; (split; [done|]);
    [|done].
  apply map_lookup_filter_Some_2; [by rewrite lookup_insert_eq|].
  cbn. unfold REPLY_DEDUP_WINDOW_MS. lia.
Qed.

(** X27. For every message [recentReplies] holds one entry at most: the
    last reply that was sent for it, with the time of sending.  A reply is
    held back exactly when that entry has the same text and is less than
    5000 ms old.  So a reply that was sent is not sent again within 5000 ms
    as long as no other reply was sent for the same message since, whatever
    was delivered for other messages meanwhile, and it is sent again from
    5000 ms on; but once another reply has been sent for the same message,
    the first text is sent again at any time.  A reply whose sending failed
    is not recorded, so the next attempt is made.  The calls of [deliver]
    are taken one after the other, each at its end before the next
    begins. *)
Theorem duplicate_reply_suppressed
    (message : MessagePayload) (isDirect isDirect' : bool) (t : js_string)
    (env env' : deliver_env) (st : channel_state)
    (others : list delivery_call) :
  let first := deliver message isDirect (Some t) env st in
  calls first ≠ [] → (date_now env ≤ date_now env')%Z →
  Forall (λ d, message_key (for_message d) ≠ message_key message
               ∧ (date_now (in_env d) - date_now env ≤ 5000)%Z) others →
  match completion_of first with
  | Returned _ =>
    let st' := deliver_all others (state_after first) in
    ((date_now env' - date_now env < 5000)%Z →
     deliver message isDirect' (Some t) env' st'
     = {| state_after := st'; calls := [];
          token_requests := []; completion_of := Returned () |})
    ∧ ((5000 ≤ date_now env' - date_now env)%Z →
       calls (deliver message isDirect' (Some t) env' st') ≠ [])
    ∧ (∀ (t2 : js_string) isDirect2 env2,
         t2 ≠ [] →
         truncate_reply (filter_reply t2) ≠ truncate_reply (filter_reply t) →
         let second := deliver message isDirect2 (Some t2) env2 st' in
         calls second ≠ []
         ∧ (completion_of second = Returned () →
            calls (deliver message isDirect' (Some t) env' (state_after second))
            ≠ []))
  | Thrown _ =>
    recentReplies (state_after first) = recentReplies st
    ∧ calls (deliver message isDirect' (Some t) env' (state_after first)) ≠ []
  end.
Proof.
  cbn zeta. intros Hsent Hclock Hothers.
  assert (t ≠ []) as Ht by by intros ->.
  pose proof (deliver_by_entry message isDirect t env st Ht) as Hfirst.
  destruct (is_duplicate (recentReplies st !! message_key message) _ _)
    eqn:Hdup; [exfalso; apply Hsent; by rewrite Hfirst|].
  destruct Hfirst as [_ Hfirst].
  destruct (completion_of (deliver message isDirect (Some t) env st))
    as [[]|e].
  - set (st1 := state_after (deliver message isDirect (Some t) env st)) in *.
    set (entry := {| reply_text := truncate_reply (filter_reply t);
                     reply_timestamp := date_now env |}) in *.
    assert (recentReplies (deliver_all others st1) !! message_key message
            = Some entry) as Hentry.
    { by apply deliver_all_keeps_entry. }
    set (st' := deliver_all others st1) in *.
    split; [|split].
    + intros Hsoon.
      pose proof (deliver_by_entry message isDirect' t env' st' Ht) as Hagain.
      rewrite Hentry in Hagain. unfold is_duplicate in Hagain.
      cbn [entry reply_text reply_timestamp] in Hagain.
      rewrite bool_decide_true in Hagain by done.
      unfold REPLY_DEDUP_WINDOW_MS in Hagain.
      by rewrite (proj2 (Z.ltb_lt _ _)) in Hagain by done.
    + intros Hlate.
      pose proof (deliver_by_entry message isDirect' t env' st' Ht) as Hagain.
      rewrite Hentry in Hagain. unfold is_duplicate in Hagain.
      cbn [entry reply_text reply_timestamp] in Hagain.
      unfold REPLY_DEDUP_WINDOW_MS in Hagain.
      rewrite (proj2 (Z.ltb_ge _ _)), andb_false_r in Hagain by done.
      by destruct Hagain.
    + intros t2 isDirect2 env2 Ht2 Hdiffers. cbn zeta.
      pose proof (deliver_by_entry message isDirect2 t2 env2 st' Ht2)
        as Hsecond.
      rewrite Hentry in Hsecond. unfold is_duplicate in Hsecond.
      cbn [entry reply_text reply_timestamp] in Hsecond.
      rewrite bool_decide_false in Hsecond
        by (by intros Heq; rewrite Heq in Hdiffers).
      cbn [andb] in Hsecond. destruct Hsecond as [Hsent2 Hrecorded].
      split; [exact Hsent2|]. intros Hok. rewrite Hok in Hrecorded.
      pose proof (deliver_by_entry message isDirect' t env'
                    (state_after
                       (deliver message isDirect2 (Some t2) env2 st')) Ht)
        as Hagain.
      rewrite Hrecorded in Hagain. unfold is_duplicate in Hagain.
      cbn [reply_text reply_timestamp] in Hagain.
      rewrite bool_decide_false in Hagain by done.
      by destruct Hagain.
  - split; [exact Hfirst|].
    pose proof (deliver_by_entry message isDirect' t env'
                  (state_after (deliver message isDirect (Some t) env st)) Ht)
      as Hagain.
    rewrite Hfirst in Hagain.
    assert (is_duplicate (recentReplies st !! message_key message)
              (truncate_reply (filter_reply t)) (date_now env') = false)
      as Hstill.
    { unfold is_duplicate in *.
      destruct (recentReplies st !! message_key message) as [last|]; [|done].
      apply andb_false_iff in Hdup as [Htext | Hold]; [by rewrite Htext|].
      apply andb_false_iff. right.
      apply Z.ltb_ge. apply Z.ltb_ge in Hold. lia. }
    rewrite Hstill in Hagain. by destruct Hagain.
Qed.

Lemma duplicate_reply_suppressed_witness :
  let message := {| msg_id := "m1"; channel_id := "c1"; guild_id := "g1";
                    content := "hi";
                    author := {| user_id := "u1"; username := "ann" |} |} in
  let other := {| msg_id := "m2"; channel_id := "c1"; guild_id := "g1";
                  content := "ho";
                  author := {| user_id := "u1"; username := "ann" |} |} in
  let env now := {| date_now := now; request_now := now;
                    token_net := Samples.issued "t";
                    api_net := HttpOk {| sent_id := "r1";
                                         sent_timestamp := "" |} |} in
  let st := {| recentReplies := ∅; client := Samples.cold_client |} in
  let first := deliver message false (Some (lit "hello")) (env 10000%Z) st in
  let st' := deliver_all [{| for_message := other; as_direct := false;
                             with_text := Some (lit "hello");
                             in_env := env 12000%Z |}] (state_after first) in
  calls (deliver message false (Some (lit "hello")) (env 14999%Z) st') = []
  ∧ calls (deliver message false (Some (lit "other")) (env 12001%Z) st') ≠ [].
Proof.
  cbn zeta.
  pose proof (duplicate_reply_suppressed
    {| msg_id := "m1"; channel_id := "c1"; guild_id := "g1"; content := "hi";
       author := {| user_id := "u1"; username := "ann" |} |}
    false false (lit "hello")
    {| date_now := 10000; request_now := 10000;
       token_net := Samples.issued "t";
       api_net := HttpOk {| sent_id := "r1"; sent_timestamp := "" |} |}
    {| date_now := 14999; request_now := 14999;
       token_net := Samples.issued "t";
       api_net := HttpOk {| sent_id := "r1"; sent_timestamp := "" |} |}
    {| recentReplies := ∅; client := Samples.cold_client |}
    [{| for_message :=
          {| msg_id := "m2"; channel_id := "c1"; guild_id := "g1";
             content := "ho";
             author := {| user_id := "u1"; username := "ann" |} |};
        as_direct := false; with_text := Some (lit "hello");
        in_env := {| date_now := 12000; request_now := 12000;
                     token_net := Samples.issued "t";
                     api_net := HttpOk {| sent_id := "r1";
                                          sent_timestamp := "" |} |} |}])
    as Hsoon.
  cbn zeta in Hsoon.
  destruct Hsoon as (Hsoon & _ & Hother);
    [by vm_compute | by vm_compute
    | repeat constructor; [by vm_compute | by vm_compute] |].
  split.
  - rewrite Hsoon; [reflexivity | by vm_compute].
  - apply (Hother (lit "other") false
             {| date_now := 12001; request_now := 12001;
                token_net := Samples.issued "t";
                api_net := HttpOk {| sent_id := "r1"; sent_timestamp := "" |} |});
      by vm_compute.
Defined.

(** *** Links *)

Lemma replace_all_skip
    (matcher : js_string → option nat) (rep : js_string) (k : nat)
    (s : js_string) :
  replace_all matcher rep k s = replace_all matcher rep 0 (drop k s).
Proof.
  revert s. induction k as [|k IH]; intros s; [by rewrite drop_0|].
  destruct s as [|c rest]; [done|]. cbn [replace_all drop]. apply IH.
Qed.

Lemma starts_with_prefix (p s : js_string) :
  starts_with p s = true → s = p ++ drop (length p) s.
Proof.
  revert s. induction p as [|a p IH]; intros s; [done|].
  destruct s as [|b s]; [done|]. cbn.
  intros [Hab Hp]%andb_true_iff. apply Z.eqb_eq in Hab as ->.
  f_equal. by apply IH.
Qed.

Lemma span_length_pos (p : Z → bool) (s : js_string) (k : nat) :
  span_length p s = S k → ∃ c rest, s = c :: rest ∧ p c = true.
Proof.
  destruct s as [|c rest]; [done|]. cbn.
  destruct (p c) eqn:Hc; [|done]. by exists c, rest.
Qed.

Lemma match_url_inv (s : js_string) (n : nat) :
  match_url s = Some n →
  ∃ pre c rest, is_scheme pre ∧ s = pre ++ c :: rest ∧ url_char c = true.
Proof.
  unfold match_url.
  destruct (starts_with (lit "https://") s) eqn:H8;
    [|destruct (starts_with (lit "http://") s) eqn:H7; [|done]].
  - apply starts_with_prefix in H8.
    destruct (span_length url_char (drop 8 s)) as [|k] eqn:Hspan; [done|].
    intros _. apply span_length_pos in Hspan as (c & rest & Hrest & Hc).
    exists (lit "https://"), c, rest. split; [by right|].
    split; [|done]. rewrite H8 at 1. by rewrite <- Hrest.
  - apply starts_with_prefix in H7.
    destruct (span_length url_char (drop 7 s)) as [|k] eqn:Hspan; [done|].
    intros _. apply span_length_pos in Hspan as (c & rest & Hrest & Hc).
    exists (lit "http://"), c, rest. split; [by left|].
    split; [|done]. rewrite H7 at 1. by rewrite <- Hrest.
Qed.

Lemma match_url_intro (pre : js_string) (c : Z) (rest : js_string) :
  is_scheme pre → url_char c = true → match_url (pre ++ c :: rest) ≠ None.
Proof.
  intros [-> | ->] Hc; unfold match_url;
    change (lit "https://") with [104; 116; 116; 112; 115; 58; 47; 47]%Z;
    change (lit "http://") with [104; 116; 116; 112; 58; 47; 47]%Z;
    cbn -[url_char]; by rewrite Hc.
Qed.

Lemma match_url_head (s : js_string) (n : nat) :
  match_url s = Some n → ∃ rest, s = 104%Z :: rest.
Proof.
  intros (pre & c & rest & [-> | ->] & -> & _)%match_url_inv; by eexists.
Qed.

Lemma no_url_nil : no_url [].
Proof. intros i. by rewrite drop_nil. Qed.

Lemma no_url_cons (c : Z) (s : js_string) :
  match_url (c :: s) = None → no_url s → no_url (c :: s).
Proof. intros Hc Hs [|i]; [done|]. apply Hs. Qed.

Lemma no_url_tail (c : Z) (s : js_string) : no_url (c :: s) → no_url s.
Proof. intros Hs i. apply (Hs (S i)). Qed.

Lemma match_url_other_head (c : Z) (s : js_string) :
  c ≠ 104%Z → match_url (c :: s) = None.
Proof.
  intros Hc. destruct (match_url (c :: s)) as [n|] eqn:Hm; [|done].
  apply match_url_head in Hm as [rest [= -> _]]. done.
Qed.

(** A string without the letter h has no link. *)
Lemma no_url_without_h (s : js_string) : 104%Z ∉ s → no_url s.
Proof.
  induction s as [|c s IH]; intros Hs; [apply no_url_nil|].
  apply not_elem_of_cons in Hs as [Hc Hs].
  apply no_url_cons; [by apply match_url_other_head | by apply IH].
Qed.

Lemma replace_urls_step (c : Z) (rest : js_string) :
  match match_url (c :: rest) with
  | Some n =>
    c = 104%Z
    ∧ replace_all match_url (lit "[link]") 0 (c :: rest)
      = lit "[link]"
        ++ replace_all match_url (lit "[link]") 0 (drop (n - 1) rest)
  | None =>
    replace_all match_url (lit "[link]") 0 (c :: rest)
    = c :: replace_all match_url (lit "[link]") 0 rest
  end.
Proof.
  cbn [replace_all]. destruct (match_url (c :: rest)) as [n|] eqn:Hm; [|done].
  split; [by apply match_url_head in Hm as [? [= -> _]]|].
  by rewrite replace_all_skip.
Qed.

(** What was copied to the output stood in the input. *)
Lemma replace_urls_copied (q s o : js_string) :
  91%Z ∉ q →
  replace_all match_url (lit "[link]") 0 s = q ++ o →
  ∃ s', s = q ++ s' ∧ replace_all match_url (lit "[link]") 0 s' = o.
Proof.
  revert s. induction q as [|x q IH]; intros s Hq Hout; [by exists s|].
  apply not_elem_of_cons in Hq as [Hx Hq].
  destruct s as [|c rest]; [done|].
  pose proof (replace_urls_step c rest) as Hstep.
  destruct (match_url (c :: rest)) as [n|].
  - destruct Hstep as [_ Hstep]. rewrite Hstep in Hout. by injection Hout.
  - rewrite Hstep in Hout. injection Hout as -> Hout.
    destruct (IH rest Hq Hout) as (s' & -> & Hs'). by exists s'.
Qed.

Lemma replace_urls_no_url_bounded (n : nat) (s : js_string) :
  length s ≤ n → no_url (replace_all match_url (lit "[link]") 0 s).
Proof.
  revert s. induction n as [|n IH]; intros s Hlen.
  { destruct s; [apply no_url_nil | cbn in Hlen; lia]. }
  destruct s as [|c rest]; [apply no_url_nil|]. cbn in Hlen.
  pose proof (replace_urls_step c rest) as Hstep.
  destruct (match_url (c :: rest)) as [k|] eqn:Hm.
  - destruct Hstep as [_ ->].
    change (lit "[link]") with [91; 108; 105; 110; 107; 93]%Z at 1.
    cbn [app].
    repeat (apply no_url_cons; [by apply match_url_other_head|]).
    apply IH. rewrite length_drop. lia.
  - rewrite Hstep. apply no_url_cons; [|apply IH; lia].
    destruct (match_url (c :: replace_all _ _ 0 rest)) as [k|] eqn:Hout;
      [exfalso|done].
    apply match_url_inv in Hout as (pre & b & tail & Hpre & Hshape & Hb).
    assert (∃ q, pre = 104%Z :: q ∧ 91%Z ∉ q) as (q & -> & Hq).
    { destruct Hpre as [-> | ->]; eexists; (split; [done|]);
        by apply (bool_decide_eq_false_1 (_ ∈ _)). }
    injection Hshape as -> Hshape.
    apply replace_urls_copied in Hshape as (r' & -> & Hr'); [|done].
    assert (∃ b' r'', r' = b' :: r'' ∧ url_char b' = true)
      as (b' & r'' & -> & Hb').
    { destruct r' as [|b' r'']; [done|]. exists b', r''. split; [done|].
      pose proof (replace_urls_step b' r'') as Hstep'.
      destruct (match_url (b' :: r'')) as [k'|].
      - by destruct Hstep' as [-> _].
      - rewrite Hstep' in Hr'. by injection Hr' as ->. }
    by apply (match_url_intro (104%Z :: q) b' r'') in Hpre.
Qed.

Lemma filter_reply_no_url (t : js_string) : no_url (filter_reply t).
Proof. unfold filter_reply. by eapply replace_urls_no_url_bounded. Qed.

(** A link that ends before a code unit outside the class does not depend
    on what follows that code unit. *)
Lemma match_url_cut (x y z : js_string) (w : Z) :
  url_char w = false → match_url (x ++ w :: y) ≠ None → match_url (x ++ z) ≠ None.
Proof.
  intros Hw Hm.
  destruct (match_url (x ++ w :: y)) as [n|] eqn:Hn; [clear Hm|done].
  apply match_url_inv in Hn as (pre & c & rest & Hpre & Hshape & Hc).
  assert (Forall (λ a, url_char a = true) (pre ++ [c])) as Hall.
  { apply Forall_app. split; [|by repeat constructor].
    destruct Hpre as [-> | ->]; by repeat constructor. }
  assert (length (pre ++ [c]) ≤ length x) as Hlen.
  { destruct (decide (length (pre ++ [c]) ≤ length x)) as [|Hshort]; [done|].
    exfalso.
    assert ((pre ++ [c]) !! length x = Some w) as Hat.
    { assert ((x ++ w :: y) !! length x = Some w) as Hw'
        by by rewrite list_lookup_middle.
      rewrite Hshape, (cons_middle c pre rest), app_assoc in Hw'.
      rewrite lookup_app_l in Hw' by lia. done. }
    apply (proj1 (Forall_lookup _ _) Hall) in Hat. congruence. }
  assert (x = (pre ++ [c]) ++ drop (length (pre ++ [c])) x) as ->.
  { rewrite <- (take_drop (length (pre ++ [c])) x) at 1. f_equal.
    assert (take (length (pre ++ [c])) (x ++ w :: y) = pre ++ [c]) as Htake.
    { rewrite Hshape, (cons_middle c pre rest), app_assoc.
      by rewrite take_app_length. }
    by rewrite take_app_le in Htake by done. }
  rewrite <- !app_assoc. cbn [app]. by apply match_url_intro.
Qed.

Lemma truncate_reply_no_url (t : js_string) :
  no_url t → no_url (truncate_reply t).
Proof.
  intros Ht. unfold truncate_reply. case_bool_decide; [|done].
  set (n := MAX_MESSAGE_LENGTH - length truncateMsg).
  assert (no_url truncateMsg) as Hmsg.
  { apply no_url_without_h. by apply (bool_decide_eq_false_1 (_ ∈ _)). }
  intros i. destruct (decide (i < length (take n t))) as [Hin|Hout].
  - rewrite drop_app_le by lia.
    destruct (match_url (drop i (take n t) ++ truncateMsg)) as [k|] eqn:Hm;
      [exfalso|done].
    assert (match_url (drop i (take n t) ++ drop n t) ≠ None) as Hfull.
    { apply (match_url_cut _ (tail truncateMsg) _ 10%Z); [done|].
      change (10%Z :: tail truncateMsg) with truncateMsg. by rewrite Hm. }
    apply Hfull. rewrite <- (Ht i).
    rewrite <- (take_drop n t) at 3. by rewrite drop_app_le by lia.
  - rewrite drop_app_ge by lia. apply Hmsg.
Qed.

(** X28. No reply leaves with a link in it: in the text handed to the
    client, no position starts with [http://] or [https://] followed by a
    character that is neither white space nor a closing bracket.  The
    replacement by [[link]] cannot be undone by the text around it, and the
    cut of a long reply does not bring a link back. *)
Theorem no_url_delivered
    (message : MessagePayload) (isDirect : bool) (text : option js_string)
    (env : deliver_env) (st : channel_state) (call : send_call) :
  call ∈ calls (deliver message isDirect text env st) →
  no_url (call_content call).
Proof.
  intros (t & _ & _ & -> & _)%deliver_call.
  apply truncate_reply_no_url, filter_reply_no_url.
Qed.

Lemma no_url_delivered_witness :
  no_url (lit "see [link]").
Proof.
  apply (no_url_delivered
           {| msg_id := "m1"; channel_id := "c1"; guild_id := "g1";
              content := "hi";
              author := {| user_id := "u1"; username := "ann" |} |}
           false (Some (lit "see https://clawdhub.com/x"))
           {| date_now := 10000; request_now := 10001;
              token_net := Samples.issued "t";
              api_net := HttpOk {| sent_id := "r1"; sent_timestamp := "" |} |}
           {| recentReplies := ∅; client := Samples.cold_client |}
           {| direct := false; target := "c1";
              call_content := lit "see [link]"; call_msg_id := "m1" |}).
  vm_compute. apply list_elem_of_here.
Defined.

End ChannelExtras.

Module LegacyExtras.
Import Client Wire Observe Legacy LegacyStop.
Local Open Scope action_scope.

(** X29. The older transport treats every close code alike, the ones
    the newer one takes as fatal included: unless it is stopping, a close
    sets the reconnect timer to [5000 * n] ms for the [n]-th attempt, without
    a call of [onError]; from the sixth on it reports the terminal error and
    sets no timer. *)
Theorem legacy_close_any_code (w : world) (code : Z) (reason : string) :
  isClosing (self w) = false →
  (reconnectAttempts (self w) < 5 →
   filter is_retry (on_close code reason w).2
   = [SetTimeout ReconnectTimer (5000 * Z.of_nat (S (reconnectAttempts (self w))))]
   ∧ filter is_on_error (on_close code reason w).2 = []
   ∧ reconnectAttempts (self (on_close code reason w).1)
     = S (reconnectAttempts (self w)))
  ∧ (5 ≤ reconnectAttempts (self w) →
     filter is_retry (on_close code reason w).2 = []
     ∧ filter is_on_error (on_close code reason w).2
       = [OnError (Error "Max reconnect attempts reached")]).
Proof.
  intros Hc. destruct w as [cached c [sock held sq sid n cl]].
  cbn in Hc. subst cl. cbn [self reconnectAttempts].
  unfold on_close, stopHeartbeat, scheduleReconnect, andThen, reading.
  cbv beta. split; intros Hn.
  - destruct held; cbn;
      rewrite bool_decide_false by (unfold maxReconnectAttempts; lia); done.
  - destruct held; cbn;
      rewrite bool_decide_true by (unfold maxReconnectAttempts; lia); done.
Qed.

Lemma legacy_close_any_code_witness :
  let w := {| cachedAccessToken := None; apiClient := Samples.cold_client;
              self := {| ws := None; heartbeatInterval := None;
                         lastSequence := None; sessionId := None;
                         reconnectAttempts := 2; isClosing := false |} |} in
  filter is_retry (on_close 4004 "auth" w).2
  = [SetTimeout ReconnectTimer (5000 * Z.of_nat 3)].
Proof.
  cbn zeta.
  apply (legacy_close_any_code
           {| cachedAccessToken := None; apiClient := Samples.cold_client;
              self := {| ws := None; heartbeatInterval := None;
                         lastSequence := None; sessionId := None;
                         reconnectAttempts := 2; isClosing := false |} |}
           4004 "auth"); [reflexivity | simpl; lia].
Defined.

(** X30. [stop] of the older transport does not cancel a reconnect that
    is already scheduled: when its timer fires after [stop], the transport
    starts again, and with a token, a gateway and a socket to be had it
    dials and holds a new socket although it is marked as stopping. *)
Theorem legacy_reconnects_after_stop
    (env : StartEnv) (w : world) (t t' : TokenResponse) (g : GatewayResponse) :
  token_net env = HttpOk t → gateway_token_net env = HttpOk t' →
  gateway_net env = HttpOk g → socket_throws env = None →
  let w1 := (stop w).1 in
  isClosing (self w1) = true ∧ ws (self w1) = None
  ∧ filter is_retry (reconnect_timer_fired env w1).2 = [NewWebSocket (url g)]
  ∧ ws (self (reconnect_timer_fired env w1).1)
    = Some {| ws_url := url g; readyState := CONNECTING |}
  ∧ isClosing (self (reconnect_timer_fired env w1).1) = true.
Proof.
  intros Htoken Hgtoken Hgateway Hsocket. cbn zeta.
  assert (∃ sq sid n cached c,
    (stop w).1 = {| cachedAccessToken := cached; apiClient := c;
                    self := {| ws := None; heartbeatInterval := None;
                               lastSequence := sq; sessionId := sid;
                               reconnectAttempts := n; isClosing := true |} |})
    as (sq & sid & n & cached & c & ->).
  { destruct w as [cached c [sock held sq sid n cl]].
    exists None, None, 0, cached, c. by destruct held, sock. }
  split; [done|]. split; [done|].
  unfold reconnect_timer_fired, reconnect.
  rewrite !RuntimeFacts.andThen_fst, !RuntimeFacts.andThen_snd.
  cbn [stopHeartbeat close_socket reading self heartbeatInterval ws skip
       fst snd app].
  unfold start, reading. cbn [apiClient]. rewrite Htoken, Hgtoken, Hgateway, Hsocket.
  destruct (RuntimeFacts.getAccessToken_issued c false (token_now env) t)
    as [token Hissued].
  destruct (getAccessToken c false (token_now env) (HttpOk t))
    as [c1 out1 reqs1].
  cbn in Hissued. subst out1. cbn [outcome client_after requests].
  destruct (RuntimeFacts.getGateway_answered c1 (gateway_now env) t' g)
    as (c' & reqs & ->).
  rewrite !RuntimeFacts.andThen_fst, !RuntimeFacts.andThen_snd.
  cbn [emit_all set_client set_cached emit update fst snd app self].
  rewrite !filter_app, !RuntimeExtras.filter_token_requests by done.
  done.
Qed.

Lemma legacy_reconnects_after_stop_witness :
  let env := {| token_now := 1000; token_net := Samples.issued "t";
                gateway_now := 1001; gateway_token_net := Samples.issued "t";
                gateway_net := Samples.gateway 100; socket_throws := None |} in
  let w := {| cachedAccessToken := None; apiClient := Samples.cold_client;
              self := {| ws := None; heartbeatInterval := None;
                         lastSequence := None; sessionId := None;
                         reconnectAttempts := 1; isClosing := false |} |} in
  filter is_retry (reconnect_timer_fired env (stop w).1).2
  = [NewWebSocket "wss://api.sgroup.qq.com/websocket"].
Proof.
  cbn zeta.
  apply (legacy_reconnects_after_stop
           {| token_now := 1000; token_net := Samples.issued "t";
              gateway_now := 1001; gateway_token_net := Samples.issued "t";
              gateway_net := Samples.gateway 100; socket_throws := None |}
           {| cachedAccessToken := None; apiClient := Samples.cold_client;
              self := {| ws := None; heartbeatInterval := None;
                         lastSequence := None; sessionId := None;
                         reconnectAttempts := 1; isClosing := false |} |}
           {| access_token := "t"; expires_in := 7200 |}
           {| access_token := "t"; expires_in := 7200 |}
           {| url := "wss://api.sgroup.qq.com/websocket"; shards := 1;
              session_start_limit :=
                Some {| total := 1000; remaining := 100;
                        reset_after := 60000; max_concurrency := 1 |} |});
    reflexivity.
Defined.

End LegacyExtras.
